(** * skscope documentation gallery: losses, simulators and the benchmark

    The repository is a set of Jupyter notebooks.  Each one simulates a
    dataset, defines a loss over the parameter vector, hands the loss to the
    external [ScopeSolver] and reports the estimate.  This development embeds
    the Python of the code cells:

    - the NumPy / jax.numpy array expressions of the loss functions, read
      over exact reals ([R]), arrays being lists and matrices lists of rows;
    - the arguments of the logarithms of the survival objectives once more
      in IEEE 754 binary32, the arithmetic JAX runs them in;
    - the two survival simulators, in IEEE 754 binary64, as functions of the
      realised random draws, with NumPy's libm and BLAS as an explicit
      record;
    - the benchmark driver [test_time], with the external libraries (NumPy's
      generator, abess, skscope, the clock) as an explicit world;
    - the sequence of solver-facing actions each notebook performs.

    Shapes: NumPy raises (or broadcasts) when operand shapes disagree; the
    array functions below are the element-wise definitions on lists and every
    theorem states the shapes the notebooks establish.

    The losses are read in the arithmetic of [R]: exact, with total
    division and a total logarithm.  Where jax would return nan or an
    infinity (the mean of an empty array, the logarithm of a non-positive
    number) the value there is arbitrary; the notebooks have n >= 100
    observations.  Over [R] the arguments of the logarithms of the survival
    objectives are positive; in binary32 an exponential can underflow to
    0.0, and they need not be.  The simulators are modelled in floats only:
    a power that overflows makes a failure time nan. *)

From Stdlib Require Import Reals Lra Lia List ZArith String.
From Stdlib Require Import SpecFloat.
From stdpp Require Import base list gmap strings.

Open Scope R_scope.

(** ** Arrays *)

Abbreviation vec := (list R).
Abbreviation matrix := (list (list R)).
Abbreviation zmatrix := (list (list Z)).

(** [X.shape == (n, p)] *)
Definition shape {A} (X : list (list A)) (n p : nat) : Prop :=
  length X = n /\ Forall (fun row => length row = p) X.

(** [jnp.sum(v)] *)
Definition vsum (v : vec) : R := foldr Rplus 0 v.

(** [jnp.mean(v)] *)
Definition mean (v : vec) : R := vsum v / INR (length v).

(** [a - b], [a * b] on one-dimensional arrays of one length *)
Definition vsub (a b : vec) : vec := zip_with Rminus a b.
Definition vmul (a b : vec) : vec := zip_with Rmult a b.

(** [a ** 2] *)
Definition vsquare (a : vec) : vec := map (fun t => t ^ 2) a.

(** [jnp.dot(a, b)] on one-dimensional arrays *)
Definition dot (a b : vec) : R := vsum (vmul a b).

(** [X @ v], [jnp.matmul(X, v)] for a matrix and a one-dimensional array *)
Definition matvec (X : matrix) (v : vec) : vec := map (fun row => dot row v) X.

(** ** Indexed sums, for the mathematical side of the statements *)

(** [Rsum n f] is the sum of [f i] over [0 <= i < n]. *)
Fixpoint Rsum (n : nat) (f : nat -> R) : R :=
  match n with
  | O => 0
  | S k => Rsum k f + f k
  end.

(** [v_i] and [X_ij], zero-based. *)
Definition at1 (v : vec) (i : nat) : R := nth i v 0.
Definition at2 (X : matrix) (i j : nat) : R := nth j (nth i X []) 0.

(** [(X @ v)_i] as the sum over the [p] columns. *)
Definition matvec_at (p : nat) (X : matrix) (v : vec) (i : nat) : R :=
  Rsum p (fun j => at2 X i j * at1 v j).

(** ** linear-regression.ipynb: [ols_loss]

<<
def ols_loss(params):
    loss = jnp.mean((y - X @ params) ** 2)
    return loss
>>
    [X] and [y] are the notebook's globals, read when the loss is called. *)
Definition ols_loss (X : matrix) (y : vec) (params : vec) : R :=
  let loss := mean (vsquare (vsub y (matvec X params))) in
  loss.

(** The mean squared error [(1/n) * sum_i (y_i - (X @ params)_i)^2]. *)
Definition mean_squared_error (n p : nat) (X : matrix) (y params : vec) : R :=
  1 / INR n * Rsum n (fun i => (at1 y i - matvec_at p X params i) ^ 2).

(** ** abess_compare.ipynb: the three [objective] closures of [test_time]

<<
def objective(params):                      # task == 'Linear', 'Non-Neg'
    loss = jnp.mean((y - X @ params) ** 2)
    return loss
def objective(params):                      # task == 'Logistic'
    xbeta = jnp.clip(X @ params, -30, 30)
    return jnp.mean(jnp.log(1 + jnp.exp(xbeta)) - y * xbeta)
>>
    [X] and [y] are locals of [test_time], assigned after the [def] and
    before the call. *)
Inductive task := Linear | NonNeg | Logistic.

(** [jnp.clip(v, lo, hi)] *)
Definition clip (v : vec) (lo hi : R) : vec := map (fun t => Rmin (Rmax t lo) hi) v.

Definition objective (t : task) (X : matrix) (y : vec) (params : vec) : R :=
  match t with
  | Linear =>
      let loss := mean (vsquare (vsub y (matvec X params))) in
      loss
  | NonNeg =>
      let loss := mean (vsquare (vsub y (matvec X params))) in
      loss
  | Logistic =>
      let xbeta := clip (matvec X params) (-30) 30 in
      mean (vsub (map (fun t => ln (1 + t)) (map exp xbeta)) (vmul y xbeta))
  end.

(** ** linear-regression.ipynb (second notebook): [multinomial_regression_loss]

<<
def multinomial_regression_loss(params):
    beta = params.reshape((p, m))
    logits = jnp.dot(X, beta)
    softmax_probs = jnp.exp(logits) / jnp.sum(jnp.exp(logits), axis=1, keepdims=True)
    loss = -jnp.mean(jnp.sum(y * jnp.log(softmax_probs), axis=1))
    return loss
>> *)

(** [params.reshape((p, m))]: row [a] holds [params[a*m : a*m + m]]
    (C order).  NumPy raises unless [len(params) == p * m]. *)
Definition reshape (p m : nat) (params : vec) : matrix :=
  map (fun a => take m (drop (a * m) params)) (seq 0 p).

(** [B[:, k]] *)
Definition column (k : nat) (B : matrix) : vec := map (fun row => nth k row 0) B.

(** [jnp.dot(X, B)] for [X] of shape [(n, p)] and [B] of shape [(p, m)] *)
Definition matmul (m : nat) (X B : matrix) : matrix :=
  map (fun row => map (fun k => dot row (column k B)) (seq 0 m)) X.

(** [jnp.exp(M)], [jnp.log(M)], [A * B] on matrices of one shape *)
Definition mexp (M : matrix) : matrix := map (map exp) M.
Definition mlog (M : matrix) : matrix := map (map ln) M.
Definition mmul (A B : matrix) : matrix := zip_with vmul A B.

(** [jnp.sum(M, axis=1, keepdims=True)]: shape [(n, 1)] *)
Definition sum_axis1_keepdims (M : matrix) : matrix := map (fun row => [vsum row]) M.

(** [jnp.sum(M, axis=1)]: shape [(n,)] *)
Definition sum_axis1 (M : matrix) : vec := map vsum M.

(** [M / S] with [S] of shape [(n, 1)] broadcast along the columns of [M] *)
Definition mdiv_column (M S : matrix) : matrix :=
  zip_with (fun row s => map (fun e => e / nth 0 s 0) row) M S.

Definition multinomial_regression_loss
    (p m : nat) (X y : matrix) (params : vec) : R :=
  let beta := reshape p m params in
  let logits := matmul m X beta in
  let softmax_probs := mdiv_column (mexp logits) (sum_axis1_keepdims (mexp logits)) in
  let loss := - mean (sum_axis1 (mmul y (mlog softmax_probs))) in
  loss.

(** [(X B)_ik] for [B_ak = params[a*m + k]], and the averaged negative
    log-likelihood of the softmax model. *)
Definition logit_at (p m : nat) (X : matrix) (params : vec) (i k : nat) : R :=
  Rsum p (fun a => at2 X i a * at1 params (a * m + k)).

Definition softmax_nll (n p m : nat) (X y : matrix) (params : vec) : R :=
  - (1 / INR n) *
  Rsum n (fun i => Rsum m (fun k =>
    at2 y i k *
    ln (exp (logit_at p m X params i k) /
        Rsum m (fun j => exp (logit_at p m X params i j))))).

(** ** Survival notebooks: comparisons, masks and integer arrays *)

(** Element-wise comparisons of NumPy arrays produce boolean arrays. *)
Definition Rgeb (a b : R) : bool := if Rge_dec a b then true else false.
Definition Rleb (a b : R) : bool := if Rle_dec a b then true else false.
Definition Rltb (a b : R) : bool := if Rlt_dec a b then true else false.

(** [v >= t], [v <= t] for an array and a scalar; [d == z] on an integer array *)
Definition ge_scalar (v : vec) (t : R) : list bool := map (fun a => Rgeb a t) v.
Definition le_scalar (v : vec) (t : R) : list bool := map (fun a => Rleb a t) v.
Definition eq_scalar (d : list Z) (z : Z) : list bool := map (fun a => Z.eqb a z) d.

(** [a | b], [a & b] *)
Definition bor (a b : list bool) : list bool := zip_with orb a b.
Definition band (a b : list bool) : list bool := zip_with andb a b.

(** [mask * 1]: a boolean array as an integer array *)
Definition times_one (mask : list bool) : list Z :=
  map (fun c : bool => if c then 1%Z else 0%Z) mask.

(** A boolean or an integer array promoted to floats inside [jnp.dot]. *)
Definition of_bools (mask : list bool) : vec :=
  map (fun c : bool => if c then 1 else 0) mask.
Definition of_ints (d : list Z) : vec := map IZR d.

(** [d[:, k]] and [a * b] on integer arrays *)
Definition zcolumn (k : nat) (D : zmatrix) : list Z := map (fun row => nth k row 0%Z) D.
Definition zmul (a b : list Z) : list Z := zip_with Z.mul a b.
Definition zat2 (D : zmatrix) (i j : nat) : Z := nth j (nth i D []) 0%Z.

(** [jnp.zeros_like(v)] *)
Definition zeros_like (v : vec) : vec := map (fun _ => 0) v.

(** Every entry of an indicator matrix is 0 or 1. *)
Definition binary (D : zmatrix) : Prop :=
  Forall (Forall (fun d => d = 0%Z \/ d = 1%Z)) D.

(** ** competing-risk-model.ipynb: [competing_risk_objective]

<<
def competing_risk_objective(params):
    Xbeta = jnp.matmul(x, params)
    logsum = jnp.zeros_like(Xbeta)
    for i in range(0,n):
        riskset = ((y[:,0]>=y[i,0])|((delta[:,1]==0)&(delta[:,0]==1)&(y[:,0]<=y[i,0])&(y[:,1]>=y[i,0])))*1
        logsum = logsum.at[i].set(jnp.log(jnp.dot(riskset, jnp.exp(Xbeta))))
    return jnp.dot(delta[:,0]*delta[:,1],logsum)/n-jnp.dot(delta[:,0]*delta[:,1], Xbeta)/n
>>
    [n], [x], [y], [delta] are the notebook's globals.  [logsum.at[i].set(v)]
    is the functional update of index [i]. *)
Definition competing_risk_riskset (y : matrix) (delta : zmatrix) (i : nat) : list Z :=
  times_one
    (bor (ge_scalar (column 0 y) (at2 y i 0))
         (band (band (band (eq_scalar (zcolumn 1 delta) 0) (eq_scalar (zcolumn 0 delta) 1))
                     (le_scalar (column 0 y) (at2 y i 0)))
               (ge_scalar (column 1 y) (at2 y i 0)))).

(** The argument of [jnp.log] in iteration [i]. *)
Definition competing_risk_log_argument
    (x y : matrix) (delta : zmatrix) (params : vec) (i : nat) : R :=
  let Xbeta := matvec x params in
  let riskset := competing_risk_riskset y delta i in
  dot (of_ints riskset) (map exp Xbeta).

Definition competing_risk_objective
    (n : nat) (x y : matrix) (delta : zmatrix) (params : vec) : R :=
  let Xbeta := matvec x params in
  let logsum := zeros_like Xbeta in
  let logsum :=
    foldl (fun logsum i =>
             <[i := ln (competing_risk_log_argument x y delta params i)]> logsum)
          logsum (seq 0 n) in
  dot (of_ints (zmul (zcolumn 0 delta) (zcolumn 1 delta))) logsum / INR n
  - dot (of_ints (zmul (zcolumn 0 delta) (zcolumn 1 delta))) Xbeta / INR n.

(** ** multivariate-failure-time-model.ipynb: [multivariate_failure_objective]

<<
def multivariate_failure_objective(params):
    Xbeta = jnp.matmul(x, params)
    logsum1 = jnp.zeros_like(Xbeta)
    logsum2 = jnp.zeros_like(Xbeta)
    for i in range(0,n):
        logsum1 = logsum1.at[i].set(jnp.log(jnp.dot(y[:,0] >= y[:,0][i], jnp.exp(Xbeta))))
        logsum2 = logsum2.at[i].set(jnp.log(jnp.dot(y[:,1] >= y[:,1][i], jnp.exp(Xbeta))))
    return (jnp.dot(delta[:,0],logsum1)+jnp.dot(delta[:,1],logsum2)-jnp.dot(delta[:,0], Xbeta)-jnp.dot(delta[:,1], Xbeta))/n
>> *)

(** The argument of [jnp.log] for failure type [k] in iteration [i]. *)
Definition multivariate_failure_log_argument
    (x y : matrix) (params : vec) (k i : nat) : R :=
  let Xbeta := matvec x params in
  dot (of_bools (ge_scalar (column k y) (at1 (column k y) i))) (map exp Xbeta).

Definition multivariate_failure_objective
    (n : nat) (x y : matrix) (delta : zmatrix) (params : vec) : R :=
  let Xbeta := matvec x params in
  let logsum1 := zeros_like Xbeta in
  let logsum2 := zeros_like Xbeta in
  let '(logsum1, logsum2) :=
    foldl (fun '(logsum1, logsum2) i =>
             (<[i := ln (multivariate_failure_log_argument x y params 0 i)]> logsum1,
              <[i := ln (multivariate_failure_log_argument x y params 1 i)]> logsum2))
          (logsum1, logsum2) (seq 0 n) in
  (dot (of_ints (zcolumn 0 delta)) logsum1 + dot (of_ints (zcolumn 1 delta)) logsum2
   - dot (of_ints (zcolumn 0 delta)) Xbeta - dot (of_ints (zcolumn 1 delta)) Xbeta) / INR n.

(** ** The negative log partial likelihoods, as formulas *)

#[global] Instance Rge_decision : RelDecision Rge := Rge_dec.
#[global] Instance Rle_decision : RelDecision Rle := Rle_dec.
#[global] Instance Rlt_decision : RelDecision Rlt := Rlt_dec.

(** The sum of [f i] over the [i < n] that satisfy [P]. *)
Definition Rsum_where (n : nat) (P : nat -> Prop) `{!forall i, Decision (P i)}
    (f : nat -> R) : R :=
  Rsum n (fun i => if decide (P i) then f i else 0).

(** [j] is in the risk set [R_i] of the competing-risk model. *)
Definition in_risk_set (y : matrix) (delta : zmatrix) (i j : nat) : Prop :=
  at2 y j 0 >= at2 y i 0 \/
  (zat2 delta j 1 = 0%Z /\ zat2 delta j 0 = 1%Z /\
   at2 y j 0 <= at2 y i 0 /\ at2 y j 1 >= at2 y i 0).

#[global] Instance in_risk_set_dec y delta i j : Decision (in_risk_set y delta i j).
Proof. unfold in_risk_set. apply _. Defined.

Definition competing_risk_nlpl
    (n p : nat) (x y : matrix) (delta : zmatrix) (params : vec) : R :=
  1 / INR n *
  Rsum_where n (fun i => zat2 delta i 0 = 1%Z /\ zat2 delta i 1 = 1%Z)
    (fun i =>
       ln (Rsum_where n (in_risk_set y delta i)
             (fun j => exp (matvec_at p x params j)))
       - matvec_at p x params i).

Definition multivariate_failure_nlpl
    (n p : nat) (x y : matrix) (delta : zmatrix) (params : vec) : R :=
  1 / INR n *
  Rsum 2 (fun k =>
    Rsum_where n (fun i => zat2 delta i k = 1%Z)
      (fun i =>
         ln (Rsum_where n (fun j => at2 y j k >= at2 y i k)
               (fun j => exp (matvec_at p x params j)))
         - matvec_at p x params i)).

(** * Floating-point values

    NumPy computes the simulators in IEEE 754 binary64 and JAX, as the
    notebooks configure it, computes the objectives in binary32.  A float is
    a [spec_float] of the Standard Library: a signed zero, a signed
    infinity, nan, or a finite number (-1)^s * m * 2^e.  Sums, differences,
    products, quotients and comparisons are those of IEEE 754, rounding to
    nearest, ties to even. *)

Abbreviation float := spec_float.
Abbreviation fvec := (list float).
Abbreviation fmatrix := (list (list float)).

Definition nan : float := S754_nan.
Definition pinf : float := S754_infinity false.
Definition ninf : float := S754_infinity true.
Definition fzero : float := S754_zero false.

Definition is_nan (a : float) : bool :=
  match a with S754_nan => true | _ => false end.

(** [a < b], [a <= b], [a >= b]: false as soon as one side is nan *)
Definition flt (a b : float) : bool := SFltb a b.
Definition fle (a b : float) : bool := SFleb a b.
Definition fge (a b : float) : bool := SFleb b a.

(** [-a] *)
Definition fneg (a : float) : float := SFopp a.

(** binary64 *)
Module F64.
Definition add : float -> float -> float := SFadd 53 1024.
Definition sub : float -> float -> float := SFsub 53 1024.
Definition mul : float -> float -> float := SFmul 53 1024.
Definition div : float -> float -> float := SFdiv 53 1024.
(** The float nearest to the integer [z], and to [z * 2^e] *)
Definition of_Z (z : Z) : float := binary_normalize 53 1024 z 0 false.
Definition scaled (z e : Z) : float := binary_normalize 53 1024 z e false.
Definition one : float := of_Z 1.
End F64.

(** binary32 *)
Module F32.
Definition add : float -> float -> float := SFadd 24 128.
Definition mul : float -> float -> float := SFmul 24 128.
Definition of_Z (z : Z) : float := binary_normalize 24 128 z 0 false.
End F32.

(** The real number that a finite float stands for (0 for the others). *)
Definition F2R (a : float) : R :=
  match a with
  | S754_finite s m e => IZR (cond_Zopp s (Zpos m)) * Rpower 2 (IZR e)
  | _ => 0
  end.

Definition is_finite (a : float) : bool :=
  match a with S754_finite _ _ _ | S754_zero _ => true | _ => false end.

(** [a_i] and [A_ij] of float arrays, zero-based *)
Definition fat1 (v : fvec) (i : nat) : float := nth i v nan.
Definition fat2 (A : fmatrix) (i j : nat) : float := nth j (nth i A []) nan.

(** [np.minimum(a, b)]: NumPy's loop returns [a] when [a <= b] or [a] is
    nan, and [b] otherwise, so a nan on either side comes out.  (Of two
    zeros of opposite signs, which compare equal, a vectorised loop may
    return the other one.) *)
Definition np_minimum1 (a b : float) : float :=
  if fle a b || is_nan a then a else b.
Definition np_minimum (a b : fvec) : fvec := zip_with np_minimum1 a b.

(** [a < b] on arrays *)
Definition flt_elem (a b : fvec) : list bool := zip_with flt a b.

(** ** The survival simulators

    The simulators are NumPy code and compute in binary64.  They draw from
    NumPy's global generator: a realisation of the draws of one call is an
    input of the model, in the order the calls are made; the distribution
    parameters computed by the code ([Sigma], [prob], the scale of the
    exponential) only feed the generator. *)

(** [a + b] and [a < b] element-wise, on arrays read as reals *)
Definition vadd (a b : vec) : vec := zip_with Rplus a b.
Definition lt_elem (a b : vec) : list bool := zip_with Rltb a b.

(** [np.hstack((a.reshape((-1, 1)), b.reshape((-1, 1))))]: two columns *)
Definition hstack2 {A} (a b : list A) : list (list A) :=
  zip_with (fun s t => [s; t]) a b.

(** What NumPy computes through libraries whose results IEEE 754 does not
    fix: the elementary functions of the platform's libm, and the matrix
    product of its BLAS, which does not specify the order of its sums. *)
Record numpy := {
  np_log : float -> float;
  np_exp : float -> float;
  np_power : float -> float -> float;
  np_matmul : fmatrix -> fvec -> fvec        (* np.matmul(x, v) *)
}.

(** What these libraries guarantee all the same: one entry of the product
    per row; the logarithm of nan and of a negative number is nan; a power
    of a positive number whose exact value is 2^1024 or more overflows to
    infinity. *)
Record numpy_ok (N : numpy) : Prop := {
  np_matmul_length : forall x v, length (np_matmul N x v) = length x;
  np_log_nan : np_log N nan = nan;
  np_log_negative : forall a, flt a fzero = true -> np_log N a = nan;
  np_power_overflow : forall a b,
    is_finite a = true -> is_finite b = true -> 0 < F2R a ->
    Rpower 2 1024 <= Rpower (F2R a) (F2R b) ->
    np_power N a b = pinf
}.

(** A uniform draw from [0, 1), and a draw that is not negative *)
Definition unit_draw (u : float) : Prop := fle fzero u = true /\ flt u F64.one = true.
Definition nonneg_draw (t : float) : Prop := fle fzero t = true.

(** *** competing-risk-model.ipynb: [make_data]

<<
def make_data(n,beta,rho=0.5,mix=0.5,c=10):
    p = len(beta)
    Sigma = np.power(rho, np.abs(np.linspace(1, p, p) - np.linspace(1, p, p).reshape(p, 1)))
    x = np.random.multivariate_normal(mean=np.zeros(p), cov=Sigma, size=(n,))
    Xbeta = np.matmul(x, beta)
    prob = 1 - np.power((1-mix), np.exp(Xbeta))
    case =  np.random.binomial(1,prob)             # failure case
    u = np.random.uniform(0, 1, n)
    temp = -(1-mix)/mix+np.power((1-u+u*np.power((1-mix),np.exp(Xbeta))),np.exp(-Xbeta))/mix
    time = case*(-np.log(temp))  + (1-case)*np.random.exponential(np.exp(-Xbeta),n)
    ctime =  np.random.uniform(0, c, n)
    delta = (time < ctime) * 1              # censoring indicator
    censoringrate = 1 - sum(delta) / n
    print("censoring rate:" + str(censoringrate))
    time = np.minimum(time,ctime)
    y = np.hstack((time.reshape((-1, 1)), ctime.reshape((-1, 1))))
    delta = np.hstack((delta.reshape((-1, 1)), case.reshape((-1,1))))
    return(x,y,delta)
>> *)
Record make_data_draws := {
  draw_x : fmatrix;           (* np.random.multivariate_normal(..., size=(n,)) *)
  draw_case : list Z;         (* np.random.binomial(1, prob) *)
  draw_u : fvec;              (* np.random.uniform(0, 1, n) *)
  draw_exponential : fvec;    (* np.random.exponential(np.exp(-Xbeta), n) *)
  draw_ctime : fvec           (* np.random.uniform(0, c, n) *)
}.

(** What NumPy guarantees of a realisation: the sizes asked for, 0 or 1
    from a binomial with one trial, uniform draws in [0, 1) and censoring
    times that are not negative. *)
Record make_data_draws_ok (n p : nat) (w : make_data_draws) : Prop := {
  draw_x_shape : shape (draw_x w) n p;
  draw_case_length : length (draw_case w) = n;
  draw_case_binary : Forall (fun d => d = 0%Z \/ d = 1%Z) (draw_case w);
  draw_u_length : length (draw_u w) = n;
  draw_u_unit : Forall unit_draw (draw_u w);
  draw_exponential_length : length (draw_exponential w) = n;
  draw_ctime_length : length (draw_ctime w) = n;
  draw_ctime_nonneg : Forall nonneg_draw (draw_ctime w)
}.

(** The failure times: the value of [time] before it is censored. *)
Definition make_data_time (N : numpy) (beta : fvec) (mix : float)
    (w : make_data_draws) : fvec :=
  let x := draw_x w in
  let Xbeta := np_matmul N x beta in
  let case := draw_case w in
  let u := draw_u w in
  let temp :=
    zip_with (fun u xb =>
                F64.add
                  (F64.div (fneg (F64.sub F64.one mix)) mix)
                  (F64.div
                     (np_power N
                        (F64.add (F64.sub F64.one u)
                                 (F64.mul u (np_power N (F64.sub F64.one mix)
                                                        (np_exp N xb))))
                        (np_exp N (fneg xb)))
                     mix))
             u Xbeta in
  zip_with F64.add
    (zip_with F64.mul (map F64.of_Z case) (map fneg (map (np_log N) temp)))
    (zip_with F64.mul (map (fun d => F64.of_Z (1 - d)) case) (draw_exponential w)).

Definition make_data (N : numpy) (n : nat) (beta : fvec) (rho mix c : float)
    (w : make_data_draws) : fmatrix * fmatrix * zmatrix :=
  let x := draw_x w in
  let case := draw_case w in
  let time := make_data_time N beta mix w in
  let ctime := draw_ctime w in
  let delta := times_one (flt_elem time ctime) in
  let time := np_minimum time ctime in
  let y := hstack2 time ctime in
  let delta := hstack2 delta case in
  (x, y, delta).

(** *** multivariate-failure-time-model.ipynb: [make_Clayton2_data]

<<
def make_Clayton2_data(n, theta=15, lambda1=1, lambda2=1, c1=1, c2=1):
    u1 = np.random.uniform(0, 1, n)
    u2 = np.random.uniform(0, 1, n)
    time2 = -np.log(1-u2)/lambda2
    time1 = np.log(1-np.power((1-u2),-theta) + np.power((1-u1), -theta/(1+theta))*np.power((1-u2),-theta))/theta/lambda1
    ctime1 = np.random.uniform(0, c1, n)
    ctime2 =  np.random.uniform(0, c2, n)
    delta1 = (time1 < ctime1) * 1
    delta2 = (time2 < ctime2) * 1
    censoringrate1 = 1 - sum(delta1) / n
    censoringrate2 = 1 - sum(delta2) / n
    print("censoring rate1:" + str(censoringrate1))
    print("censoring rate2:" + str(censoringrate2))
    time1 = np.minimum(time1,ctime1)
    time2 = np.minimum(time2,ctime2)
    y = np.hstack((time1.reshape((-1, 1)), time2.reshape((-1, 1))))
    delta = np.hstack((delta1.reshape((-1, 1)), delta2.reshape((-1, 1))))
    return(y,delta)
>>
    The notebook passes arrays of length [n] for [lambda1] and [lambda2],
    and the integer 50 for [theta], which NumPy converts to the float 50.0
    where it meets an array. *)
Record clayton_draws := {
  draw_u1 : fvec;             (* np.random.uniform(0, 1, n) *)
  draw_u2 : fvec;             (* np.random.uniform(0, 1, n) *)
  draw_ctime1 : fvec;         (* np.random.uniform(0, c1, n) *)
  draw_ctime2 : fvec          (* np.random.uniform(0, c2, n) *)
}.

Record clayton_draws_ok (n : nat) (w : clayton_draws) : Prop := {
  draw_u1_length : length (draw_u1 w) = n;
  draw_u1_unit : Forall unit_draw (draw_u1 w);
  draw_u2_length : length (draw_u2 w) = n;
  draw_u2_unit : Forall unit_draw (draw_u2 w);
  draw_ctime1_length : length (draw_ctime1 w) = n;
  draw_ctime1_nonneg : Forall nonneg_draw (draw_ctime1 w);
  draw_ctime2_length : length (draw_ctime2 w) = n;
  draw_ctime2_nonneg : Forall nonneg_draw (draw_ctime2 w)
}.

(** The failure times [time1] and [time2] before they are censored. *)
Definition clayton_time2 (N : numpy) (lambda2 : fvec) (w : clayton_draws) : fvec :=
  zip_with (fun u2 l2 => F64.div (fneg (np_log N (F64.sub F64.one u2))) l2)
           (draw_u2 w) lambda2.

(** The argument of the logarithm in [time1]. *)
Definition clayton_log_argument (N : numpy) (theta u1 u2 : float) : float :=
  F64.add
    (F64.sub F64.one (np_power N (F64.sub F64.one u2) (fneg theta)))
    (F64.mul (np_power N (F64.sub F64.one u1)
                         (F64.div (fneg theta) (F64.add F64.one theta)))
             (np_power N (F64.sub F64.one u2) (fneg theta))).

Definition clayton_time1 (N : numpy) (theta : float) (lambda1 : fvec)
    (w : clayton_draws) : fvec :=
  zip_with (fun t l1 => F64.div t l1)
    (zip_with (fun u1 u2 =>
                 F64.div (np_log N (clayton_log_argument N theta u1 u2)) theta)
              (draw_u1 w) (draw_u2 w))
    lambda1.

(** [clayton_time k] and [clayton_ctime k] for the failure type [k]. *)
Definition clayton_time (N : numpy) (theta : float) (lambda1 lambda2 : fvec)
    (w : clayton_draws) (k : nat) : fvec :=
  match k with
  | O => clayton_time1 N theta lambda1 w
  | _ => clayton_time2 N lambda2 w
  end.

Definition clayton_ctime (w : clayton_draws) (k : nat) : fvec :=
  match k with
  | O => draw_ctime1 w
  | _ => draw_ctime2 w
  end.

Definition make_Clayton2_data (N : numpy) (n : nat) (theta : float)
    (lambda1 lambda2 : fvec) (c1 c2 : float) (w : clayton_draws)
    : fmatrix * zmatrix :=
  let time2 := clayton_time2 N lambda2 w in
  let time1 := clayton_time1 N theta lambda1 w in
  let ctime1 := draw_ctime1 w in
  let ctime2 := draw_ctime2 w in
  let delta1 := times_one (flt_elem time1 ctime1) in
  let delta2 := times_one (flt_elem time2 ctime2) in
  let time1 := np_minimum time1 ctime1 in
  let time2 := np_minimum time2 ctime2 in
  let y := hstack2 time1 time2 in
  let delta := hstack2 delta1 delta2 in
  (y, delta).

(** [m] is the smaller of [a] and [b]. *)
Definition is_minimum (m a b : float) : Prop :=
  (m = a \/ m = b) /\ fle m a = true /\ fle m b = true.

(** ** The log arguments as JAX computes them

    With JAX's default configuration the objectives are computed in
    binary32: [x], a float64 array of NumPy, is converted where it meets
    [params].  The masks are computed by NumPy from [y] and [delta], in
    binary64 and in integers, and become 0.0 and 1.0 inside [jnp.dot].
    XLA does not fix the order in which a dot product is summed; the model
    adds in index order, starting from 0.0. *)
Record jax := {
  jnp_exp : float -> float
}.

(** What every implementation of the binary32 exponential guarantees: a
    result below half the least positive float, 2^-149, is 0.0. *)
Record jax_ok (J : jax) : Prop := {
  jnp_exp_underflow : forall a,
    is_finite a = true -> exp (F2R a) < Rpower 2 (-150) -> jnp_exp J a = fzero
}.

Definition f32_dot (a b : fvec) : float :=
  foldl (fun acc ab => F32.add acc (F32.mul (fst ab) (snd ab))) fzero (zip a b).
Definition f32_matvec (x : fmatrix) (v : fvec) : fvec :=
  map (fun row => f32_dot row v) x.

Definition f32_of_bools (mask : list bool) : fvec :=
  map (fun c : bool => if c then F32.of_Z 1 else fzero) mask.
Definition f32_of_ints (d : list Z) : fvec := map F32.of_Z d.

Definition fcolumn (k : nat) (B : fmatrix) : fvec := map (fun row => nth k row nan) B.
Definition fge_scalar (v : fvec) (t : float) : list bool := map (fun a => fge a t) v.
Definition fle_scalar (v : fvec) (t : float) : list bool := map (fun a => fle a t) v.

(** [riskset] of iteration [i], on the float64 array [y]. *)
Definition competing_risk_riskset_f64 (y : fmatrix) (delta : zmatrix) (i : nat)
    : list Z :=
  times_one
    (bor (fge_scalar (fcolumn 0 y) (fat2 y i 0))
         (band (band (band (eq_scalar (zcolumn 1 delta) 0) (eq_scalar (zcolumn 0 delta) 1))
                     (fle_scalar (fcolumn 0 y) (fat2 y i 0)))
               (fge_scalar (fcolumn 1 y) (fat2 y i 0)))).

(** The arguments of [jnp.log] in iteration [i], in binary32. *)
Definition competing_risk_log_argument_f32
    (J : jax) (x y : fmatrix) (delta : zmatrix) (params : fvec) (i : nat) : float :=
  let Xbeta := f32_matvec x params in
  let riskset := competing_risk_riskset_f64 y delta i in
  f32_dot (f32_of_ints riskset) (map (jnp_exp J) Xbeta).

Definition multivariate_failure_log_argument_f32
    (J : jax) (x y : fmatrix) (params : fvec) (k i : nat) : float :=
  let Xbeta := f32_matvec x params in
  f32_dot (f32_of_bools (fge_scalar (fcolumn k y) (fat1 (fcolumn k y) i)))
          (map (jnp_exp J) Xbeta).

(** ** What a notebook does with the solver: the vocabulary of actions

    The solver itself is external (package [skscope]).  What the notebooks
    do with it is recorded as a sequence of actions: which simulator
    produced the data, which loss was defined, how [ScopeSolver] was
    constructed, how [solve] was called, how the estimate was read back and
    what was printed. *)

Module Sim.
(** The data generators: [rng.normal] with a linear model, and the named
    simulators. *)
Inductive t :=
  | rng_normal
  | make_multivariate_glm_data
  | make_data
  | make_Clayton2_data
  | make_glm_data
  | multivariate_normal.   (* covariates drawn in a cell, outside a simulator *)
End Sim.

Module Loss.
(** The loss functions defined in the repository, by name. *)
Inductive t :=
  | ols_loss
  | multinomial_regression_loss
  | competing_risk_objective
  | multivariate_failure_objective
  | objective (k : task).
End Loss.

(** The sparsity argument of [ScopeSolver]: an integer or [range(lo, hi)]. *)
Inductive sparsity :=
  | Level (s : nat)
  | Levels (lo hi : nat).

(** How the estimate is read back from the solver. *)
Inductive readback :=
  | ReturnValue          (* the value of solver.solve(...) *)
  | ParamsAttribute      (* solver.params *)
  | GetResult.           (* solver.get_result() *)

Inductive source := Estimate | Truth.

(** What a [print] shows. *)
Inductive shown :=
  | Coefficients (who : source)      (* a coefficient vector *)
  | Support (who : source)           (* set(np.nonzero(...)[0]) *)
  | ObjectiveValue (who : source)    (* the loss at the vector *)
  | SquaredError                     (* np.sum((estimate - beta) ** 2) *)
  | InterceptError                   (* np.abs(intercept - 1) *)
  | AccuracyTable                    (* mean (std) of Accuracy and Time per task and model *)
  | Other.                           (* censoring rates, survival curves, tests, the competitor *)

(** [Construct d sp kw] is [ScopeSolver(d, sp, kw...)], the keywords other
    than the sparsity by name.  [Solve l k jit] is [solver.solve(l, jit=jit)]
    where [k] is the length of the parameter vector [l] takes at the call:
    the number of columns of the design matrix in scope, or [p * m] for the
    loss that reshapes its argument to [(p, m)]. *)
Inductive action :=
  | ImportSolver                                   (* from skscope import ScopeSolver *)
  | Simulate (g : Sim.t)
  | DefineLoss (l : Loss.t)
  | Construct (dimension : nat) (sp : sparsity) (keywords : list string)
  | Solve (l : Loss.t) (parameters : nat) (jit : bool)
  | Read (r : readback)
  | UseOther (name : string)                       (* any other method or attribute of the solver *)
  | Report (what : shown).

(** ** abess_compare.ipynb: [test_time]

    The external libraries are a [world]: NumPy's generator, abess, skscope
    and the clock.  Exceptions and the mutable state of the call (the
    DataFrame [res], the generators, the clock, the log of actions) are
    threaded by a state and error monad; the state survives an exception. *)

Inductive family := gaussian | binomial.
Inductive abess_model := LinearRegression | LogisticRegression.
Inductive method := abess | skscope.

(** [data = make_glm_data(...)]: [data.x], [data.y], [data.coef_] *)
Record glm_data := { data_x : matrix; data_y : vec; data_coef_ : vec }.

Record world := {
  (* rng.choice(population, size=size), by seed and number of earlier draws *)
  rng_choice : nat -> nat -> list Z -> nat -> list Z;
  (* rng.choice(np.arange(p), size=size, replace=False) *)
  rng_choice_distinct : nat -> nat -> nat -> nat -> list nat;
  (* make_glm_data(n, p, k, family, coef_), by number of earlier calls *)
  glm_sample : nat -> nat -> nat -> nat -> family -> vec -> glm_data;
  (* Model(support_size=s).fit(X, y).coef_ *)
  abess_fit : abess_model -> nat -> matrix -> vec -> vec;
  (* ScopeSolver(p, sparsity=s).solve(objective, jit=jit) *)
  scope_solve : nat -> nat -> (vec -> R) -> bool -> vec;
  (* time.time(), by number of earlier readings *)
  clock : nat -> R
}.

(** What the libraries guarantee: a choice from a non-empty population has
    the size asked for and draws from the population, without repetition
    when [replace=False];
    [make_glm_data] returns the coefficients it was given. *)
Record world_ok (w : world) : Prop := {
  rng_choice_length : forall seed k pop size,
    pop <> [] -> length (rng_choice w seed k pop size) = size;
  rng_choice_in : forall seed k pop size z,
    pop <> [] -> z ∈ rng_choice w seed k pop size -> z ∈ pop;
  rng_choice_distinct_length : forall seed k p size,
    (size <= p)%nat -> length (rng_choice_distinct w seed k p size) = size;
  rng_choice_distinct_NoDup : forall seed k p size,
    (size <= p)%nat -> NoDup (rng_choice_distinct w seed k p size);
  rng_choice_distinct_in : forall seed k p size j,
    (size <= p)%nat -> j ∈ rng_choice_distinct w seed k p size -> (j < p)%nat;
  glm_sample_coef : forall g n p k fam coef,
    data_coef_ (glm_sample w g n p k fam coef) = coef
}.

(** A world to run the model in: every choice takes the head of the
    population or the first indices, the data are zero, abess selects
    nothing, the solver returns zeros, the clock counts its readings. *)
Definition quiet_world : world := {|
  rng_choice := fun _ _ pop size => repeat (hd 1%Z pop) size;
  rng_choice_distinct := fun _ _ _ size => seq 0 size;
  glm_sample := fun _ n p _ _ coef =>
    {| data_x := repeat (repeat 0 p) n; data_y := repeat 0 n; data_coef_ := coef |};
  abess_fit := fun _ _ _ _ => [];
  scope_solve := fun p _ _ _ => repeat 0 p;
  clock := INR
|}.

Inductive error := ZeroDivisionError | ValueError.

Inductive result (A : Type) :=
  | Ok (a : A)
  | Raise (e : error).
Arguments Ok {A} a.
Arguments Raise {A} e.

(** One row of [res]: Task, Model, Accuracy, Time. *)
Record row := {
  row_task : task;
  row_model : method;
  row_accuracy : R;
  row_time : R
}.

Record bench_state := {
  res : list row;          (* the DataFrame res *)
  rng : nat * nat;         (* rng: its seed and the number of draws made *)
  glm_calls : nat;         (* calls of make_glm_data so far *)
  ticks : nat;             (* readings of time.time() so far *)
  log : list action        (* the actions so far *)
}.

Definition M (A : Type) : Type := bench_state -> result A * bench_state.

Definition ret {A} (a : A) : M A := fun st => (Ok a, st).
Definition raise {A} (e : error) : M A := fun st => (Raise e, st).
Definition bind {A B} (m : M A) (k : A -> M B) : M B :=
  fun st =>
    match m st with
    | (Ok a, st') => k a st'
    | (Raise e, st') => (Raise e, st')
    end.

Notation "x <- m ;; k" := (bind m (fun x => k))
  (at level 100, m at next level, right associativity).
Notation "m ;;; k" := (bind m (fun _ => k))
  (at level 100, right associativity).

(** [for a in l: body(a)], with a value carried from one pass to the next *)
Fixpoint for_each {A B} (l : list A) (body : B -> A -> M B) (b : B) : M B :=
  match l with
  | [] => ret b
  | a :: l' => b' <- body b a ;; for_each l' body b'
  end.

(** [res.loc[len(res)] = r] *)
Definition append_row (r : row) : M unit := fun st =>
  (Ok tt, {| res := res st ++ [r]; rng := rng st; glm_calls := glm_calls st;
             ticks := ticks st; log := log st |}).

Definition new_frame : M unit := fun st =>
  (Ok tt, {| res := []; rng := rng st; glm_calls := glm_calls st;
             ticks := ticks st; log := log st |}).

Definition emit (a : action) : M unit := fun st =>
  (Ok tt, {| res := res st; rng := rng st; glm_calls := glm_calls st;
             ticks := ticks st; log := log st ++ [a] |}).

(** [time.time()] *)
Definition time (w : world) : M R := fun st =>
  (Ok (clock w (ticks st)),
   {| res := res st; rng := rng st; glm_calls := glm_calls st;
      ticks := S (ticks st); log := log st |}).

(** [rng = np.random.default_rng(seed)] *)
Definition default_rng (seed : nat) : M unit := fun st =>
  (Ok tt, {| res := res st; rng := (seed, O); glm_calls := glm_calls st;
             ticks := ticks st; log := log st |}).

Definition rng_advance : M (nat * nat) := fun st =>
  (Ok (rng st),
   {| res := res st; rng := (fst (rng st), S (snd (rng st)));
      glm_calls := glm_calls st; ticks := ticks st; log := log st |}).

(** [rng.choice(population, size=size)] *)
Definition choice (w : world) (population : list Z) (size : nat) : M (list Z) :=
  g <- rng_advance ;;
  ret (rng_choice w (fst g) (snd g) population size).

(** [rng.choice(np.arange(p), size=size, replace=False)]: NumPy raises
    ValueError when the sample is larger than the population. *)
Definition choice_distinct (w : world) (p size : nat) : M (list nat) :=
  g <- rng_advance ;;
  if (size <=? p)%nat then ret (rng_choice_distinct w (fst g) (snd g) p size)
  else raise ValueError.

(** [make_glm_data(n=n, p=p, k=k, family=family, coef_=coef)] *)
Definition make_glm_data (w : world) (n p k : nat) (fam : family) (coef : vec)
    : M glm_data := fun st =>
  (Ok (glm_sample w (glm_calls st) n p k fam coef),
   {| res := res st; rng := rng st; glm_calls := S (glm_calls st);
      ticks := ticks st; log := log st ++ [Simulate Sim.make_glm_data] |}).

(** [a / s] for an integer [a] and the integer [s] *)
Definition true_divide (a s : nat) : M R :=
  if (s =? 0)%nat then raise ZeroDivisionError else ret (INR a / INR s).

(** [np.zeros(p)] *)
Definition zeros (p : nat) : vec := repeat 0 p.

(** [a[idx] = values], in place *)
Definition assign_at (idx : list nat) (values : vec) (a : vec) : vec :=
  foldl (fun a jv => <[fst jv := snd jv]> a) a (zip idx values).

#[global] Instance R_eq_dec : EqDecision R := Req_dec_T.

(** [np.nonzero(v)[0]] *)
Fixpoint nonzero_from (k : nat) (v : vec) : list nat :=
  match v with
  | [] => []
  | a :: v' =>
      if decide (a = 0) then nonzero_from (S k) v'
      else k :: nonzero_from (S k) v'
  end.
Definition nonzero (v : vec) : list nat := nonzero_from 0 v.

(** [len(set(a) & set(b))] *)
Definition common (a b : list nat) : nat :=
  size ((list_to_set a : gset nat) ∩ list_to_set b).

Definition family_of (t : task) : family :=
  match t with Linear => gaussian | NonNeg => gaussian | Logistic => binomial end.
Definition model_of (t : task) : abess_model :=
  match t with
  | Linear => LinearRegression | NonNeg => LinearRegression
  | Logistic => LogisticRegression
  end.
Definition signs_of (t : task) : list Z :=
  match t with Linear => [1; -1] | NonNeg => [1] | Logistic => [1; -1] end%Z.

(** The body of [for task in ['Linear', 'Non-Neg', 'Logistic']], carrying
    the array [real_coef] that each pass updates in place. *)
Definition task_pass (w : world) (n p s : nat) (true_support_set : list nat)
    (real_coef : vec) (t : task) : M vec :=
  magnitude <- choice w [1; 2; 3]%Z s ;;
  sign <- choice w (signs_of t) s ;;
  let real_coef := assign_at true_support_set (of_ints (zmul magnitude sign)) real_coef in
  data <- make_glm_data w n p s (family_of t) real_coef ;;
  emit (DefineLoss (Loss.objective t)) ;;;
  emit (Construct p (Level s) []) ;;;
  let X := data_x data in
  let y := data_y data in
  (* abess *)
  t_begin <- time w ;;
  let coef_ := abess_fit w (model_of t) s X y in
  t_end <- time w ;;
  let t_abess := t_end - t_begin in
  acc_abess <- true_divide (common (nonzero coef_) true_support_set) s ;;
  append_row {| row_task := t; row_model := abess;
                row_accuracy := acc_abess; row_time := t_abess |} ;;;
  (* skscope *)
  t_begin <- time w ;;
  emit (Solve (Loss.objective t) p true) ;;;
  let params := scope_solve w p s (objective t X y) true in
  emit (Read ReturnValue) ;;;
  t_end <- time w ;;
  let t_skscope := t_end - t_begin in
  acc_skscope <-
    true_divide (common (nonzero params) (nonzero (data_coef_ data))) s ;;
  append_row {| row_task := t; row_model := skscope;
                row_accuracy := acc_skscope; row_time := t_skscope |} ;;;
  ret real_coef.

(** The body of [for i in range(rep)]. *)
Definition rep_pass (w : world) (n p s : nat) (_ : unit) (i : nat) : M unit :=
  default_rng i ;;;
  true_support_set <- choice_distinct w p s ;;
  let real_coef := zeros p in
  for_each [Linear; NonNeg; Logistic] (task_pass w n p s true_support_set) real_coef ;;;
  ret tt.

(** [test_time(n, p, s, random_state, rep)].  [random_state] is not read.
    The function prints a header, fills [res], then groups it by task and
    model and prints the table of means and standard deviations. *)
Definition test_time (w : world) (n p s : nat) (random_state : option nat)
    (rep : nat) : M unit :=
  emit (Report Other) ;;;
  new_frame ;;;
  for_each (seq 0 rep) (rep_pass w n p s) tt ;;;
  emit (Report AccuracyTable).

(** ** The rows and actions of a run of [test_time], in closed form *)

(** The number of indices that are both in the estimated support and in the
    true support, divided by [s]. *)
Definition accuracy (estimate : vec) (true_support : list nat) (s : nat) : R :=
  INR (common (nonzero estimate) true_support) / INR s.

(** [true_support_set] of repetition [i]: the first draw of [default_rng(i)]. *)
Definition true_support (w : world) (p s i : nat) : list nat :=
  rng_choice_distinct w i 0 p s.

(** [real_coef] after the assignment of a pass whose two draws are number [k]
    and [k + 1] of the generator seeded with [i]. *)
Definition drawn_coef (w : world) (p s i k : nat) (t : task) (prev : vec) : vec :=
  assign_at (true_support w p s i)
    (of_ints (zmul (rng_choice w i k [1; 2; 3]%Z s)
                   (rng_choice w i (S k) (signs_of t) s)))
    prev.

Definition task_number (t : task) : nat :=
  match t with Linear => 0 | NonNeg => 1 | Logistic => 2 end.

(** [real_coef] as passed to [make_glm_data] for task [t] of repetition [i]. *)
Definition coef_for (w : world) (p s i : nat) (t : task) : vec :=
  let c1 := drawn_coef w p s i 1 Linear (zeros p) in
  let c2 := drawn_coef w p s i 3 NonNeg c1 in
  let c3 := drawn_coef w p s i 5 Logistic c2 in
  match t with Linear => c1 | NonNeg => c2 | Logistic => c3 end.

(** The dataset generated for task [t] of repetition [i], when [g] calls of
    [make_glm_data] precede the run. *)
Definition generated (w : world) (n p s g i : nat) (t : task) : glm_data :=
  glm_sample w (g + 3 * i + task_number t) n p s (family_of t) (coef_for w p s i t).

(** The two rows of one pass: abess fitted on [data], skscope solving the
    objective that closes over the same [data], each scored against
    [against_abess] and [against_skscope]; [c] readings of the clock precede. *)
Definition scored (w : world) (p s : nat) (t : task) (data : glm_data)
    (against_abess against_skscope : list nat) (c : nat) : list row :=
  [ {| row_task := t; row_model := abess;
       row_accuracy :=
         accuracy (abess_fit w (model_of t) s (data_x data) (data_y data))
                  against_abess s;
       row_time := clock w (S c) - clock w c |};
    {| row_task := t; row_model := skscope;
       row_accuracy :=
         accuracy (scope_solve w p s (objective t (data_x data) (data_y data)) true)
                  against_skscope s;
       row_time := clock w (S (S (S c))) - clock w (S (S c)) |} ].

Definition task_rows (w : world) (n p s g c i : nat) (t : task) : list row :=
  let data := generated w n p s g i t in
  scored w p s t data (true_support w p s i) (nonzero (data_coef_ data))
         (c + 12 * i + 4 * task_number t).

Definition rep_rows (w : world) (n p s g c i : nat) : list row :=
  task_rows w n p s g c i Linear ++ task_rows w n p s g c i NonNeg
  ++ task_rows w n p s g c i Logistic.

Definition task_actions (p s : nat) (t : task) : list action :=
  [ Simulate Sim.make_glm_data; DefineLoss (Loss.objective t);
    Construct p (Level s) []; Solve (Loss.objective t) p true; Read ReturnValue ].

Definition rep_actions (p s : nat) : list action :=
  task_actions p s Linear ++ task_actions p s NonNeg ++ task_actions p s Logistic.

(** ** The notebooks, as sequences of actions

    One entry per statement of a code cell that simulates data, defines a
    loss, touches the solver or prints; in the order of the cells. *)

#[global] Instance task_eq_dec : EqDecision task.
Proof. solve_decision. Defined.
#[global] Instance sim_eq_dec : EqDecision Sim.t.
Proof. solve_decision. Defined.
#[global] Instance loss_eq_dec : EqDecision Loss.t.
Proof. solve_decision. Defined.
#[global] Instance sparsity_eq_dec : EqDecision sparsity.
Proof. solve_decision. Defined.
#[global] Instance readback_eq_dec : EqDecision readback.
Proof. solve_decision. Defined.
#[global] Instance source_eq_dec : EqDecision source.
Proof. solve_decision. Defined.
#[global] Instance shown_eq_dec : EqDecision shown.
Proof. solve_decision. Defined.
#[global] Instance action_eq_dec : EqDecision action.
Proof. solve_decision. Defined.

(** The state in which the notebook first calls [test_time]. *)
Definition fresh_state : bench_state :=
  {| res := []; rng := (O, O); glm_calls := O; ticks := O; log := [ImportSolver] |}.

Module Gallery.

(** linear-regression.ipynb, first notebook: linear regression without and
    with an intercept.  [ols_loss] reads the global [X], which the second
    part rebinds to [np.hstack((np.ones((n, 1)), X))], of p + 1 columns. *)
Definition linear_regression : list action :=
  let n := 150%nat in
  let p := 30%nat in
  [ ImportSolver;
    Simulate Sim.rng_normal;        (* X = rng.normal(0, 1, (n, p)); y = X @ beta + rng.normal(0, 0.1, n) *)
    DefineLoss Loss.ols_loss;
    Construct p (Levels 1 10) ["sample_size"; "ic_method"];
    Solve Loss.ols_loss p true;     (* params_scope = solver.solve(ols_loss, jit=True) *)
    Read ReturnValue;
    Report SquaredError;            (* print('skscope: ', np.sum((params_scope-beta) ** 2).round(4)) *)
    Report Other;                   (* the same for the lasso *)
    Simulate Sim.rng_normal;        (* y = X @ beta + rng.normal(1, 0.1, n) *)
    Construct (p + 1) (Levels 1 11) ["sample_size"; "ic_method"; "preselect"];
    Solve Loss.ols_loss (p + 1) true;   (* scope_estimate = solver.solve(ols_loss, jit=True) *)
    Read ReturnValue;               (* scope_estimate[0], scope_estimate[1:] *)
    Report SquaredError;            (* print('scope: ', np.sum((params_scope-beta) ** 2).round(4)) *)
    Report Other;
    Report InterceptError;          (* print('scope: ', np.abs(intercept_scope - 1).round(4)) *)
    Report Other ].

(** linear-regression.ipynb, second notebook: multinomial logistic
    regression. *)
Definition multinomial_regression : list action :=
  let p := 20%nat in
  let k := 5%nat in
  let m := 3%nat in
  [ ImportSolver;
    Simulate Sim.make_multivariate_glm_data;
    Report (Support Truth);         (* print(..., set(np.nonzero(data.coef_)[0])) *)
    Report (Coefficients Truth);    (* print(..., data.coef_) *)
    DefineLoss Loss.multinomial_regression_loss;
    Construct (p * m) (Level k) ["group"];
    Solve Loss.multinomial_regression_loss (p * m) true;
    Read ReturnValue;               (* params = solver.solve(...) *)
    Read ParamsAttribute;
    Report (Coefficients Estimate); (* print(solver.params.reshape((p, m))) *)
    Report (Support Truth);
    Read ParamsAttribute;
    Report (Support Estimate);
    Report (Coefficients Truth);    (* print("True parameter:\n", data.coef_) *)
    Read ParamsAttribute;
    Report (Coefficients Estimate) ].

(** competing-risk-model.ipynb *)
Definition competing_risk_model : list action :=
  let p := 10%nat in
  let k := 2%nat in
  [ Simulate Sim.make_data;         (* x,y,delta = make_data(n,beta) *)
    Report Other;                   (* the censoring rate, printed by make_data *)
    Report Other;                   (* Kaplan-Meier curves *)
    Report Other;                   (* log-rank test *)
    ImportSolver;
    DefineLoss Loss.competing_risk_objective;
    Construct p (Level k) [];
    Solve Loss.competing_risk_objective p true;
    Read GetResult;                 (* solver.get_result()["params"] *)
    Report (Coefficients Estimate);
    Read GetResult;                 (* solver.get_result()["objective_value"] *)
    Report (ObjectiveValue Estimate);
    Report (Coefficients Truth);    (* print("True parameter:", beta, ...) *)
    Report (ObjectiveValue Truth) ].

(** multivariate-failure-time-model.ipynb *)
Definition multivariate_failure_time_model : list action :=
  let p := 10%nat in
  let k := 2%nat in
  [ Simulate Sim.multivariate_normal;   (* x = np.random.multivariate_normal(...) *)
    Simulate Sim.make_Clayton2_data;    (* y, delta = make_Clayton2_data(n, ...) *)
    Report Other;                   (* the censoring rates *)
    Report Other;                   (* Kaplan-Meier curves *)
    Report Other;                   (* log-rank test *)
    ImportSolver;
    DefineLoss Loss.multivariate_failure_objective;
    Construct p (Level k) [];
    Solve Loss.multivariate_failure_objective p true;
    Read GetResult;
    Report (Coefficients Estimate);
    Read GetResult;
    Report (ObjectiveValue Estimate);
    Report (Coefficients Truth);
    Report (ObjectiveValue Truth) ].

(** abess_compare.ipynb
<<
settings = [(500, 1000, 10), (2500, 5000, 50), (5000, 10000, 100)]
for setting in settings:
    n, p, s = setting
    res = test_time(n=n, p=p, s=s, rep=10)
>> *)
Definition settings : list (nat * nat * nat) :=
  [ (500, 1000, 10); (2500, 5000, 50); (5000, 10000, 100) ]%nat.

Definition abess_compare (w : world) : list action :=
  log (snd (for_each settings
              (fun _ setting =>
                 let '(n, p, s) := setting in
                 test_time w n p s None 10)
              tt fresh_state)).

Definition notebooks (w : world) : list (list action) :=
  [ linear_regression; multinomial_regression; competing_risk_model;
    multivariate_failure_time_model; abess_compare w ].

(** *** The pipeline of a notebook *)

(** The simulators the pipeline names. *)
Definition named_simulator (g : Sim.t) : bool :=
  match g with
  | Sim.rng_normal | Sim.make_multivariate_glm_data | Sim.make_data
  | Sim.make_Clayton2_data | Sim.make_glm_data => true
  | Sim.multivariate_normal => false
  end.

(** (a), (b), (c) and a print: data from a named simulator, then a loss,
    then that loss handed to [solve] of the imported solver, then [last]
    printed. *)
Definition simulates_defines_solves (nb : list action) (last : shown) : Prop :=
  ImportSolver ∈ nb /\
  exists g l d,
    named_simulator g = true /\
    [Simulate g; DefineLoss l; Solve l d true; Report last] `sublist_of` nb.

(** (d), to the letter: the estimated coefficients are printed after the
    solve, and the true coefficients are printed. *)
Definition pipeline_as_stated (nb : list action) : Prop :=
  simulates_defines_solves nb (Coefficients Estimate) /\
  Report (Coefficients Truth) ∈ nb.

(** A printed statistic that sets the estimate against the ground truth:
    the squared error of the coefficients, or the table of support-recovery
    accuracies. *)
Definition compares_with_truth (what : shown) : bool :=
  match what with
  | SquaredError | AccuracyTable => true
  | _ => false
  end.

Definition pipeline (nb : list action) : Prop :=
  pipeline_as_stated nb \/
  exists last, simulates_defines_solves nb last /\ compares_with_truth last = true.

(** *** The solver interface at the use sites *)

(** Where the solver object stands while a notebook runs. *)
Inductive solver_stage :=
  | NoSolver
  | Constructed (dimension : nat)
  | Solved.

(** One action against the interface: [solve] follows a construction whose
    first argument is the number of parameters of the loss, the loss is one
    defined before, the estimate is read after [solve], and nothing else of
    the solver is used.  [None] when the action leaves the interface. *)
Definition interface_step (defined : list Loss.t) (stage : solver_stage)
    (a : action) : option (list Loss.t * solver_stage) :=
  match a with
  | DefineLoss l => Some (l :: defined, stage)
  | Construct d _ _ => Some (defined, Constructed d)
  | Solve l d' _ =>
      match stage with
      | Constructed d =>
          if bool_decide (d = d' /\ l ∈ defined) then Some (defined, Solved)
          else None
      | _ => None
      end
  | Read _ =>
      match stage with
      | Solved => Some (defined, stage)
      | _ => None
      end
  | UseOther _ => None
  | _ => Some (defined, stage)
  end.

Fixpoint interface_run (defined : list Loss.t) (stage : solver_stage)
    (nb : list action) : bool :=
  match nb with
  | [] => true
  | a :: nb' =>
      match interface_step defined stage a with
      | Some (defined', stage') => interface_run defined' stage' nb'
      | None => false
      end
  end.

Definition uses_interface (nb : list action) : Prop :=
  interface_run [] NoSolver nb = true.

(** *** jit *)

Definition solve_is_jit (a : action) : Prop :=
  match a with
  | Solve _ _ jit => jit = true
  | _ => True
  end.

Definition every_loss_solved_with_jit (nb : list action) : Prop :=
  forall l, DefineLoss l ∈ nb -> exists d, Solve l d true ∈ nb.

(** The two properties as checks that run. *)
Definition solve_is_jitb (a : action) : bool :=
  match a with
  | Solve _ _ jit => jit
  | _ => true
  end.

Definition solves_with_jit (nb : list action) (l : Loss.t) : bool :=
  existsb (fun a => match a with
                    | Solve l' _ true => bool_decide (l' = l)
                    | _ => false
                    end) nb.

Definition every_loss_solved_with_jitb (nb : list action) : bool :=
  forallb (fun a => match a with
                    | DefineLoss l => solves_with_jit nb l
                    | _ => true
                    end) nb.

End Gallery.

(** ** Definitions used by the statements and their proofs *)

(** [real_coef] is zero outside [true_support_set]. *)
Definition supported_on (T : list nat) (v : vec) : Prop :=
  forall j, j ∉ T -> at1 v j = 0.

(** The labels of the six rows of one repetition. *)
Definition rep_labels : list (task * method) :=
  [ (Linear, abess); (Linear, skscope); (NonNeg, abess); (NonNeg, skscope);
    (Logistic, abess); (Logistic, skscope) ].

Definition label (r : row) : task * method := (row_task r, row_model r).

(** Whatever the outcome, a computation only adds actions that satisfy [P]
    to the log. *)
Definition appends {A} (P : action -> Prop) (m : M A) : Prop :=
  forall st, exists l, log (snd (m st)) = log st ++ l /\ Forall P l.

(** The actions of one call of [test_time] with [rep = 10]. *)
Definition test_time_actions (p s : nat) : list action :=
  Report Other :: concat (map (fun _ => rep_actions p s) (seq 0 10))
  ++ [Report AccuracyTable].

(** A check for [sublist_of] that runs: match the first occurrence. *)
Fixpoint is_sublist {A} `{EqDecision A} (l1 l2 : list A) : bool :=
  match l2 with
  | [] => match l1 with [] => true | _ => false end
  | b :: l2' =>
      match l1 with
      | [] => true
      | a :: l1' =>
          if bool_decide (a = b) then is_sublist l1' l2' else is_sublist l1 l2'
      end
  end.

(** A NumPy to run the simulators in.  It is right at the special values
    and where a power overflows; inside the finite range it is coarse (the
    logarithm of a positive number is 0, exponentials and powers are 1),
    and its matrix product accumulates in index order. *)
Definition sample_numpy : numpy := {|
  np_log := fun a =>
    match a with
    | S754_infinity false => pinf
    | S754_zero _ => ninf
    | S754_finite false _ _ => fzero
    | _ => nan
    end;
  np_exp := fun a =>
    match a with
    | S754_nan => nan
    | S754_infinity false => pinf
    | S754_infinity true => fzero
    | _ => F64.one
    end;
  np_power := fun a b =>
    if Rle_dec (Rpower 2 1024) (Rpower (F2R a) (F2R b)) then pinf else F64.one;
  np_matmul := fun x v =>
    map (fun row =>
           foldl (fun acc ab => F64.add acc (F64.mul (fst ab) (snd ab)))
                 fzero (zip row v))
        x
|}.

(** A JAX to run the objectives in: its exponential is 0.0 where the exact
    value is below 2^-150 and, coarsely, 1.0 elsewhere. *)
Definition sample_jax : jax := {|
  jnp_exp := fun a =>
    if Rlt_dec (exp (F2R a)) (Rpower 2 (-150)) then fzero else F32.of_Z 1
|}.

(** Realisations of the draws, to run the simulators on. *)
Definition sample_draws : make_data_draws := {|
  draw_x := [[F64.of_Z 1]; [F64.of_Z (-1)]];
  draw_case := [1; 0]%Z;
  draw_u := [F64.scaled 1 (-1); F64.scaled 1 (-2)];
  draw_exponential := [F64.of_Z 1; F64.of_Z 3];
  draw_ctime := [F64.of_Z 2; F64.of_Z 1]
|}.

Definition sample_clayton_draws : clayton_draws := {|
  draw_u1 := [F64.scaled 1 (-1); F64.scaled 1 (-2)];
  draw_u2 := [F64.scaled 1 (-2); F64.scaled 1 (-1)];
  draw_ctime1 := [F64.of_Z 1; F64.of_Z 2];
  draw_ctime2 := [F64.of_Z 3; F64.of_Z 4]
|}.

(** One observation whose second uniform draw is 1 - 2^-30. *)
Definition overflow_draws : clayton_draws := {|
  draw_u1 := [F64.scaled 1 (-1)];
  draw_u2 := [F64.sub F64.one (F64.scaled 1 (-30))];
  draw_ctime1 := [F64.of_Z 1];
  draw_ctime2 := [F64.of_Z 1]
|}.

(** * Further code of the notebooks *)

(** ** linear-regression.ipynb: the data and the intercept column

<<
beta = np.zeros(p)
beta[:3] = [1, 2, 3]
y = X @ beta + rng.normal(0, 0.1, n)
...
X = np.hstack((np.ones((n, 1)), X))
scope_estimate = solver.solve(ols_loss, jit=True)
intercept_scope = scope_estimate[0]
params_scope = scope_estimate[1:]
>> *)

(** [beta = np.zeros(p); beta[:3] = [1, 2, 3]]: NumPy raises when [p < 3],
    the slice being shorter than the list. *)
Definition linear_beta (p : nat) : option vec :=
  if (3 <=? p)%nat then Some ([1; 2; 3] ++ drop 3 (zeros p)) else None.

(** [y = X @ beta + noise] *)
Definition linear_response (X : matrix) (beta noise : vec) : vec :=
  vadd (matvec X beta) noise.

(** [np.ones((n, 1))] and [np.hstack((A, B))] for two matrices of [n] rows *)
Definition ones_column (n : nat) : matrix := repeat [1] n.
Definition hstack (A B : matrix) : matrix := zip_with app A B.

(** [X = np.hstack((np.ones((n, 1)), X))] *)
Definition with_intercept_column (n : nat) (X : matrix) : matrix :=
  hstack (ones_column n) X.

(** [scope_estimate[0]] and [scope_estimate[1:]] *)
Definition intercept_of (estimate : vec) : R := at1 estimate 0.
Definition slopes_of (estimate : vec) : vec := drop 1 estimate.

(** The mean squared error of the model with an intercept. *)
Definition mean_squared_error_intercept
    (n p : nat) (X : matrix) (y : vec) (b0 : R) (beta : vec) : R :=
  1 / INR n * Rsum n (fun i => (at1 y i - (b0 + matvec_at p X beta i)) ^ 2).

(** ** abess_compare.ipynb: the objective of the task 'Logistic' *)

(** [jnp.clip(t, -30, 30)] on one entry, the logistic function, and the
    averaged negative log-likelihood of Bernoulli responses whose success
    probability is the logistic function of the clipped linear predictor. *)
Definition clip30 (t : R) : R := Rmin (Rmax t (-30)) 30.
Definition logistic (t : R) : R := exp t / (1 + exp t).
Definition bernoulli_nll (n p : nat) (X : matrix) (y params : vec) : R :=
  1 / INR n *
  Rsum n (fun i =>
    let q := logistic (clip30 (matvec_at p X params i)) in
    - (at1 y i * ln q + (1 - at1 y i) * ln (1 - q))).

(** ** linear-regression.ipynb (second notebook): the groups, the reported variables *)

(** [group=[i for i in range(p) for j in range(m)]] *)
Definition group (p m : nat) : list nat :=
  flat_map (fun i => map (fun j => i) (seq 0 m)) (seq 0 p).

(** Python's [sum(delta)] over an integer array *)
Definition zsum (d : list Z) : Z := foldl Z.add 0%Z d.

(** [delta = (time < ctime) * 1; censoringrate = 1 - sum(delta) / n] *)
Definition censoringrate (n : nat) (time ctime : vec) : R :=
  let delta := times_one (lt_elem time ctime) in
  1 - IZR (zsum delta) / INR n.

(** [np.nonzero(M)[0]] for a two-dimensional [M]: the row index of every
    non-zero entry, in C order; the notebook prints it as a set. *)
Fixpoint nonzero_rows_from (k : nat) (M : matrix) : list nat :=
  match M with
  | [] => []
  | row :: M' => map (fun _ => k) (nonzero row) ++ nonzero_rows_from (S k) M'
  end.
Definition nonzero_rows (M : matrix) : list nat := nonzero_rows_from 0 M.

(** ** What the benchmark is claimed to record

    Following the claim's words.  The number of indices that are both in
    the estimated support, where the estimated coefficient is not zero, and
    in the true support: *)
Definition support_hits (estimate : vec) (T : list nat) : nat :=
  length (filter (fun j => at1 estimate j <> 0 /\ j ∈ T) (seq 0 (length estimate))).

(** The call returns with two rows per task and repetition.  In repetition
    [i] and for task [t], abess is fitted on the generated dataset and
    skscope solves the objective over the same dataset; the accuracy of
    each row is the number of hits of its estimate in [true_support_set]
    divided by [s]; [true_support_set] holds [s] distinct indices, and the
    non-zero indices of [data.coef_] are the same indices. *)
Definition scored_as_claimed (w : world) (n p s : nat) (random_state : option nat)
    (rep : nat) (st : bench_state) : Prop :=
  exists st',
    test_time w n p s random_state rep st = (Ok tt, st') /\
    length (res st') = (6 * rep)%nat /\
    forall i t, (i < rep)%nat ->
      let T := true_support w p s i in
      let data := generated w n p s (glm_calls st) i t in
      let by_abess := abess_fit w (model_of t) s (data_x data) (data_y data) in
      let by_skscope :=
        scope_solve w p s (objective t (data_x data) (data_y data)) true in
      exists row_abess row_skscope,
        res st' !! (6 * i + 2 * task_number t)%nat = Some row_abess /\
        res st' !! (6 * i + 2 * task_number t + 1)%nat = Some row_skscope /\
        label row_abess = (t, abess) /\
        label row_skscope = (t, skscope) /\
        row_accuracy row_abess = INR (support_hits by_abess T) / INR s /\
        row_accuracy row_skscope = INR (support_hits by_skscope T) / INR s /\
        NoDup T /\ length T = s /\
        forall j, j ∈ nonzero (data_coef_ data) <-> j ∈ T.

(** * Lemmas *)

(** ** Sums of lists as indexed sums *)

Lemma Rsum_ext n f g :
  (forall i, (i < n)%nat -> f i = g i) -> Rsum n f = Rsum n g.
Proof.
  induction n as [|n IH]; intros E; simpl; [reflexivity|].
  rewrite IH by (intros; apply E; lia).
  rewrite (E n) by lia. reflexivity.
Qed.

Lemma Rsum_shift n f : Rsum (S n) f = f O + Rsum n (fun i => f (S i)).
Proof.
  induction n as [|n IH]; simpl in *; [lra|].
  rewrite IH. lra.
Qed.

Lemma vsum_Rsum v : vsum v = Rsum (length v) (at1 v).
Proof.
  induction v as [|a v IH]; [reflexivity|].
  change (length (a :: v)) with (S (length v)).
  rewrite Rsum_shift. simpl. rewrite IH. reflexivity.
Qed.

Lemma at1_zip_with (f : R -> R -> R) a b i :
  (i < length a)%nat -> (i < length b)%nat ->
  at1 (zip_with f a b) i = f (at1 a i) (at1 b i).
Proof.
  unfold at1. revert b i.
  induction a as [|x a IH]; intros [|z b] i Ha Hb; simpl in *; try lia.
  destruct i; [reflexivity|]. apply IH; lia.
Qed.

Lemma at1_map (f : R -> R) a i :
  (i < length a)%nat -> at1 (map f a) i = f (at1 a i).
Proof.
  unfold at1. revert i.
  induction a as [|x a IH]; intros i Ha; simpl in *; [lia|].
  destruct i; [reflexivity|]. apply IH; lia.
Qed.

Lemma zip_with_length_same {A B C} (f : A -> B -> C) a b :
  length a = length b -> length (zip_with f a b) = length a.
Proof. intros E. rewrite length_zip_with. lia. Qed.

Lemma dot_Rsum a b p :
  length a = p -> length b = p ->
  dot a b = Rsum p (fun j => at1 a j * at1 b j).
Proof.
  intros Ha Hb. unfold dot, vmul.
  rewrite vsum_Rsum, zip_with_length_same by congruence.
  rewrite Ha. apply Rsum_ext. intros i Hi.
  apply at1_zip_with; lia.
Qed.

Lemma shape_row {A} (X : list (list A)) n p i :
  shape X n p -> (i < n)%nat -> length (nth i X []) = p.
Proof.
  intros [Hn Hrows] Hi.
  rewrite Forall_forall in Hrows. apply Hrows.
  apply list_elem_of_In, nth_In. lia.
Qed.

Lemma matvec_length X v : length (matvec X v) = length X.
Proof. apply length_map. Qed.

Lemma at1_matvec X v n p i :
  shape X n p -> length v = p -> (i < n)%nat ->
  at1 (matvec X v) i = matvec_at p X v i.
Proof.
  intros HX Hv Hi. unfold at1, matvec, matvec_at, at2.
  rewrite (nth_indep _ 0 (dot [] v)) by (rewrite length_map; destruct HX; lia).
  rewrite (map_nth (fun row => dot row v)).
  apply dot_Rsum; [eapply shape_row; eauto | exact Hv].
Qed.

(** [ols_loss] is the mean squared error. *)
Lemma ols_loss_eq X y params n p :
  shape X n p -> length y = n -> length params = p ->
  ols_loss X y params = mean_squared_error n p X y params.
Proof.
  intros HX Hy Hp. unfold ols_loss, mean_squared_error, mean, vsquare, vsub.
  assert (Hl : length (zip_with Rminus y (matvec X params)) = n).
  { rewrite zip_with_length_same; [exact Hy|].
    rewrite matvec_length. destruct HX. congruence. }
  rewrite vsum_Rsum, length_map, Hl.
  unfold Rdiv. rewrite Rmult_1_l, Rmult_comm. f_equal.
  apply Rsum_ext. intros i Hi.
  rewrite at1_map by lia.
  rewrite at1_zip_with by (rewrite ?matvec_length; destruct HX; lia).
  rewrite (at1_matvec X params n p) by assumption.
  reflexivity.
Qed.

(** ** Entries of mapped and zipped arrays *)

Lemma nth_map_in {A B} (f : A -> B) l i da db :
  (i < length l)%nat -> nth i (map f l) db = f (nth i l da).
Proof.
  revert i. induction l as [|x l IH]; intros i Hi; simpl in *; [lia|].
  destruct i; [reflexivity|]. apply IH; lia.
Qed.

Lemma nth_zip_with_in {A B C} (f : A -> B -> C) a b i da db dc :
  (i < length a)%nat -> (i < length b)%nat ->
  nth i (zip_with f a b) dc = f (nth i a da) (nth i b db).
Proof.
  revert b i.
  induction a as [|x a IH]; intros [|z b] i Ha Hb; simpl in *; try lia.
  destruct i; [reflexivity|]. apply IH; lia.
Qed.

Lemma nth_seq_in i n : (i < n)%nat -> nth i (seq 0 n) O = i.
Proof. intros Hi. rewrite seq_nth by lia. reflexivity. Qed.

Lemma mean_Rsum v n :
  length v = n -> mean v = 1 / INR n * Rsum n (at1 v).
Proof.
  intros <-. unfold mean. rewrite vsum_Rsum. unfold Rdiv. lra.
Qed.

(** ** The multinomial loss *)

Lemma at2_reshape p m params a k :
  (a < p)%nat -> (k < m)%nat ->
  at2 (reshape p m params) a k = at1 params (a * m + k).
Proof.
  intros Ha Hk. unfold at2, at1, reshape.
  rewrite (nth_map_in _ _ _ O) by (rewrite length_seq; lia).
  rewrite nth_seq_in by lia.
  rewrite !nth_lookup, lookup_take_lt, lookup_drop by lia.
  reflexivity.
Qed.

Lemma reshape_length p m params : length (reshape p m params) = p.
Proof. unfold reshape. rewrite length_map, length_seq. reflexivity. Qed.

Lemma at1_column k B a :
  (a < length B)%nat -> at1 (column k B) a = at2 B a k.
Proof.
  intros Ha. unfold at1, column, at2.
  apply (nth_map_in (fun row => nth k row 0)). exact Ha.
Qed.

Lemma at2_matmul n p m X B i k :
  shape X n p -> length B = p -> (i < n)%nat -> (k < m)%nat ->
  at2 (matmul m X B) i k = Rsum p (fun a => at2 X i a * at2 B a k).
Proof.
  intros HX HB Hi Hk. unfold at2 at 1. unfold matmul.
  rewrite (nth_map_in _ _ _ []) by (destruct HX as [-> _]; exact Hi).
  rewrite (nth_map_in _ _ _ O) by (rewrite length_seq; exact Hk).
  rewrite nth_seq_in by exact Hk.
  rewrite (dot_Rsum _ _ p);
    [| eapply shape_row; eauto | unfold column; rewrite length_map; exact HB].
  apply Rsum_ext. intros a Ha.
  rewrite at1_column by lia. reflexivity.
Qed.

Lemma matmul_shape n p m X B :
  shape X n p -> shape (matmul m X B) n m.
Proof.
  intros [Hn _]. split.
  - unfold matmul. rewrite length_map. exact Hn.
  - unfold matmul. apply Forall_forall. intros row Hrow.
    apply list_elem_of_In, in_map_iff in Hrow. destruct Hrow as (r & <- & _).
    rewrite length_map, length_seq. reflexivity.
Qed.

(** The softmax of a matrix of logits, row by row. *)
Lemma softmax_rows (L : matrix) :
  mdiv_column (mexp L) (sum_axis1_keepdims (mexp L)) =
  map (fun row => map (fun e => e / vsum (map exp row)) (map exp row)) L.
Proof.
  unfold mdiv_column, sum_axis1_keepdims, mexp.
  induction L as [|row L IH]; [reflexivity|].
  simpl. rewrite IH. reflexivity.
Qed.

(** C4: [multinomial_regression_loss] is the averaged negative
    log-likelihood of the softmax model with [B = params.reshape((p, m))]. *)
Theorem multinomial_regression_loss_softmax_nll n p m X y params :
  shape X n p -> shape y n m -> length params = (p * m)%nat ->
  multinomial_regression_loss p m X y params = softmax_nll n p m X y params.
Proof.
  intros HX Hy Hp.
  unfold multinomial_regression_loss, softmax_nll.
  set (L := matmul m X (reshape p m params)).
  assert (HL : shape L n m) by (eapply matmul_shape; eauto).
  rewrite softmax_rows.
  assert (Hlen : length (sum_axis1 (mmul y (mlog
            (map (fun row => map (fun e => e / vsum (map exp row)) (map exp row)) L)))) = n).
  { unfold sum_axis1, mmul, mlog. rewrite length_map, length_zip_with, !length_map.
    pose proof (proj1 Hy). pose proof (proj1 HL). lia. }
  rewrite (mean_Rsum _ n Hlen).
  rewrite Ropp_mult_distr_l. f_equal.
  apply Rsum_ext. intros i Hi.
  unfold at1 at 1. unfold sum_axis1, mmul, mlog.
  rewrite (nth_map_in _ _ _ []) by
    (rewrite length_zip_with, !length_map; pose proof (proj1 Hy); pose proof (proj1 HL); lia).
  rewrite (nth_zip_with_in _ _ _ _ [] [])
    by (rewrite ?length_map; pose proof (proj1 Hy); pose proof (proj1 HL); lia).
  rewrite (nth_map_in _ _ _ []) by (rewrite length_map; pose proof (proj1 HL); lia).
  rewrite (nth_map_in _ _ _ []) by (pose proof (proj1 HL); lia).
  assert (Hrow : length (nth i L []) = m) by (eapply shape_row; eauto).
  assert (Hyrow : length (nth i y []) = m) by (eapply shape_row; eauto).
  unfold vmul. rewrite vsum_Rsum, zip_with_length_same, Hyrow
    by (rewrite !length_map; congruence).
  apply Rsum_ext. intros k Hk.
  rewrite at1_zip_with by (rewrite ?length_map; lia).
  rewrite !at1_map by (rewrite ?length_map; lia).
  assert (Hat : forall j, (j < m)%nat ->
            at1 (nth i L []) j = logit_at p m X params i j).
  { intros j Hj. change (at1 (nth i L []) j) with (at2 L i j).
    unfold L. rewrite (at2_matmul n p) by (auto using reshape_length).
    unfold logit_at. apply Rsum_ext. intros a Ha.
    rewrite at2_reshape by lia. reflexivity. }
  rewrite Hat by exact Hk.
  rewrite vsum_Rsum, length_map, Hrow.
  f_equal. f_equal. f_equal.
  apply Rsum_ext. intros j Hj.
  rewrite at1_map by lia. rewrite Hat by exact Hj. reflexivity.
Qed.

(** ** Linearity of indexed sums *)

Lemma Rsum_minus n f g :
  Rsum n f - Rsum n g = Rsum n (fun i => f i - g i).
Proof. induction n as [|n IH]; simpl; [lra|]. rewrite <- IH. lra. Qed.

Lemma Rsum_plus n f g :
  Rsum n f + Rsum n g = Rsum n (fun i => f i + g i).
Proof. induction n as [|n IH]; simpl; [lra|]. rewrite <- IH. lra. Qed.

Lemma Rsum_nonneg n f :
  (forall i, (i < n)%nat -> 0 <= f i) -> 0 <= Rsum n f.
Proof.
  induction n as [|n IH]; intros Hf; simpl; [lra|].
  assert (0 <= Rsum n f) by (apply IH; intros; apply Hf; lia).
  assert (0 <= f n) by (apply Hf; lia). lra.
Qed.

(** A sum of non-negative terms is at least any one of them. *)
Lemma Rsum_ge_term n f i :
  (forall j, (j < n)%nat -> 0 <= f j) -> (i < n)%nat -> f i <= Rsum n f.
Proof.
  induction n as [|n IH]; intros Hf Hi; [lia|]. simpl.
  assert (Hn : 0 <= f n) by (apply Hf; lia).
  destruct (decide (i = n)) as [->|Hne].
  - assert (0 <= Rsum n f) by (apply Rsum_nonneg; intros; apply Hf; lia). lra.
  - assert (f i <= Rsum n f) by (apply IH; [intros; apply Hf|]; lia). lra.
Qed.

(** ** The loop [for i in range(0, n): logsum = logsum.at[i].set(g(i))] *)

Lemma foldl_set_spec (g : nat -> R) (v : vec) k :
  (k <= length v)%nat ->
  length (foldl (fun acc i => <[i := g i]> acc) v (seq 0 k)) = length v /\
  forall i, (i < k)%nat ->
    at1 (foldl (fun acc i => <[i := g i]> acc) v (seq 0 k)) i = g i.
Proof.
  induction k as [|k IH]; intros Hk.
  - split; [reflexivity | intros; lia].
  - destruct IH as [Hlen Hat]; [lia|].
    rewrite seq_S, foldl_app. simpl. split.
    + rewrite length_insert. exact Hlen.
    + intros i Hi. unfold at1. rewrite nth_lookup.
      destruct (decide (i = k)) as [->|Hne].
      * rewrite list_lookup_insert_eq by (rewrite Hlen; lia). reflexivity.
      * rewrite list_lookup_insert_ne by congruence.
        rewrite <- nth_lookup. apply Hat. lia.
Qed.

Lemma foldl_pair_split {A B} (f1 : A -> nat -> A) (f2 : B -> nat -> B) a b l :
  foldl (fun '(u, v) i => (f1 u i, f2 v i)) (a, b) l = (foldl f1 a l, foldl f2 b l).
Proof.
  revert a b. induction l as [|i l IH]; intros a b; [reflexivity|].
  simpl. apply IH.
Qed.

(** ** Dot products against indicator arrays *)

Lemma dot_of_ints (w : list Z) (v : vec) n :
  length w = n -> length v = n ->
  dot (of_ints w) v = Rsum n (fun i => IZR (nth i w 0%Z) * at1 v i).
Proof.
  intros Hw Hv. unfold of_ints.
  rewrite (dot_Rsum _ _ n) by (rewrite ?length_map; assumption).
  apply Rsum_ext. intros i Hi. f_equal.
  apply (nth_map_in IZR). lia.
Qed.

Lemma dot_of_bools (mask : list bool) (v : vec) n :
  length mask = n -> length v = n ->
  dot (of_bools mask) v =
  Rsum n (fun i => (if nth i mask false then 1 else 0) * at1 v i).
Proof.
  intros Hw Hv. unfold of_bools.
  rewrite (dot_Rsum _ _ n) by (rewrite ?length_map; assumption).
  apply Rsum_ext. intros i Hi. f_equal.
  apply (nth_map_in (fun c : bool => if c then 1 else 0)). lia.
Qed.

Lemma Rgeb_decide a b : Rgeb a b = bool_decide (a >= b).
Proof. unfold Rgeb. destruct (Rge_dec a b); symmetry;
  [apply bool_decide_eq_true_2 | apply bool_decide_eq_false_2]; assumption. Qed.

Lemma Rleb_decide a b : Rleb a b = bool_decide (a <= b).
Proof. unfold Rleb. destruct (Rle_dec a b); symmetry;
  [apply bool_decide_eq_true_2 | apply bool_decide_eq_false_2]; assumption. Qed.

Lemma Rltb_decide a b : Rltb a b = bool_decide (a < b).
Proof. unfold Rltb. destruct (Rlt_dec a b); symmetry;
  [apply bool_decide_eq_true_2 | apply bool_decide_eq_false_2]; assumption. Qed.

Lemma column_length k (B : matrix) : length (column k B) = length B.
Proof. apply length_map. Qed.

Lemma nth_zcolumn k (D : zmatrix) i :
  (i < length D)%nat -> nth i (zcolumn k D) 0%Z = zat2 D i k.
Proof. intros Hi. unfold zcolumn, zat2. apply (nth_map_in (fun row => nth k row 0%Z)). exact Hi. Qed.

Lemma nth_ge_scalar v t j :
  (j < length v)%nat -> nth j (ge_scalar v t) false = bool_decide (at1 v j >= t).
Proof.
  intros Hj. unfold ge_scalar. rewrite (nth_map_in _ _ _ 0) by exact Hj.
  apply Rgeb_decide.
Qed.

Lemma nth_le_scalar v t j :
  (j < length v)%nat -> nth j (le_scalar v t) false = bool_decide (at1 v j <= t).
Proof.
  intros Hj. unfold le_scalar. rewrite (nth_map_in _ _ _ 0) by exact Hj.
  apply Rleb_decide.
Qed.

Lemma nth_eq_scalar d z j :
  (j < length d)%nat -> nth j (eq_scalar d z) false = bool_decide (nth j d 0%Z = z).
Proof.
  intros Hj. unfold eq_scalar. rewrite (nth_map_in _ _ _ 0%Z) by exact Hj.
  destruct (Z.eqb_spec (nth j d 0%Z) z); symmetry;
    [apply bool_decide_eq_true_2 | apply bool_decide_eq_false_2]; assumption.
Qed.

Lemma binary_at (D : zmatrix) n m i k :
  binary D -> shape D n m -> (i < n)%nat -> (k < m)%nat ->
  zat2 D i k = 0%Z \/ zat2 D i k = 1%Z.
Proof.
  intros HB HD Hi Hk. unfold zat2.
  assert (Hrow : length (nth i D []) = m) by (eapply shape_row; eauto).
  unfold binary in HB. rewrite Forall_forall in HB.
  assert (Hin : nth i D [] ∈ D)
    by (apply list_elem_of_In, nth_In; destruct HD; lia).
  specialize (HB _ Hin). rewrite Forall_forall in HB.
  apply HB, list_elem_of_In, nth_In. lia.
Qed.

(** ** The risk-set masks, entry by entry *)

Ltac mask_length :=
  unfold bor, band, ge_scalar, le_scalar, eq_scalar, times_one, of_bools, of_ints,
    zmul, column, zcolumn, zeros_like, matvec;
  repeat (rewrite length_zip_with || rewrite length_map); lia.

Lemma riskset_entry (y : matrix) (delta : zmatrix) n i j :
  length y = n -> length delta = n -> (j < n)%nat ->
  nth j (competing_risk_riskset y delta i) 0%Z =
  if decide (in_risk_set y delta i j) then 1%Z else 0%Z.
Proof.
  intros Hy Hd Hj. unfold competing_risk_riskset.
  unfold times_one at 1. rewrite (nth_map_in _ _ _ false) by mask_length.
  unfold bor at 1. rewrite (nth_zip_with_in _ _ _ _ false false) by mask_length.
  unfold band at 1. rewrite (nth_zip_with_in _ _ _ _ false false) by mask_length.
  unfold band at 1. rewrite (nth_zip_with_in _ _ _ _ false false) by mask_length.
  unfold band at 1. rewrite (nth_zip_with_in _ _ _ _ false false) by mask_length.
  rewrite !nth_ge_scalar, nth_le_scalar, !nth_eq_scalar by mask_length.
  rewrite !at1_column, !nth_zcolumn by lia.
  unfold in_risk_set.
  destruct (decide _) as [H|H]; repeat case_bool_decide; simpl;
    try reflexivity; exfalso; tauto.
Qed.

Lemma competing_risk_log_argument_sum n p x y delta params i :
  shape x n p -> length params = p -> length y = n -> length delta = n ->
  competing_risk_log_argument x y delta params i =
  Rsum_where n (in_risk_set y delta i) (fun j => exp (matvec_at p x params j)).
Proof.
  intros Hx Hp Hy Hd. unfold competing_risk_log_argument, Rsum_where.
  pose proof (proj1 Hx) as Hxn.
  rewrite (dot_of_ints _ _ n);
    [| unfold competing_risk_riskset; mask_length | mask_length].
  apply Rsum_ext. intros j Hj.
  rewrite (riskset_entry y delta n) by assumption.
  rewrite at1_map by (rewrite matvec_length; lia).
  rewrite (at1_matvec x params n p) by assumption.
  destruct (decide _); simpl; lra.
Qed.

Lemma multivariate_failure_log_argument_sum n p x (y : matrix) params k i :
  shape x n p -> length params = p -> length y = n -> (i < n)%nat ->
  multivariate_failure_log_argument x y params k i =
  Rsum_where n (fun j => at2 y j k >= at2 y i k)
    (fun j => exp (matvec_at p x params j)).
Proof.
  intros Hx Hp Hy Hi. unfold multivariate_failure_log_argument, Rsum_where.
  pose proof (proj1 Hx) as Hxn.
  rewrite (dot_of_bools _ _ n) by mask_length.
  apply Rsum_ext. intros j Hj.
  rewrite nth_ge_scalar by mask_length.
  rewrite !at1_column by lia.
  rewrite at1_map by (rewrite matvec_length; lia).
  rewrite (at1_matvec x params n p) by assumption.
  destruct (decide _); [rewrite bool_decide_eq_true_2 | rewrite bool_decide_eq_false_2];
    try assumption; lra.
Qed.

Lemma Rsum_two f : Rsum 2 f = f 0%nat + f 1%nat.
Proof. simpl. lra. Qed.

(** ** The objectives of the survival notebooks *)

Lemma competing_risk_objective_eq n p x y delta params :
  shape x n p -> shape y n 2 -> shape delta n 2 -> binary delta ->
  length params = p ->
  competing_risk_objective n x y delta params =
  competing_risk_nlpl n p x y delta params.
Proof.
  intros Hx Hy Hd Hb Hp.
  pose proof (proj1 Hx) as Hxn. pose proof (proj1 Hy) as Hyn.
  pose proof (proj1 Hd) as Hdn.
  unfold competing_risk_objective, competing_risk_nlpl.
  set (g := fun i => ln (competing_risk_log_argument x y delta params i)).
  destruct (foldl_set_spec g (zeros_like (matvec x params)) n) as [Hlen Hat];
    [mask_length|].
  set (logsum := foldl _ _ _) in *.
  assert (Hlog : length logsum = n) by (rewrite Hlen; mask_length).
  rewrite (dot_of_ints _ logsum n), (dot_of_ints _ (matvec x params) n);
    try assumption; try mask_length.
  unfold Rdiv. rewrite <- Rmult_minus_distr_r, Rmult_1_l, Rmult_comm. f_equal.
  rewrite Rsum_minus. unfold Rsum_where. apply Rsum_ext. intros i Hi.
  rewrite Hat by exact Hi. unfold g.
  rewrite (competing_risk_log_argument_sum n p) by assumption.
  unfold zmul. rewrite (nth_zip_with_in _ _ _ _ 0%Z 0%Z) by mask_length.
  rewrite !nth_zcolumn by lia.
  rewrite (at1_matvec x params n p) by assumption.
  destruct (binary_at delta n 2 i 0) as [E0|E0]; [assumption..|lia|lia| |];
    destruct (binary_at delta n 2 i 1) as [E1|E1]; try assumption; try lia;
    rewrite E0, E1; destruct (decide _) as [[? ?]|?];
    rewrite ?Z.mul_0_l, ?Z.mul_0_r, ?Z.mul_1_l; unfold Rsum_where;
    try lra; exfalso; lia.
Qed.

Lemma multivariate_failure_objective_eq n p x y delta params :
  shape x n p -> shape y n 2 -> shape delta n 2 -> binary delta ->
  length params = p ->
  multivariate_failure_objective n x y delta params =
  multivariate_failure_nlpl n p x y delta params.
Proof.
  intros Hx Hy Hd Hb Hp.
  pose proof (proj1 Hx) as Hxn. pose proof (proj1 Hy) as Hyn.
  pose proof (proj1 Hd) as Hdn.
  unfold multivariate_failure_objective, multivariate_failure_nlpl.
  set (g1 := fun i => ln (multivariate_failure_log_argument x y params 0 i)).
  set (g2 := fun i => ln (multivariate_failure_log_argument x y params 1 i)).
  rewrite (foldl_pair_split (fun acc i => <[i := g1 i]> acc)
                            (fun acc i => <[i := g2 i]> acc)).
  destruct (foldl_set_spec g1 (zeros_like (matvec x params)) n) as [Hlen1 Hat1];
    [mask_length|].
  destruct (foldl_set_spec g2 (zeros_like (matvec x params)) n) as [Hlen2 Hat2];
    [mask_length|].
  set (logsum1 := foldl (fun acc i => <[i := g1 i]> acc) _ _) in *.
  set (logsum2 := foldl (fun acc i => <[i := g2 i]> acc) _ _) in *.
  assert (Hlog1 : length logsum1 = n) by (rewrite Hlen1; mask_length).
  assert (Hlog2 : length logsum2 = n) by (rewrite Hlen2; mask_length).
  rewrite (dot_of_ints _ logsum1 n), (dot_of_ints _ logsum2 n),
    !(dot_of_ints _ (matvec x params) n); try assumption; try mask_length.
  unfold Rdiv. rewrite Rmult_1_l, Rmult_comm. f_equal.
  rewrite Rsum_two. unfold Rsum_where.
  match goal with |- ?a + ?b - ?c - ?d = _ =>
    replace (a + b - c - d) with ((a - c) + (b - d)) by lra end.
  rewrite !Rsum_minus, !Rsum_plus. apply Rsum_ext. intros i Hi.
  rewrite Hat1, Hat2 by exact Hi. unfold g1, g2.
  rewrite !(multivariate_failure_log_argument_sum n p) by assumption.
  rewrite !nth_zcolumn by lia.
  rewrite (at1_matvec x params n p) by assumption.
  unfold Rsum_where.
  destruct (binary_at delta n 2 i 0) as [E0|E0]; [assumption..|lia|lia| |];
    destruct (binary_at delta n 2 i 1) as [E1|E1]; try assumption; try lia;
    rewrite E0, E1; repeat destruct (decide _); simpl; try lra; exfalso; lia.
Qed.

Lemma Rsum_where_ge n (P : nat -> Prop) `{!forall i, Decision (P i)} f i :
  (forall j, 0 <= f j) -> (i < n)%nat -> P i -> f i <= Rsum_where n P f.
Proof.
  intros Hf Hi HP. unfold Rsum_where.
  set (g := fun j => if decide (P j) then f j else 0).
  assert (Hg : forall j, 0 <= g j).
  { intros j. unfold g. destruct (decide (P j)); [apply Hf | lra]. }
  assert (Hgi : g i = f i).
  { unfold g. destruct (decide (P i)); [reflexivity | contradiction]. }
  rewrite <- Hgi. apply Rsum_ge_term; auto.
Qed.

Ltac solve_shape :=
  repeat match goal with
         | |- shape _ _ _ => split
         | |- binary _ => unfold binary
         | |- Forall _ _ => constructor
         | |- _ \/ _ => first [left; reflexivity | right; reflexivity]
         | |- _ => reflexivity
         end.

(** * Theorems about the loss functions *)

(** C3: for a dataset [X] of shape (n, p), [y] of length n and a parameter
    vector of length p, the linear-regression notebook's [ols_loss] and the
    benchmark's [objective] for the tasks 'Linear' and 'Non-Neg' are the mean
    squared error (1/n) * sum_i (y_i - (X @ params)_i)^2. *)
Theorem squared_error_losses (n p : nat) (X : matrix) (y params : vec) :
  shape X n p -> length y = n -> length params = p ->
  ols_loss X y params = mean_squared_error n p X y params /\
  objective Linear X y params = mean_squared_error n p X y params /\
  objective NonNeg X y params = mean_squared_error n p X y params.
Proof.
  intros HX Hy Hp.
  pose proof (ols_loss_eq X y params n p HX Hy Hp) as E.
  repeat split; exact E.
Qed.

Lemma squared_error_losses_witness :
  ols_loss [[1; 2]; [3; 4]] [5; 6] [1; 1] =
    mean_squared_error 2 2 [[1; 2]; [3; 4]] [5; 6] [1; 1] /\
  objective Linear [[1; 2]; [3; 4]] [5; 6] [1; 1] =
    mean_squared_error 2 2 [[1; 2]; [3; 4]] [5; 6] [1; 1] /\
  objective NonNeg [[1; 2]; [3; 4]] [5; 6] [1; 1] =
    mean_squared_error 2 2 [[1; 2]; [3; 4]] [5; 6] [1; 1].
Proof.
  apply (squared_error_losses 2 2 [[1; 2]; [3; 4]] [5; 6] [1; 1]); solve_shape.
Defined.

Lemma multinomial_regression_loss_softmax_nll_witness :
  multinomial_regression_loss 2 2 [[1; 2]] [[1; 0]] [1; 2; 3; 4] =
  softmax_nll 1 2 2 [[1; 2]] [[1; 0]] [1; 2; 3; 4].
Proof.
  apply (multinomial_regression_loss_softmax_nll 1 2 2); solve_shape.
Defined.

(** C5: on data of the shapes the notebooks build (x is n by p, y and delta
    are n by 2, delta holds 0/1 indicators), [competing_risk_objective] and
    [multivariate_failure_objective] are the negative log partial
    likelihoods scaled by 1/n, the first over the risk sets R_i and the
    observations with delta_i = 1 and case_i = 1, the second over the two
    failure types and the observations with delta_ik = 1. *)
Theorem survival_objectives_partial_likelihood
    (n p : nat) (x y : matrix) (delta : zmatrix) (params : vec) :
  shape x n p -> shape y n 2 -> shape delta n 2 -> binary delta ->
  length params = p ->
  competing_risk_objective n x y delta params =
    competing_risk_nlpl n p x y delta params /\
  multivariate_failure_objective n x y delta params =
    multivariate_failure_nlpl n p x y delta params.
Proof.
  intros Hx Hy Hd Hb Hp. split.
  - apply competing_risk_objective_eq; assumption.
  - apply multivariate_failure_objective_eq; assumption.
Qed.

Lemma survival_objectives_partial_likelihood_witness :
  competing_risk_objective 2 [[1]; [2]] [[1; 3]; [2; 4]] [[1; 1]; [0; 1]]%Z [1] =
    competing_risk_nlpl 2 1 [[1]; [2]] [[1; 3]; [2; 4]] [[1; 1]; [0; 1]]%Z [1] /\
  multivariate_failure_objective 2 [[1]; [2]] [[1; 3]; [2; 4]] [[1; 1]; [0; 1]]%Z [1] =
    multivariate_failure_nlpl 2 1 [[1]; [2]] [[1; 3]; [2; 4]] [[1; 1]; [0; 1]]%Z [1].
Proof.
  apply (survival_objectives_partial_likelihood 2 1); solve_shape.
Defined.

(** ** Comparisons of floats *)

Lemma SFcompare_swap a b c :
  SFcompare a b = Some c -> SFcompare b a = Some (CompOpp c).
Proof.
  destruct a as [sa|sa| |sa ma ea], b as [sb|sb| |sb mb eb]; simpl;
    try discriminate;
    try (destruct sa; try destruct sb; intros [= <-]; reflexivity);
    try (destruct sb; intros [= <-]; reflexivity).
  intros [= <-]. f_equal.
  assert (Hp : Pos.compare_cont Eq mb ma = CompOpp (Pos.compare_cont Eq ma mb))
    by (symmetry; apply (Pos.compare_cont_antisym ma mb Eq)).
  rewrite (Z.compare_antisym ea eb), Hp.
  destruct sa, sb; try reflexivity;
    destruct (ea ?= eb)%Z; simpl; try reflexivity;
    destruct (Pos.compare_cont Eq ma mb); reflexivity.
Qed.

Lemma SFcompare_nan a b :
  SFcompare a b = None <-> is_nan a = true \/ is_nan b = true.
Proof.
  destruct a as [sa|sa| |sa ma ea], b as [sb|sb| |sb mb eb]; simpl;
    split; try discriminate; try tauto; try (intros [H|H]; discriminate).
Qed.

Lemma SFcompare_refl a : is_nan a = false -> SFcompare a a = Some Eq.
Proof.
  destruct a as [s|s| |s m e]; simpl; try discriminate; intros _.
  - reflexivity.
  - destruct s; reflexivity.
  - rewrite Z.compare_refl, Pos.compare_cont_refl. destruct s; reflexivity.
Qed.

Lemma fle_refl a : is_nan a = false -> fle a a = true.
Proof. intros H. unfold fle, SFleb. rewrite (SFcompare_refl a H). reflexivity. Qed.

Lemma fle_total a b :
  is_nan a = false -> is_nan b = false -> fle a b = false -> fle b a = true.
Proof.
  intros Ha Hb. unfold fle, SFleb.
  destruct (SFcompare a b) as [c|] eqn:E.
  - rewrite (SFcompare_swap a b c E). destruct c; simpl; congruence.
  - apply SFcompare_nan in E. destruct E; congruence.
Qed.

(** The masks on the float64 array [y] hold a 1 at position i as long as
    y_i is not nan. *)
Lemma riskset_f64_self (yf : fmatrix) (delta : zmatrix) n i :
  length yf = n -> length delta = n -> (i < n)%nat ->
  is_nan (fat2 yf i 0) = false ->
  nth i (competing_risk_riskset_f64 yf delta i) 0%Z = 1%Z.
Proof.
  intros Hy Hd Hi Hnan. unfold competing_risk_riskset_f64, times_one, bor.
  rewrite (nth_map_in _ _ _ false)
    by (unfold band, fge_scalar, fle_scalar, eq_scalar, fcolumn, zcolumn;
        repeat (rewrite length_zip_with || rewrite length_map); lia).
  rewrite (nth_zip_with_in _ _ _ _ false false)
    by (unfold band, fge_scalar, fle_scalar, eq_scalar, fcolumn, zcolumn;
        repeat (rewrite length_zip_with || rewrite length_map); lia).
  unfold fge_scalar at 1, fcolumn at 1.
  rewrite (nth_map_in _ _ _ nan) by (rewrite length_map; lia).
  rewrite (nth_map_in _ _ _ []) by lia.
  fold (fat2 yf i 0). unfold fge.
  change (SFleb (fat2 yf i 0) (fat2 yf i 0)) with (fle (fat2 yf i 0) (fat2 yf i 0)).
  rewrite (fle_refl _ Hnan). reflexivity.
Qed.

Lemma mask_f64_self (yf : fmatrix) n i k :
  length yf = n -> (i < n)%nat -> is_nan (fat2 yf i k) = false ->
  nth i (fge_scalar (fcolumn k yf) (fat1 (fcolumn k yf) i)) false = true.
Proof.
  intros Hy Hi Hnan. unfold fge_scalar, fat1.
  rewrite (nth_map_in _ _ _ nan) by (unfold fcolumn; rewrite length_map; lia).
  unfold fcolumn. rewrite (nth_map_in _ _ _ []) by lia.
  fold (fat2 yf i k). unfold fge. apply fle_refl, Hnan.
Qed.


(** * Theorems about the simulators *)

Lemma times_one_binary mask :
  Forall (fun d => d = 0%Z \/ d = 1%Z) (times_one mask).
Proof.
  unfold times_one. apply Forall_forall. intros d Hd.
  apply list_elem_of_In, in_map_iff in Hd. destruct Hd as ([|] & <- & _); auto.
Qed.

Lemma hstack2_shape {A} (a b : list A) n :
  length a = n -> length b = n -> shape (hstack2 a b) n 2.
Proof.
  intros Ha Hb. unfold hstack2. split.
  - rewrite length_zip_with. lia.
  - apply Forall_forall. intros row Hrow.
    apply list_elem_of_lookup in Hrow. destruct Hrow as [i Hi].
    apply lookup_zip_with_Some in Hi. destruct Hi as (s & t & -> & _ & _).
    reflexivity.
Qed.

Lemma hstack2_binary (a b : list Z) :
  Forall (fun d => d = 0%Z \/ d = 1%Z) a ->
  Forall (fun d => d = 0%Z \/ d = 1%Z) b ->
  binary (hstack2 a b).
Proof.
  intros Ha Hb. unfold binary, hstack2. apply Forall_forall. intros row Hrow.
  apply list_elem_of_lookup in Hrow. destruct Hrow as [i Hi].
  apply lookup_zip_with_Some in Hi. destruct Hi as (s & t & -> & Hs & Ht).
  rewrite Forall_forall in Ha, Hb.
  constructor; [|constructor; [|constructor]].
  - apply Ha. eapply list_elem_of_lookup_2; eauto.
  - apply Hb. eapply list_elem_of_lookup_2; eauto.
Qed.

Lemma hstack2_entry {A} (a b : list A) i (d : A) :
  (i < length a)%nat -> (i < length b)%nat ->
  nth 0 (nth i (hstack2 a b) []) d = nth i a d /\
  nth 1 (nth i (hstack2 a b) []) d = nth i b d.
Proof.
  intros Ha Hb. unfold hstack2.
  rewrite (nth_zip_with_in _ _ _ _ d d) by assumption. split; reflexivity.
Qed.

(** ** Censoring in floats *)

Lemma fat1_zip_with (f : float -> float -> float) a b i :
  (i < length a)%nat -> (i < length b)%nat ->
  fat1 (zip_with f a b) i = f (fat1 a i) (fat1 b i).
Proof. intros Ha Hb. unfold fat1. apply nth_zip_with_in; assumption. Qed.

Lemma nonneg_draw_not_nan t : nonneg_draw t -> is_nan t = false.
Proof.
  unfold nonneg_draw. intros H. destruct t; try reflexivity. discriminate H.
Qed.

Lemma drawn_not_nan (ctime : fvec) i :
  Forall nonneg_draw ctime -> (i < length ctime)%nat -> is_nan (fat1 ctime i) = false.
Proof.
  intros H Hi. apply nonneg_draw_not_nan.
  rewrite Forall_forall in H. apply H, list_elem_of_In, nth_In, Hi.
Qed.

(** What [np.minimum] returns, entry by entry. *)
Lemma np_minimum1_spec t c :
  is_nan c = false ->
  (is_nan t = false ->
   is_minimum (np_minimum1 t c) t c /\ fle (np_minimum1 t c) c = true) /\
  (is_nan t = true -> is_nan (np_minimum1 t c) = true /\ flt t c = false).
Proof.
  intros Hc. unfold np_minimum1. split.
  - intros Ht. rewrite Ht, orb_false_r.
    destruct (fle t c) eqn:E.
    + repeat split; auto. apply fle_refl, Ht.
    + pose proof (fle_total t c Ht Hc E) as E'.
      repeat split; auto; apply fle_refl, Hc.
  - intros Ht. rewrite Ht, orb_true_r. split; [exact Ht|].
    destruct t; try discriminate. reflexivity.
Qed.

(** One pair of columns: the observed times and the indicators. *)
Lemma censored_column (time ctime : fvec) n i :
  length time = n -> length ctime = n -> Forall nonneg_draw ctime -> (i < n)%nat ->
  let t := fat1 time i in
  let c := fat1 ctime i in
  let y := fat1 (np_minimum time ctime) i in
  let d := nth i (times_one (flt_elem time ctime)) 0%Z in
  y = np_minimum1 t c /\
  (d = 1%Z <-> flt t c = true) /\
  (is_nan t = false -> is_minimum y t c /\ fle y c = true) /\
  (is_nan t = true -> is_nan y = true /\ d = 0%Z).
Proof.
  intros Ht Hc Hpos Hi. cbv zeta.
  assert (Ey : fat1 (np_minimum time ctime) i
               = np_minimum1 (fat1 time i) (fat1 ctime i))
    by (unfold np_minimum; apply fat1_zip_with; lia).
  assert (Ed : nth i (times_one (flt_elem time ctime)) 0%Z
               = if flt (fat1 time i) (fat1 ctime i) then 1%Z else 0%Z).
  { unfold times_one, flt_elem, fat1.
    rewrite (nth_map_in _ _ _ false) by (rewrite length_zip_with; lia).
    rewrite (nth_zip_with_in _ _ _ _ nan nan) by lia. reflexivity. }
  assert (Hn : is_nan (fat1 ctime i) = false)
    by (apply drawn_not_nan; [assumption | lia]).
  destruct (np_minimum1_spec (fat1 time i) (fat1 ctime i) Hn) as [Hfin Hnan].
  rewrite Ey, Ed. split; [reflexivity|]. split; [|split].
  - destruct (flt (fat1 time i) (fat1 ctime i)); split; congruence.
  - exact Hfin.
  - intros H. destruct (Hnan H) as [H1 H2]. rewrite H2. auto.
Qed.

Lemma make_data_time_length N n p beta mix w :
  numpy_ok N -> make_data_draws_ok n p w ->
  length (make_data_time N beta mix w) = n.
Proof.
  intros HN Hw. unfold make_data_time. cbv zeta.
  pose proof (proj1 (draw_x_shape n p w Hw)) as Hx.
  pose proof (draw_case_length n p w Hw) as Hc.
  pose proof (draw_u_length n p w Hw) as Hu.
  pose proof (draw_exponential_length n p w Hw) as He.
  repeat (rewrite length_zip_with || rewrite length_map
          || rewrite (np_matmul_length N HN)).
  lia.
Qed.

Lemma clayton_time_length N n theta lambda1 lambda2 w k :
  clayton_draws_ok n w -> length lambda1 = n -> length lambda2 = n ->
  length (clayton_time N theta lambda1 lambda2 w k) = n /\
  length (clayton_ctime w k) = n.
Proof.
  intros Hw Hl1 Hl2.
  pose proof (draw_u1_length n w Hw). pose proof (draw_u2_length n w Hw).
  pose proof (draw_ctime1_length n w Hw). pose proof (draw_ctime2_length n w Hw).
  destruct k; simpl; unfold clayton_time1, clayton_time2;
    repeat (rewrite length_zip_with || rewrite length_map); lia.
Qed.

(** C9: for every realisation of the draws, [make_data] returns indicators
    that are 0 or 1, the censoring time in y[i,1], and delta[i,0] = 1
    exactly when the failure time is strictly smaller than the censoring
    time.  When the failure time is not nan, y[i,0] is the smaller of the
    two times, so y[i,0] <= y[i,1]; when it is nan, y[i,0] is nan and
    delta[i,0] is 0.  [make_Clayton2_data] does the same for each of its
    two event types. *)
Theorem simulators_censoring_invariant
    (N : numpy) (n p : nat) (beta : fvec) (rho mix c : float)
    (w : make_data_draws)
    (theta : float) (lambda1 lambda2 : fvec) (c1 c2 : float)
    (w' : clayton_draws) :
  numpy_ok N ->
  make_data_draws_ok n p w ->
  clayton_draws_ok n w' -> length lambda1 = n -> length lambda2 = n ->
  (let '(x, y, delta) := make_data N n beta rho mix c w in
   let time := make_data_time N beta mix w in
   let ctime := draw_ctime w in
   shape y n 2 /\ shape delta n 2 /\ binary delta /\
   forall i, (i < n)%nat ->
     fat2 y i 1 = fat1 ctime i /\
     (zat2 delta i 0 = 1%Z <-> flt (fat1 time i) (fat1 ctime i) = true) /\
     (is_nan (fat1 time i) = false ->
      is_minimum (fat2 y i 0) (fat1 time i) (fat1 ctime i) /\
      fle (fat2 y i 0) (fat2 y i 1) = true) /\
     (is_nan (fat1 time i) = true ->
      is_nan (fat2 y i 0) = true /\ zat2 delta i 0 = 0%Z)) /\
  (let '(y, delta) := make_Clayton2_data N n theta lambda1 lambda2 c1 c2 w' in
   shape y n 2 /\ shape delta n 2 /\ binary delta /\
   forall i k, (i < n)%nat -> (k < 2)%nat ->
     let time := clayton_time N theta lambda1 lambda2 w' k in
     let ctime := clayton_ctime w' k in
     (zat2 delta i k = 1%Z <-> flt (fat1 time i) (fat1 ctime i) = true) /\
     (is_nan (fat1 time i) = false ->
      is_minimum (fat2 y i k) (fat1 time i) (fat1 ctime i)) /\
     (is_nan (fat1 time i) = true ->
      is_nan (fat2 y i k) = true /\ zat2 delta i k = 0%Z)).
Proof.
  intros HN Hw Hw' Hl1 Hl2. split.
  - pose proof (make_data_time_length N n p beta mix w HN Hw) as Ht.
    pose proof (draw_ctime_length n p w Hw) as Hc.
    pose proof (draw_ctime_nonneg n p w Hw) as Hpos.
    unfold make_data. cbv zeta.
    set (time := make_data_time N beta mix w) in *.
    assert (Hm : length (np_minimum time (draw_ctime w)) = n)
      by (unfold np_minimum; rewrite length_zip_with; lia).
    assert (Hd : length (times_one (flt_elem time (draw_ctime w))) = n)
      by (unfold times_one, flt_elem; rewrite length_map, length_zip_with; lia).
    split; [apply hstack2_shape; assumption|].
    split; [apply hstack2_shape; [assumption | apply (draw_case_length n p w Hw)]|].
    split; [apply hstack2_binary;
            [apply times_one_binary | apply (draw_case_binary n p w Hw)]|].
    intros i Hi.
    destruct (censored_column time (draw_ctime w) n i Ht Hc Hpos Hi)
      as (Emin & Elt & Hfin & Hnan).
    destruct (hstack2_entry (np_minimum time (draw_ctime w)) (draw_ctime w) i nan)
      as [Ey0 Ey1]; [lia..|].
    destruct (hstack2_entry (times_one (flt_elem time (draw_ctime w)))
                (draw_case w) i 0%Z) as [Ed0 _];
      [lia | rewrite (draw_case_length n p w Hw); lia |].
    unfold fat2, zat2. rewrite Ey0, Ey1, Ed0.
    fold (fat1 (np_minimum time (draw_ctime w)) i) (fat1 (draw_ctime w) i).
    repeat split; try apply Elt; try apply Hfin; try apply Hnan; try assumption.
  - unfold make_Clayton2_data. cbv zeta.
    destruct (clayton_time_length N n theta lambda1 lambda2 w' 0 Hw' Hl1 Hl2)
      as [Ht1 Hc1].
    destruct (clayton_time_length N n theta lambda1 lambda2 w' 1 Hw' Hl1 Hl2)
      as [Ht2 Hc2].
    simpl in Ht1, Hc1, Ht2, Hc2.
    pose proof (draw_ctime1_nonneg n w' Hw') as Hpos1.
    pose proof (draw_ctime2_nonneg n w' Hw') as Hpos2.
    set (time1 := clayton_time1 N theta lambda1 w') in *.
    set (time2 := clayton_time2 N lambda2 w') in *.
    assert (Hm1 : length (np_minimum time1 (draw_ctime1 w')) = n)
      by (unfold np_minimum; rewrite length_zip_with; lia).
    assert (Hm2 : length (np_minimum time2 (draw_ctime2 w')) = n)
      by (unfold np_minimum; rewrite length_zip_with; lia).
    assert (Hd1 : length (times_one (flt_elem time1 (draw_ctime1 w'))) = n)
      by (unfold times_one, flt_elem; rewrite length_map, length_zip_with; lia).
    assert (Hd2 : length (times_one (flt_elem time2 (draw_ctime2 w'))) = n)
      by (unfold times_one, flt_elem; rewrite length_map, length_zip_with; lia).
    split; [apply hstack2_shape; assumption|].
    split; [apply hstack2_shape; assumption|].
    split; [apply hstack2_binary; apply times_one_binary|].
    intros i k Hi Hk.
    destruct (hstack2_entry (np_minimum time1 (draw_ctime1 w'))
                (np_minimum time2 (draw_ctime2 w')) i nan) as [Ey0 Ey1]; [lia..|].
    destruct (hstack2_entry (times_one (flt_elem time1 (draw_ctime1 w')))
                (times_one (flt_elem time2 (draw_ctime2 w'))) i 0%Z)
      as [Ed0 Ed1]; [lia..|].
    destruct (censored_column time1 (draw_ctime1 w') n i Ht1 Hc1 Hpos1 Hi)
      as (Emin1 & Elt1 & Hfin1 & Hnan1).
    destruct (censored_column time2 (draw_ctime2 w') n i Ht2 Hc2 Hpos2 Hi)
      as (Emin2 & Elt2 & Hfin2 & Hnan2).
    unfold fat2, zat2.
    destruct k as [|[|k]]; [| |lia]; simpl clayton_time; simpl clayton_ctime;
      fold time1 time2.
    + rewrite Ey0, Ed0.
      fold (fat1 (np_minimum time1 (draw_ctime1 w')) i).
      repeat split; try apply Elt1; try apply Hfin1; try apply Hnan1; assumption.
    + rewrite Ey1, Ed1.
      fold (fat1 (np_minimum time2 (draw_ctime2 w')) i).
      repeat split; try apply Elt2; try apply Hfin2; try apply Hnan2; assumption.
Qed.

(** * The benchmark: running [test_time] *)

Lemma for_each_app {A B} (l1 l2 : list A) (body : B -> A -> M B) b st :
  for_each (l1 ++ l2) body b st =
  (b' <- for_each l1 body b ;; for_each l2 body b') st.
Proof.
  revert b st. induction l1 as [|a l1 IH]; intros b st; simpl.
  - reflexivity.
  - unfold bind in *.
    destruct (body b a st) as [[b'|e] st']; [apply IH | reflexivity].
Qed.

(** One pass of the task loop, run from any state. *)
Lemma task_pass_run w n p s T prev t st :
  s <> O ->
  task_pass w n p s T prev t st =
  let i := fst (rng st) in
  let k := snd (rng st) in
  let coef :=
    assign_at T (of_ints (zmul (rng_choice w i k [1; 2; 3]%Z s)
                               (rng_choice w i (S k) (signs_of t) s))) prev in
  let data := glm_sample w (glm_calls st) n p s (family_of t) coef in
  (Ok coef,
   {| res := res st ++ scored w p s t data T (nonzero (data_coef_ data)) (ticks st);
      rng := (i, S (S k));
      glm_calls := S (glm_calls st);
      ticks := S (S (S (S (ticks st))));
      log := log st ++ task_actions p s t |}).
Proof.
  intros Hs. unfold task_pass, choice, true_divide.
  apply Nat.eqb_neq in Hs. rewrite Hs.
  cbv beta iota zeta delta
    [bind rng_advance make_glm_data emit time append_row ret fst snd
     res rng glm_calls ticks log scored accuracy task_actions].
  rewrite <- !app_assoc. reflexivity.
Qed.

(** One repetition, run from a state reached after [i] repetitions. *)
Lemma rep_pass_run w n p s g c i st :
  s <> O -> (s <= p)%nat ->
  glm_calls st = (g + 3 * i)%nat -> ticks st = (c + 12 * i)%nat ->
  rep_pass w n p s tt i st =
  (Ok tt,
   {| res := res st ++ rep_rows w n p s g c i;
      rng := (i, 7%nat);
      glm_calls := (g + 3 * S i)%nat;
      ticks := (c + 12 * S i)%nat;
      log := log st ++ rep_actions p s |}).
Proof.
  intros Hs Hp Hg Hc. unfold rep_pass, choice_distinct.
  apply Nat.leb_le in Hp.
  unfold bind at 1 2. unfold default_rng.
  unfold bind at 1. unfold rng_advance. simpl fst. simpl snd. rewrite Hp.
  unfold ret at 1. unfold bind at 1. simpl for_each.
  unfold bind at 1. rewrite task_pass_run by exact Hs. cbv zeta. simpl fst. simpl snd.
  unfold bind at 1. rewrite task_pass_run by exact Hs. cbv zeta. simpl fst. simpl snd.
  unfold bind at 1. rewrite task_pass_run by exact Hs. cbv zeta. simpl fst. simpl snd.
  unfold ret. cbn [res rng glm_calls ticks log].
  rewrite Hg, Hc.
  unfold rep_rows, task_rows, generated, coef_for, drawn_coef, true_support,
    rep_actions.
  cbn [task_number family_of].
  replace (g + 3 * i + 0)%nat with (g + 3 * i)%nat by lia.
  replace (g + 3 * i + 1)%nat with (S (g + 3 * i)) by lia.
  replace (g + 3 * i + 2)%nat with (S (S (g + 3 * i))) by lia.
  replace (c + 12 * i + 4 * 0)%nat with (c + 12 * i)%nat by lia.
  replace (c + 12 * i + 4 * 1)%nat with (S (S (S (S (c + 12 * i))))) by lia.
  replace (c + 12 * i + 4 * 2)%nat
    with (S (S (S (S (S (S (S (S (c + 12 * i))))))))) by lia.
  replace (g + 3 * S i)%nat with (S (S (S (g + 3 * i)))) by lia.
  replace (c + 12 * S i)%nat
    with (S (S (S (S (S (S (S (S (S (S (S (S (c + 12 * i))))))))))))) by lia.
  rewrite <- !app_assoc. reflexivity.
Qed.

(** The whole run: every pass succeeds when [1 <= s <= p]. *)
Lemma rep_loop_run w n p s rep st :
  s <> O -> (s <= p)%nat ->
  exists st',
    for_each (seq 0 rep) (rep_pass w n p s) tt st = (Ok tt, st') /\
    res st' = res st ++ concat (map (rep_rows w n p s (glm_calls st) (ticks st)) (seq 0 rep)) /\
    glm_calls st' = (glm_calls st + 3 * rep)%nat /\
    ticks st' = (ticks st + 12 * rep)%nat /\
    log st' = log st ++ concat (map (fun _ => rep_actions p s) (seq 0 rep)).
Proof.
  intros Hs Hp. induction rep as [|rep IH].
  - exists st. cbn [seq map concat for_each]. rewrite !app_nil_r.
    repeat split; lia.
  - destruct IH as (st1 & Hrun & Hres & Hg & Hc & Hlog).
    rewrite seq_S, for_each_app. unfold bind at 1. rewrite Hrun.
    simpl for_each. unfold bind at 1.
    rewrite (rep_pass_run w n p s (glm_calls st) (ticks st) rep st1 Hs Hp Hg Hc).
    eexists. split; [reflexivity|]. cbn [res glm_calls ticks log].
    rewrite !map_app, !concat_app. cbn [map concat]. rewrite ?app_nil_r, Hres, Hlog.
    rewrite <- !app_assoc. repeat split; lia.
Qed.

Lemma test_time_run w n p s random_state rep st :
  s <> O -> (s <= p)%nat ->
  exists st',
    test_time w n p s random_state rep st = (Ok tt, st') /\
    res st' = concat (map (rep_rows w n p s (glm_calls st) (ticks st)) (seq 0 rep)) /\
    log st' = log st ++ Report Other
              :: concat (map (fun _ => rep_actions p s) (seq 0 rep))
              ++ [Report AccuracyTable].
Proof.
  intros Hs Hp. unfold test_time, new_frame, emit.
  unfold bind at 1. unfold bind at 1.
  destruct (rep_loop_run w n p s rep
              {| res := []; rng := rng st; glm_calls := glm_calls st;
                 ticks := ticks st; log := log st ++ [Report Other] |} Hs Hp)
    as (st1 & Hrun & Hres & _ & _ & Hlog).
  cbn [res rng glm_calls ticks log] in *.
  unfold bind at 1. rewrite Hrun.
  eexists. split; [reflexivity|]. cbn [res log].
  rewrite Hres, Hlog, <- !app_assoc. split; reflexivity.
Qed.

(** ** Supports *)

Lemma nonzero_from_spec k v x :
  x ∈ nonzero_from k v <->
  exists j, x = (k + j)%nat /\ (j < length v)%nat /\ at1 v j <> 0.
Proof.
  revert k. induction v as [|a v IH]; intros k; simpl.
  - split; [intros H; inversion H | intros (j & _ & Hj & _); lia].
  - destruct (decide (a = 0)) as [Ha|Ha].
    + rewrite IH. split.
      * intros (j & -> & Hj & Hne). exists (S j). repeat split; [lia | lia | exact Hne].
      * intros ([|j] & -> & Hj & Hne); [contradiction|].
        exists j. repeat split; [lia | lia | exact Hne].
    + rewrite elem_of_cons, IH. split.
      * intros [-> | (j & -> & Hj & Hne)].
        -- exists O. repeat split; [lia | lia | exact Ha].
        -- exists (S j). repeat split; [lia | lia | exact Hne].
      * intros ([|j] & -> & Hj & Hne); [left; lia|].
        right. exists j. repeat split; [lia | lia | exact Hne].
Qed.

Lemma nonzero_spec v j :
  j ∈ nonzero v <-> (j < length v)%nat /\ at1 v j <> 0.
Proof.
  unfold nonzero. rewrite nonzero_from_spec. split.
  - intros (i & -> & Hi & Hne). split; assumption.
  - intros [Hj Hne]. exists j. repeat split; assumption.
Qed.

Lemma assign_at_cons j v idx values a :
  assign_at (j :: idx) (v :: values) a = assign_at idx values (<[j := v]> a).
Proof. reflexivity. Qed.

Lemma assign_at_length idx values a :
  length (assign_at idx values a) = length a.
Proof.
  revert values a. induction idx as [|j idx IH]; intros [|v values] a;
    try reflexivity.
  rewrite assign_at_cons, IH. apply length_insert.
Qed.

Lemma at1_insert (a : vec) j v i :
  at1 (<[j := v]> a) i =
  if decide (i = j /\ (j < length a)%nat) then v else at1 a i.
Proof.
  unfold at1. rewrite !nth_lookup.
  destruct (decide (i = j /\ (j < length a)%nat)) as [[-> Hj]|Hn].
  - rewrite list_lookup_insert_eq by exact Hj. reflexivity.
  - destruct (decide (j = i)) as [->|Hne].
    + rewrite list_insert_ge by lia. reflexivity.
    + rewrite list_lookup_insert_ne by exact Hne. reflexivity.
Qed.

(** Entries outside the index array are untouched. *)
Lemma assign_at_outside idx values a i :
  i ∉ idx -> at1 (assign_at idx values a) i = at1 a i.
Proof.
  revert values a. induction idx as [|j idx IH]; intros [|v values] a Hi;
    try reflexivity.
  rewrite assign_at_cons, IH by set_solver.
  rewrite at1_insert. destruct (decide _) as [[-> _]|_]; [set_solver | reflexivity].
Qed.

(** Entries at the index array end up non-zero when every value is. *)
Lemma assign_at_nonzero idx values a i :
  length idx = length values -> Forall (fun v => v <> 0) values ->
  (i < length a)%nat -> (i ∈ idx \/ at1 a i <> 0) ->
  at1 (assign_at idx values a) i <> 0.
Proof.
  revert values a. induction idx as [|j idx IH]; intros [|v values] a Hl Hv Hi Hor;
    simpl in Hl; try lia.
  - destruct Hor as [Hin|Hne]; [inversion Hin | exact Hne].
  - rewrite assign_at_cons. inversion Hv as [|? ? Hv0 Hvs]; subst.
    apply IH; [lia | exact Hvs | rewrite length_insert; exact Hi |].
    rewrite at1_insert. destruct (decide (i = j /\ (j < length a)%nat)) as [_|Hn].
    + right. exact Hv0.
    + destruct Hor as [Hin|Hne]; [|right; exact Hne].
      apply elem_of_cons in Hin. destruct Hin as [->|Hin]; [|left; exact Hin].
      exfalso. apply Hn. split; [reflexivity | exact Hi].
Qed.

Lemma zeros_supported T p : length (zeros p) = p /\ supported_on T (zeros p).
Proof.
  unfold zeros. split; [apply repeat_length|].
  intros j _. unfold at1. destruct (decide (j < p)%nat) as [Hj|Hj].
  - apply nth_repeat_lt. exact Hj.
  - apply nth_overflow. rewrite repeat_length. lia.
Qed.

(** The coefficients drawn for the support are non-zero: a magnitude in
    {1, 2, 3} times a sign in {1, -1}. *)
Lemma drawn_values w i k k' t s :
  world_ok w ->
  let values := of_ints (zmul (rng_choice w i k [1; 2; 3]%Z s)
                              (rng_choice w i k' (signs_of t) s)) in
  length values = s /\ Forall (fun v => v <> 0) values.
Proof.
  intros Hw. cbv zeta. unfold of_ints, zmul. split.
  - rewrite length_map, length_zip_with, !(rng_choice_length w Hw)
      by (destruct t; discriminate).
    lia.
  - apply Forall_forall. intros v Hv.
    apply list_elem_of_In, in_map_iff in Hv. destruct Hv as (z & <- & Hz).
    apply list_elem_of_In, list_elem_of_lookup in Hz. destruct Hz as [j Hj].
    apply lookup_zip_with_Some in Hj. destruct Hj as (m & sg & -> & Hm & Hsg).
    apply list_elem_of_lookup_2, (rng_choice_in w Hw) in Hm; [|discriminate].
    apply list_elem_of_lookup_2, (rng_choice_in w Hw) in Hsg;
      [|destruct t; discriminate].
    apply not_0_IZR.
    assert (1 <= m <= 3)%Z by (set_unfold; lia).
    assert (sg = 1 \/ sg = -1)%Z by (destruct t; set_unfold; lia).
    nia.
Qed.

Lemma drawn_coef_support w p s i k t prev :
  world_ok w -> (s <= p)%nat ->
  length prev = p -> supported_on (true_support w p s i) prev ->
  length (drawn_coef w p s i k t prev) = p /\
  supported_on (true_support w p s i) (drawn_coef w p s i k t prev) /\
  (list_to_set (nonzero (drawn_coef w p s i k t prev)) : gset nat) =
  list_to_set (true_support w p s i).
Proof.
  intros Hw Hsp Hlen Hsup. unfold drawn_coef.
  destruct (drawn_values w i k (S k) t s Hw) as [Hvl Hvn].
  set (values := of_ints _) in *. set (T := true_support w p s i) in *.
  assert (HT : length T = s) by (apply (rng_choice_distinct_length w Hw); exact Hsp).
  split; [rewrite assign_at_length; exact Hlen|].
  split.
  - intros j Hj. rewrite assign_at_outside by exact Hj. apply Hsup, Hj.
  - apply set_eq. intros j. rewrite !elem_of_list_to_set, nonzero_spec.
    rewrite assign_at_length, Hlen. split.
    + intros [Hj Hne]. destruct (decide (j ∈ T)) as [Hin|Hout]; [exact Hin|].
      exfalso. apply Hne. rewrite assign_at_outside by exact Hout.
      apply Hsup, Hout.
    + intros Hin.
      assert (Hj : (j < p)%nat)
        by (eapply (rng_choice_distinct_in w Hw); [exact Hsp | exact Hin]).
      split; [exact Hj|].
      apply assign_at_nonzero; [congruence | exact Hvn | lia | left; exact Hin].
Qed.

(** In every pass the array given to [make_glm_data] is non-zero exactly on
    [true_support_set]. *)
Lemma coef_for_support w p s i t :
  world_ok w -> (s <= p)%nat ->
  (list_to_set (nonzero (coef_for w p s i t)) : gset nat) =
  list_to_set (true_support w p s i).
Proof.
  intros Hw Hsp. unfold coef_for.
  destruct (zeros_supported (true_support w p s i) p) as [L0 S0].
  destruct (drawn_coef_support w p s i 1 Linear _ Hw Hsp L0 S0) as (L1 & S1 & E1).
  destruct (drawn_coef_support w p s i 3 NonNeg _ Hw Hsp L1 S1) as (L2 & S2 & E2).
  destruct (drawn_coef_support w p s i 5 Logistic _ Hw Hsp L2 S2) as (L3 & S3 & E3).
  destruct t; assumption.
Qed.

Lemma true_support_size w p s i :
  world_ok w -> (s <= p)%nat ->
  size (list_to_set (true_support w p s i) : gset nat) = s.
Proof.
  intros Hw Hsp. unfold true_support.
  rewrite size_list_to_set by (apply (rng_choice_distinct_NoDup w Hw); exact Hsp).
  apply (rng_choice_distinct_length w Hw). exact Hsp.
Qed.

Lemma generated_support w n p s g i t :
  world_ok w -> (s <= p)%nat ->
  (list_to_set (nonzero (data_coef_ (generated w n p s g i t))) : gset nat) =
  list_to_set (true_support w p s i).
Proof.
  intros Hw Hsp. unfold generated. rewrite (glm_sample_coef w Hw).
  apply coef_for_support; assumption.
Qed.

Lemma accuracy_same_support estimate T T' s :
  (list_to_set T : gset nat) = list_to_set T' ->
  accuracy estimate T s = accuracy estimate T' s.
Proof. intros E. unfold accuracy, common. rewrite E. reflexivity. Qed.

Lemma accuracy_bounds estimate T s :
  (1 <= s)%nat -> size (list_to_set T : gset nat) = s ->
  0 <= accuracy estimate T s <= 1.
Proof.
  intros Hs HT. unfold accuracy, common.
  set (k := size _).
  assert (Hk : (k <= s)%nat).
  { unfold k. rewrite <- HT. apply subseteq_size, intersection_subseteq_r. }
  assert (Hs0 : 0 < INR s) by (apply lt_0_INR; lia).
  assert (Hk0 : 0 <= INR k) by apply pos_INR.
  assert (Hks : INR k <= INR s) by (apply le_INR; exact Hk).
  split.
  - apply Rmult_le_pos; [exact Hk0 | left; apply Rinv_0_lt_compat; exact Hs0].
  - apply (Rmult_le_reg_r (INR s)); [exact Hs0|].
    unfold Rdiv. rewrite Rmult_assoc, Rinv_l by lra. lra.
Qed.

Lemma task_rows_bounds w n p s g c i t :
  world_ok w -> (1 <= s)%nat -> (s <= p)%nat ->
  Forall (fun r => 0 <= row_accuracy r <= 1) (task_rows w n p s g c i t).
Proof.
  intros Hw Hs Hsp. unfold task_rows, scored.
  pose proof (true_support_size w p s i Hw Hsp) as HT.
  constructor; [|constructor; [|constructor]]; cbn [row_accuracy].
  - apply accuracy_bounds; assumption.
  - apply accuracy_bounds; [assumption|].
    rewrite (generated_support w n p s g i t Hw Hsp). exact HT.
Qed.

Lemma rep_rows_facts w n p s g c i :
  world_ok w -> (1 <= s)%nat -> (s <= p)%nat ->
  length (rep_rows w n p s g c i) = 6%nat /\
  map label (rep_rows w n p s g c i) = rep_labels /\
  Forall (fun r => 0 <= row_accuracy r <= 1) (rep_rows w n p s g c i).
Proof.
  intros Hw Hs Hsp. split; [reflexivity|]. split; [reflexivity|].
  unfold rep_rows. rewrite !Forall_app.
  repeat split; apply task_rows_bounds; assumption.
Qed.

Lemma concat_rows_facts {A} (f : A -> list row) (l : list A) :
  (forall a, length (f a) = 6%nat /\ map label (f a) = rep_labels /\
             Forall (fun r => 0 <= row_accuracy r <= 1) (f a)) ->
  length (concat (map f l)) = (6 * length l)%nat /\
  map label (concat (map f l)) = concat (map (fun _ => rep_labels) l) /\
  Forall (fun r => 0 <= row_accuracy r <= 1) (concat (map f l)).
Proof.
  intros Hf. induction l as [|a l (IH1 & IH2 & IH3)]; cbn [map concat].
  - repeat split. constructor.
  - destruct (Hf a) as (H1 & H2 & H3).
    rewrite length_app, map_app, Forall_app, H1, H2, IH1, IH2.
    repeat split; [simpl; lia | assumption..].
Qed.

(** * Theorems about the benchmark *)

(** C10: a run of [test_time] with 1 <= s <= p returns normally after
    appending, in every repetition and for every task, one row labelled
    abess and one labelled skscope, 6 * rep rows in all, and every recorded
    Accuracy lies in [0, 1]. *)
Theorem test_time_rows
    (w : world) (n p s : nat) (random_state : option nat) (rep : nat)
    (st : bench_state) :
  world_ok w -> (1 <= s)%nat -> (s <= p)%nat ->
  exists st',
    test_time w n p s random_state rep st = (Ok tt, st') /\
    length (res st') = (6 * rep)%nat /\
    map label (res st') = concat (map (fun _ => rep_labels) (seq 0 rep)) /\
    Forall (fun r => 0 <= row_accuracy r <= 1) (res st').
Proof.
  intros Hw Hs Hsp.
  destruct (test_time_run w n p s random_state rep st) as (st' & Hrun & Hres & _);
    [lia | exact Hsp |].
  exists st'. split; [exact Hrun|]. rewrite Hres.
  destruct (concat_rows_facts
              (rep_rows w n p s (glm_calls st) (ticks st)) (seq 0 rep))
    as (H1 & H2 & H3).
  - intros i. apply rep_rows_facts; assumption.
  - rewrite length_seq in H1. repeat split; assumption.
Qed.

(** ** What [test_time] logs, for any arguments and any outcome *)

Section Appends.
Context (P : action -> Prop).

Lemma appends_silent {A} (m : M A) :
  (forall st, log (snd (m st)) = log st) -> appends P m.
Proof.
  intros H st. exists []. rewrite H, app_nil_r. split; [reflexivity | constructor].
Qed.

Lemma appends_emit a : P a -> appends P (emit a).
Proof.
  intros Ha st. exists [a]. split; [reflexivity | repeat constructor; exact Ha].
Qed.

Lemma appends_bind {A B} (m : M A) (k : A -> M B) :
  appends P m -> (forall a, appends P (k a)) -> appends P (bind m k).
Proof.
  intros Hm Hk st. unfold bind.
  destruct (Hm st) as (l1 & E1 & F1).
  destruct (m st) as [[a|e] st1]; cbn [snd] in *.
  - destruct (Hk a st1) as (l2 & E2 & F2).
    exists (l1 ++ l2). rewrite E2, E1, app_assoc. split; [reflexivity|].
    apply Forall_app. split; assumption.
  - exists l1. split; assumption.
Qed.

Lemma appends_for_each {A B} (l : list A) (body : B -> A -> M B) b :
  (forall b a, appends P (body b a)) -> appends P (for_each l body b).
Proof.
  intros Hbody. revert b. induction l as [|a l IH]; intros b; cbn [for_each].
  - apply appends_silent. reflexivity.
  - apply appends_bind; [apply Hbody | exact IH].
Qed.

Lemma appends_test_time w n p s random_state rep :
  (forall t, P (DefineLoss (Loss.objective t))) ->
  (forall t, P (Solve (Loss.objective t) p true)) ->
  P (Simulate Sim.make_glm_data) -> P (Construct p (Level s) []) ->
  P (Read ReturnValue) -> P (Report AccuracyTable) -> P (Report Other) ->
  appends P (test_time w n p s random_state rep).
Proof.
  intros Hdef Hsolve Hsim Hcons Hread Hrep Hhead.
  assert (Hchoice : forall pop size, appends P (choice w pop size)).
  { intros. apply appends_bind; intros; apply appends_silent; reflexivity. }
  assert (Htime : appends P (time w)) by (apply appends_silent; reflexivity).
  assert (Hdiv : forall a, appends P (true_divide a s)).
  { intros a. unfold true_divide. destruct (s =? 0)%nat;
      apply appends_silent; reflexivity. }
  assert (Hrow : forall r, appends P (append_row r))
    by (intros; apply appends_silent; reflexivity).
  assert (Hglm : forall fam coef, appends P (make_glm_data w n p s fam coef)).
  { intros fam coef st. exists [Simulate Sim.make_glm_data].
    split; [reflexivity | repeat constructor; exact Hsim]. }
  unfold test_time.
  apply appends_bind; [apply appends_emit; exact Hhead | intros _].
  apply appends_bind; [apply appends_silent; reflexivity | intros _].
  apply appends_bind; [| intros _; apply appends_emit; exact Hrep].
  apply appends_for_each. intros [] i. unfold rep_pass.
  apply appends_bind; [apply appends_silent; reflexivity | intros _].
  apply appends_bind.
  { unfold choice_distinct. apply appends_bind; [apply appends_silent; reflexivity|].
    intros g. destruct (s <=? p)%nat; apply appends_silent; reflexivity. }
  intros T. apply appends_bind; [| intros; apply appends_silent; reflexivity].
  apply appends_for_each. intros coef t. unfold task_pass.
  repeat (first
    [ apply appends_bind; [first [apply Hchoice | apply Htime | apply Hdiv
                                 | apply Hrow | apply Hglm
                                 | apply appends_emit; auto] | intros ?]
    | apply appends_silent; reflexivity ]).
Qed.

End Appends.

(** * The notebooks *)

Lemma abess_compare_actions w :
  Gallery.abess_compare w =
  ImportSolver :: test_time_actions 1000 10 ++ test_time_actions 5000 50
  ++ test_time_actions 10000 100.
Proof.
  unfold Gallery.abess_compare, Gallery.settings. cbv zeta. cbn [for_each].
  unfold bind at 1.
  match goal with |- context [test_time w ?n ?p ?s None 10 ?st] =>
    destruct (test_time_run w n p s None 10 st) as (st1 & Hrun1 & _ & Hlog1);
      [discriminate | apply Nat.leb_le; vm_compute; reflexivity |]
  end.
  rewrite Hrun1. unfold bind at 1.
  match goal with |- context [test_time w ?n ?p ?s None 10 ?st] =>
    destruct (test_time_run w n p s None 10 st) as (st2 & Hrun2 & _ & Hlog2);
      [discriminate | apply Nat.leb_le; vm_compute; reflexivity |]
  end.
  rewrite Hrun2. unfold bind at 1.
  match goal with |- context [test_time w ?n ?p ?s None 10 ?st] =>
    destruct (test_time_run w n p s None 10 st) as (st3 & Hrun3 & _ & Hlog3);
      [discriminate | apply Nat.leb_le; vm_compute; reflexivity |]
  end.
  rewrite Hrun3. unfold ret. cbn [snd].
  rewrite Hlog3, Hlog2, Hlog1. cbn [log].
  unfold test_time_actions. rewrite <- !app_assoc. reflexivity.
Qed.

Lemma solve_is_jit_check nb :
  forallb Gallery.solve_is_jitb nb = true -> Forall Gallery.solve_is_jit nb.
Proof.
  intros H. apply Forall_forall. intros a Ha.
  rewrite forallb_forall in H. apply list_elem_of_In, H in Ha.
  destruct a; simpl in *; auto.
Qed.

Lemma every_loss_solved_check nb :
  Gallery.every_loss_solved_with_jitb nb = true ->
  Gallery.every_loss_solved_with_jit nb.
Proof.
  intros H l Hl. unfold Gallery.every_loss_solved_with_jitb in H.
  rewrite forallb_forall in H. apply list_elem_of_In, H in Hl.
  unfold Gallery.solves_with_jit in Hl. apply existsb_exists in Hl.
  destruct Hl as (a & Ha & Hal).
  destruct a as [| | | |l' d [|]| | |]; try discriminate.
  apply bool_decide_eq_true_1 in Hal. subst l'.
  exists d. apply list_elem_of_In. exact Ha.
Qed.

Lemma is_sublist_sound {A} `{EqDecision A} (l1 l2 : list A) :
  is_sublist l1 l2 = true -> l1 `sublist_of` l2.
Proof.
  revert l1. induction l2 as [|b l2 IH]; intros [|a l1] H; simpl in H;
    try discriminate.
  - constructor.
  - apply sublist_nil_l.
  - case_bool_decide as E.
    + subst b. apply sublist_skip, IH, H.
    + apply sublist_cons, IH, H.
Qed.

Ltac by_sublist := apply is_sublist_sound; vm_compute; reflexivity.

Ltac by_computation :=
  match goal with
  | |- ?P => apply (bool_decide_unpack P); vm_compute; exact I
  end.

Ltac each_notebook :=
  repeat match goal with
         | |- Forall _ (_ :: _) => constructor
         | |- Forall _ [] => constructor
         end.

(** C7: every call of [solve], in every notebook, passes [jit=True], and
    every loss a notebook defines is handed to [solve] with [jit=True]; and
    whatever its arguments and its outcome, [test_time] only calls [solve]
    with [jit=True]. *)
Theorem every_solve_call_is_jit (w : world) :
  Forall (fun nb => Forall Gallery.solve_is_jit nb /\
                    Gallery.every_loss_solved_with_jit nb)
         (Gallery.notebooks w) /\
  forall n p s random_state rep,
    appends Gallery.solve_is_jit (test_time w n p s random_state rep).
Proof.
  split.
  - unfold Gallery.notebooks. rewrite abess_compare_actions.
    each_notebook;
      (split; [apply solve_is_jit_check | apply every_loss_solved_check];
       vm_compute; reflexivity).
  - intros. apply appends_test_time; intros; exact I || reflexivity.
Qed.

(** C2: at every use site the solver is constructed with the number of
    parameters of the loss as first argument and a sparsity level or range,
    [solve] is given a loss defined before, the estimate is read through
    the return value, [params] or [get_result()] after [solve], and no
    other method or attribute of the solver is used. *)
Theorem solver_used_through_interface (w : world) :
  Forall Gallery.uses_interface (Gallery.notebooks w).
Proof.
  unfold Gallery.notebooks. rewrite abess_compare_actions.
  each_notebook; unfold Gallery.uses_interface; vm_compute; reflexivity.
Qed.

Lemma quiet_world_ok : world_ok quiet_world.
Proof.
  split; cbn [quiet_world rng_choice rng_choice_distinct glm_sample].
  - intros. apply repeat_length.
  - intros seed k [|z0 pop] size z Hne Hz; [contradiction|].
    apply list_elem_of_In, repeat_spec in Hz. subst z. left.
  - intros. apply length_seq.
  - intros. apply NoDup_ListNoDup, seq_NoDup.
  - intros seed k p size j Hle Hj.
    apply list_elem_of_In, in_seq in Hj. lia.
  - reflexivity.
Qed.

(** The checker of the interface rejects a [solve] with no construction, a
    construction with another dimension, an undefined loss, a read before
    [solve] and any other use of the solver. *)
Example interface_rejects :
  Gallery.interface_run [] Gallery.NoSolver
    [DefineLoss Loss.ols_loss; Solve Loss.ols_loss 3 true] = false /\
  Gallery.interface_run [] Gallery.NoSolver
    [DefineLoss Loss.ols_loss; Construct 4 (Level 1) []; Solve Loss.ols_loss 3 true]
    = false /\
  Gallery.interface_run [] Gallery.NoSolver
    [Construct 3 (Level 1) []; Solve Loss.ols_loss 3 true] = false /\
  Gallery.interface_run [] Gallery.NoSolver
    [DefineLoss Loss.ols_loss; Construct 3 (Level 1) []; Read ParamsAttribute]
    = false /\
  Gallery.interface_run [] Gallery.NoSolver
    [DefineLoss Loss.ols_loss; Construct 3 (Level 1) [];
     Solve Loss.ols_loss 3 true; UseOther "coef_"] = false.
Proof. repeat split; vm_compute; reflexivity. Qed.

(** C1 as stated fails: the linear-regression notebook prints the squared
    error of the estimate and never the coefficients. *)
Lemma pipeline_as_stated_fails :
  ~ (forall w, Forall Gallery.pipeline_as_stated (Gallery.notebooks w)).
Proof.
  intros H. specialize (H quiet_world).
  apply Forall_inv in H. destruct H as [_ Hin].
  assert (Hn : ~ (Report (Coefficients Truth) ∈ Gallery.linear_regression))
    by (apply (bool_decide_eq_false_1
                 (Report (Coefficients Truth) ∈ Gallery.linear_regression));
        vm_compute; reflexivity).
  exact (Hn Hin).
Qed.

(** C1, amended: every notebook imports the solver, simulates data with one
    of the named simulators, then defines a loss, then hands that loss to
    [solve], then prints: the estimated coefficients, the true ones being
    printed as well, or a statistic that sets the estimate against the
    ground truth (the squared error in the linear-regression notebook, the
    table of support-recovery accuracies in the benchmark). *)
Theorem notebooks_follow_pipeline (w : world) :
  Forall Gallery.pipeline (Gallery.notebooks w).
Proof.
  unfold Gallery.notebooks. rewrite abess_compare_actions. each_notebook.
  - right. exists SquaredError. split; [|reflexivity].
    split; [by_computation|].
    exists Sim.rng_normal, Loss.ols_loss, 30%nat.
    split; [reflexivity | by_sublist].
  - left. split; [|by_computation].
    split; [by_computation|].
    exists Sim.make_multivariate_glm_data, Loss.multinomial_regression_loss, 60%nat.
    split; [reflexivity | by_sublist].
  - left. split; [|by_computation].
    split; [by_computation|].
    exists Sim.make_data, Loss.competing_risk_objective, 10%nat.
    split; [reflexivity | by_sublist].
  - left. split; [|by_computation].
    split; [by_computation|].
    exists Sim.make_Clayton2_data, Loss.multivariate_failure_objective, 10%nat.
    split; [reflexivity | by_sublist].
  - right. exists AccuracyTable. split; [|reflexivity].
    split; [by_computation|].
    exists Sim.make_glm_data, (Loss.objective Linear), 1000%nat.
    split; [reflexivity | by_sublist].
Qed.

(** * The theorems at concrete inputs *)


Lemma sample_numpy_ok : numpy_ok sample_numpy.
Proof.
  split.
  - intros x v. cbn [np_matmul sample_numpy]. apply length_map.
  - reflexivity.
  - intros a H. destruct a as [s|s| |s m e]; try discriminate H;
      destruct s; try discriminate H; reflexivity.
  - intros a b _ _ _ H. cbn [np_power sample_numpy].
    destruct (Rle_dec _ _); [reflexivity | contradiction].
Qed.

Ltac solve_draws :=
  repeat match goal with
         | |- Forall _ _ => constructor
         | |- unit_draw _ => split; reflexivity
         | |- nonneg_draw _ => reflexivity
         | |- _ => solve_shape
         end.

Lemma sample_draws_ok : make_data_draws_ok 2 1 sample_draws.
Proof.
  split; cbn [sample_draws draw_x draw_case draw_u draw_exponential draw_ctime];
    solve_draws.
Qed.

Lemma sample_clayton_draws_ok : clayton_draws_ok 2 sample_clayton_draws.
Proof.
  split; cbn [sample_clayton_draws draw_u1 draw_u2 draw_ctime1 draw_ctime2];
    solve_draws.
Qed.

Lemma simulators_censoring_invariant_witness :
  (let '(x, y, delta) :=
     make_data sample_numpy 2 [F64.of_Z 1] (F64.scaled 1 (-1)) (F64.scaled 1 (-1))
               (F64.of_Z 10) sample_draws in
   let time := make_data_time sample_numpy [F64.of_Z 1] (F64.scaled 1 (-1)) sample_draws in
   let ctime := draw_ctime sample_draws in
   shape y 2 2 /\ shape delta 2 2 /\ binary delta /\
   forall i, (i < 2)%nat ->
     fat2 y i 1 = fat1 ctime i /\
     (zat2 delta i 0 = 1%Z <-> flt (fat1 time i) (fat1 ctime i) = true) /\
     (is_nan (fat1 time i) = false ->
      is_minimum (fat2 y i 0) (fat1 time i) (fat1 ctime i) /\
      fle (fat2 y i 0) (fat2 y i 1) = true) /\
     (is_nan (fat1 time i) = true ->
      is_nan (fat2 y i 0) = true /\ zat2 delta i 0 = 0%Z)) /\
  (let '(y, delta) :=
     make_Clayton2_data sample_numpy 2 (F64.of_Z 50) [F64.of_Z 1; F64.of_Z 2]
       [F64.of_Z 10; F64.of_Z 20] (F64.of_Z 5) (F64.of_Z 5) sample_clayton_draws in
   shape y 2 2 /\ shape delta 2 2 /\ binary delta /\
   forall i k, (i < 2)%nat -> (k < 2)%nat ->
     let time := clayton_time sample_numpy (F64.of_Z 50) [F64.of_Z 1; F64.of_Z 2]
                   [F64.of_Z 10; F64.of_Z 20] sample_clayton_draws k in
     let ctime := clayton_ctime sample_clayton_draws k in
     (zat2 delta i k = 1%Z <-> flt (fat1 time i) (fat1 ctime i) = true) /\
     (is_nan (fat1 time i) = false ->
      is_minimum (fat2 y i k) (fat1 time i) (fat1 ctime i)) /\
     (is_nan (fat1 time i) = true ->
      is_nan (fat2 y i k) = true /\ zat2 delta i k = 0%Z)).
Proof.
  apply (simulators_censoring_invariant sample_numpy 2 1 [F64.of_Z 1]
           (F64.scaled 1 (-1)) (F64.scaled 1 (-1)) (F64.of_Z 10) sample_draws
           (F64.of_Z 50) [F64.of_Z 1; F64.of_Z 2] [F64.of_Z 10; F64.of_Z 20]
           (F64.of_Z 5) (F64.of_Z 5) sample_clayton_draws
           sample_numpy_ok sample_draws_ok sample_clayton_draws_ok);
    reflexivity.
Defined.

Lemma test_time_rows_witness :
  exists st',
    test_time quiet_world 4 3 2 None 2 fresh_state = (Ok tt, st') /\
    length (res st') = (6 * 2)%nat /\
    map label (res st') = concat (map (fun _ => rep_labels) (seq 0 2)) /\
    Forall (fun r => 0 <= row_accuracy r <= 1) (res st').
Proof.
  apply (test_time_rows quiet_world 4 3 2 None 2 fresh_state quiet_world_ok); lia.
Defined.

(** ** Calls of [test_time] that raise *)

(** With [s = 0] the first accuracy is [0 / 0], a ZeroDivisionError; with
    [s > p] the choice of the support raises ValueError.  No row has been
    appended in either case. *)
Example test_time_raises :
  (let out := test_time quiet_world 4 3 0 None 1 fresh_state in
   fst out = Raise ZeroDivisionError /\ res (snd out) = []) /\
  (let out := test_time quiet_world 4 3 5 None 1 fresh_state in
   fst out = Raise ValueError /\ res (snd out) = []).
Proof. repeat split; lazy; reflexivity. Qed.

(** C10 as stated fails: the call [test_time(4, 3, 0, None, 1)] raises
    ZeroDivisionError before a row is appended, so it has not appended
    6 * rep = 6 rows. *)
Lemma test_time_rows_fails_for_empty_support :
  ~ (forall w n p s random_state rep st,
       length (res (snd (test_time w n p s random_state rep st))) = (6 * rep)%nat).
Proof.
  intros H. specialize (H quiet_world 4%nat 3%nat 0%nat None 1%nat fresh_state).
  assert (E : res (snd (test_time quiet_world 4 3 0 None 1 fresh_state)) = [])
    by (lazy; reflexivity).
  rewrite E in H. discriminate H.
Qed.

(** * Further properties of the notebooks' code *)

(** ** The intercept column and the generated responses *)

Lemma with_intercept_column_row n (X : matrix) i :
  length X = n -> (i < n)%nat ->
  nth i (with_intercept_column n X) [] = 1 :: nth i X [].
Proof.
  intros HX Hi. unfold with_intercept_column, hstack, ones_column.
  rewrite (nth_zip_with_in _ _ _ _ [1] []) by (rewrite ?repeat_length; lia).
  rewrite nth_repeat_lt by lia. reflexivity.
Qed.

Lemma with_intercept_column_shape n p (X : matrix) :
  shape X n p -> shape (with_intercept_column n X) n (S p).
Proof.
  intros [HX Hrows]. unfold with_intercept_column, hstack, ones_column. split.
  - rewrite length_zip_with, repeat_length. lia.
  - apply Forall_forall. intros row Hrow.
    apply list_elem_of_lookup in Hrow. destruct Hrow as [i Hi].
    apply lookup_zip_with_Some in Hi. destruct Hi as (o & r & -> & Ho & Hr).
    apply list_elem_of_lookup_2, list_elem_of_In, repeat_spec in Ho. subst o.
    rewrite Forall_forall in Hrows.
    simpl. f_equal. apply Hrows. eapply list_elem_of_lookup_2; eauto.
Qed.

Lemma dot_cons a u b v : dot (a :: u) (b :: v) = a * b + dot u v.
Proof. reflexivity. Qed.

Lemma matvec_with_intercept_column n (X : matrix) b0 beta :
  length X = n ->
  matvec (with_intercept_column n X) (b0 :: beta) =
  map (fun t => b0 + t) (matvec X beta).
Proof.
  intros <-. unfold with_intercept_column, hstack, ones_column, matvec.
  induction X as [|row X IH]; [reflexivity|].
  simpl. rewrite IH. f_equal. rewrite dot_cons. lra.
Qed.

Lemma drop_one_at (v : vec) j : at1 (drop 1 v) j = at1 v (S j).
Proof. destruct v; [destruct j; reflexivity | reflexivity]. Qed.

(** X3: on the design matrix with the column of ones prepended,
    [ols_loss] at an estimate of length p + 1 is the mean squared error of
    the model whose intercept is [estimate[0]] and whose coefficients are
    [estimate[1:]]; the enlarged matrix has p + 1 columns, the dimension
    the notebook gives to the solver. *)
Theorem ols_loss_with_intercept_column
    (n p : nat) (X : matrix) (y estimate : vec) :
  shape X n p -> length y = n -> length estimate = S p ->
  shape (with_intercept_column n X) n (S p) /\
  ols_loss (with_intercept_column n X) y estimate =
  mean_squared_error_intercept n p X y (intercept_of estimate) (slopes_of estimate).
Proof.
  intros HX Hy He.
  pose proof (with_intercept_column_shape n p X HX) as HX'.
  split; [exact HX'|].
  rewrite (ols_loss_eq _ y estimate n (S p) HX' Hy He).
  unfold mean_squared_error, mean_squared_error_intercept. f_equal.
  apply Rsum_ext. intros i Hi. f_equal. f_equal.
  unfold matvec_at. rewrite Rsum_shift. unfold at2.
  rewrite (with_intercept_column_row n X i) by (destruct HX; assumption).
  cbn [nth]. unfold intercept_of, slopes_of. f_equal; [unfold at1; lra|].
  apply Rsum_ext. intros j Hj. rewrite drop_one_at. reflexivity.
Qed.

Lemma ols_loss_with_intercept_column_witness :
  shape (with_intercept_column 2 [[1; 2]; [3; 4]]) 2 3 /\
  ols_loss (with_intercept_column 2 [[1; 2]; [3; 4]]) [5; 6] [1; 0; 2] =
  mean_squared_error_intercept 2 2 [[1; 2]; [3; 4]] [5; 6]
    (intercept_of [1; 0; 2]) (slopes_of [1; 0; 2]).
Proof.
  apply (ols_loss_with_intercept_column 2 2 [[1; 2]; [3; 4]] [5; 6] [1; 0; 2]);
    solve_shape.
Defined.

Lemma vsub_vadd_same (m e : vec) :
  length m = length e -> vsub (vadd m e) m = e.
Proof.
  unfold vsub, vadd. revert e. induction m as [|a m IH]; intros [|b e] Hl;
    simpl in Hl; try lia; [reflexivity|].
  simpl. rewrite IH by lia. f_equal. lra.
Qed.

Lemma vsub_vadd_shifted (m e : vec) b0 :
  length m = length e ->
  vsub (vadd m e) (map (fun t => b0 + t) m) = map (fun t => t - b0) e.
Proof.
  unfold vsub, vadd. revert e. induction m as [|a m IH]; intros [|b e] Hl;
    simpl in Hl; try lia; [reflexivity|].
  simpl. rewrite IH by lia. f_equal. lra.
Qed.

Lemma drop_repeat {A} (a : A) k m : drop k (repeat a m) = repeat a (m - k).
Proof.
  revert m. induction k as [|k IH]; intros [|m]; simpl; try reflexivity.
  apply IH.
Qed.

Lemma nonzero_from_zeros k m : nonzero_from k (repeat 0 m) = [].
Proof.
  revert k. induction m as [|m IH]; intros k; [reflexivity|].
  simpl. destruct (decide (0 = 0)) as [_|Hn]; [apply IH | contradiction].
Qed.

(** X4: the responses of the linear-regression notebook are
    [y = X @ beta + noise]; at the generating [beta] the loss is the mean
    squared noise, and with the column of ones and an intercept [b0] it is
    the mean square of [noise - b0].  The generating [beta] exists for
    p >= 3 only, has length p and its support is the first three indices. *)
Theorem linear_regression_data
    (n p : nat) (X : matrix) (beta noise : vec) (b0 : R) :
  length X = n -> length noise = n ->
  ols_loss X (linear_response X beta noise) beta = mean (vsquare noise) /\
  ols_loss (with_intercept_column n X) (linear_response X beta noise) (b0 :: beta)
  = mean (vsquare (map (fun e => e - b0) noise)) /\
  (forall q, (q < 3)%nat -> linear_beta q = None) /\
  (forall q b, linear_beta q = Some b ->
     (3 <= q)%nat /\ length b = q /\ nonzero b = [0; 1; 2]%nat).
Proof.
  intros HX Hn. unfold ols_loss, linear_response. cbv zeta.
  split; [|split; [|split]].
  - rewrite vsub_vadd_same by (rewrite matvec_length; lia). reflexivity.
  - rewrite (matvec_with_intercept_column n X b0 beta HX).
    rewrite vsub_vadd_shifted by (rewrite matvec_length; lia). reflexivity.
  - intros q Hq. unfold linear_beta.
    destruct (3 <=? q)%nat eqn:E; [apply Nat.leb_le in E; lia | reflexivity].
  - intros q b Hb. unfold linear_beta in Hb.
    destruct (3 <=? q)%nat eqn:E; [|discriminate].
    apply Nat.leb_le in E. injection Hb as <-.
    split; [exact E|]. split.
    + unfold zeros. cbn [app length]. rewrite length_drop, repeat_length. lia.
    + unfold zeros. rewrite drop_repeat. unfold nonzero. simpl.
      repeat (destruct (decide _) as [Hz|_]; [exfalso; lra|]).
      rewrite nonzero_from_zeros. reflexivity.
Qed.

Lemma linear_regression_data_witness :
  ols_loss [[1; 2]; [3; 4]] (linear_response [[1; 2]; [3; 4]] [1; 1] [/ 2; / 4]) [1; 1]
  = mean (vsquare [/ 2; / 4]) /\
  ols_loss (with_intercept_column 2 [[1; 2]; [3; 4]])
    (linear_response [[1; 2]; [3; 4]] [1; 1] [/ 2; / 4]) (1 :: [1; 1])
  = mean (vsquare (map (fun e => e - 1) [/ 2; / 4])) /\
  (forall q, (q < 3)%nat -> linear_beta q = None) /\
  (forall q b, linear_beta q = Some b ->
     (3 <= q)%nat /\ length b = q /\ nonzero b = [0; 1; 2]%nat).
Proof.
  apply (linear_regression_data 2 2 [[1; 2]; [3; 4]] [1; 1] [/ 2; / 4] 1);
    reflexivity.
Defined.

(** ** The logistic objective of the benchmark *)

Lemma clip30_inside t : -30 <= t <= 30 -> clip30 t = t.
Proof.
  intros H. unfold clip30, Rmin, Rmax.
  destruct (Rle_dec t (-30)); destruct (Rle_dec _ 30); lra.
Qed.

Lemma ln_one_plus_exp c : 0 < ln (1 + exp c) /\ c < ln (1 + exp c).
Proof.
  pose proof (exp_pos c) as He. split.
  - rewrite <- ln_1. apply ln_increasing; lra.
  - rewrite <- (ln_exp c) at 1. apply ln_increasing; lra.
Qed.

Lemma bernoulli_term c y :
  - (y * ln (logistic c) + (1 - y) * ln (1 - logistic c)) =
  ln (1 + exp c) - y * c.
Proof.
  pose proof (exp_pos c) as He. unfold logistic.
  assert (Hi : 0 < / (1 + exp c)) by (apply Rinv_0_lt_compat; lra).
  unfold Rdiv. rewrite ln_mult by lra. rewrite ln_exp.
  replace (1 - exp c * / (1 + exp c)) with (/ (1 + exp c)) by (field; lra).
  rewrite ln_Rinv by lra. ring.
Qed.

Lemma bernoulli_term_nonneg c y : 0 <= y <= 1 -> 0 <= ln (1 + exp c) - y * c.
Proof.
  intros Hy. destruct (ln_one_plus_exp c) as [H0 Hc].
  destruct (Rle_dec 0 c); nra.
Qed.

Lemma logistic_objective_sum n p X y params :
  shape X n p -> length y = n -> length params = p ->
  objective Logistic X y params =
  1 / INR n *
  Rsum n (fun i =>
    ln (1 + exp (clip30 (matvec_at p X params i)))
    - at1 y i * clip30 (matvec_at p X params i)).
Proof.
  intros HX Hy Hp. pose proof (proj1 HX) as HXn.
  unfold objective, clip. cbv zeta.
  rewrite (mean_Rsum _ n)
    by (unfold vsub, vmul; repeat (rewrite length_zip_with || rewrite length_map);
        rewrite matvec_length; lia).
  f_equal. apply Rsum_ext. intros i Hi.
  unfold vsub, vmul.
  rewrite at1_zip_with
    by (repeat (rewrite length_zip_with || rewrite length_map);
        rewrite matvec_length; lia).
  rewrite at1_zip_with by (rewrite ?length_map, ?matvec_length; lia).
  rewrite !at1_map by (rewrite ?length_map, ?matvec_length; lia).
  rewrite (at1_matvec X params n p) by assumption.
  reflexivity.
Qed.

(** X5: the benchmark's objective for the task 'Logistic' is the averaged
    negative log-likelihood of Bernoulli responses with success probability
    logistic(clip(x_i . params, -30, 30)); the clipping changes nothing
    when every linear predictor lies in [-30, 30]; and the objective is not
    negative when the responses lie in [0, 1]. *)
Theorem logistic_objective_is_bernoulli_nll
    (n p : nat) (X : matrix) (y params : vec) :
  shape X n p -> length y = n -> length params = p ->
  objective Logistic X y params = bernoulli_nll n p X y params /\
  ((forall i, (i < n)%nat -> -30 <= matvec_at p X params i <= 30) ->
   objective Logistic X y params =
   1 / INR n *
   Rsum n (fun i =>
     let q := logistic (matvec_at p X params i) in
     - (at1 y i * ln q + (1 - at1 y i) * ln (1 - q)))) /\
  (Forall (fun t => 0 <= t <= 1) y -> 0 <= objective Logistic X y params).
Proof.
  intros HX Hy Hp.
  rewrite (logistic_objective_sum n p X y params HX Hy Hp).
  split; [|split].
  - unfold bernoulli_nll. f_equal. apply Rsum_ext. intros i Hi.
    cbv zeta. rewrite bernoulli_term. reflexivity.
  - intros Hin. f_equal. apply Rsum_ext. intros i Hi.
    cbv zeta. rewrite bernoulli_term, clip30_inside by (apply Hin; exact Hi).
    reflexivity.
  - intros Hy01. apply Rmult_le_pos.
    + unfold Rdiv. rewrite Rmult_1_l.
      destruct n; [simpl; rewrite Rinv_0; lra|].
      left. apply Rinv_0_lt_compat, lt_0_INR. lia.
    + apply Rsum_nonneg. intros i Hi. apply bernoulli_term_nonneg.
      rewrite Forall_forall in Hy01. apply Hy01.
      apply list_elem_of_In, nth_In. lia.
Qed.

Lemma logistic_objective_is_bernoulli_nll_witness :
  objective Logistic [[1; 2]; [3; 4]] [1; 0] [1; -1] =
  bernoulli_nll 2 2 [[1; 2]; [3; 4]] [1; 0] [1; -1] /\
  ((forall i, (i < 2)%nat -> -30 <= matvec_at 2 [[1; 2]; [3; 4]] [1; -1] i <= 30) ->
   objective Logistic [[1; 2]; [3; 4]] [1; 0] [1; -1] =
   1 / INR 2 *
   Rsum 2 (fun i =>
     let q := logistic (matvec_at 2 [[1; 2]; [3; 4]] [1; -1] i) in
     - (at1 [1; 0] i * ln q + (1 - at1 [1; 0] i) * ln (1 - q)))) /\
  (Forall (fun t => 0 <= t <= 1) [1; 0] ->
   0 <= objective Logistic [[1; 2]; [3; 4]] [1; 0] [1; -1]).
Proof.
  apply (logistic_objective_is_bernoulli_nll 2 2 [[1; 2]; [3; 4]] [1; 0] [1; -1]);
    solve_shape.
Defined.

(** ** The groups of the multinomial notebook *)

Lemma nth_flat_map_block {A B} (f : A -> list B) m l a k dA dB :
  (forall x, length (f x) = m) -> (a < length l)%nat -> (k < m)%nat ->
  nth (a * m + k) (flat_map f l) dB = nth k (f (nth a l dA)) dB.
Proof.
  intros Hf. revert a. induction l as [|x l IH]; intros a Ha Hk; simpl in Ha; [lia|].
  cbn [flat_map]. destruct a as [|a].
  - rewrite app_nth1 by (rewrite Hf; simpl; lia). reflexivity.
  - rewrite app_nth2 by (rewrite Hf; simpl; lia).
    rewrite Hf. replace (S a * m + k - m)%nat with (a * m + k)%nat by (simpl; lia).
    apply IH; lia.
Qed.

Lemma length_flat_map_block {A B} (f : A -> list B) m l :
  (forall x, length (f x) = m) -> length (flat_map f l) = (length l * m)%nat.
Proof.
  intros Hf. induction l as [|x l IH]; [reflexivity|].
  cbn [flat_map]. rewrite length_app, Hf, IH. simpl. lia.
Qed.

(** X6: the [group] list given to the solver has one entry per parameter
    and puts the flat index j in group j // m, the row to which
    [params.reshape((p, m))] sends it: the groups are the predictors. *)
Theorem group_is_row_of_reshape (p m : nat) (params : vec) (j : nat) :
  (j < p * m)%nat ->
  length (group p m) = (p * m)%nat /\
  nth j (group p m) O = (j / m)%nat /\
  at2 (reshape p m params) (nth j (group p m) O) (j mod m) = at1 params j.
Proof.
  intros Hj.
  assert (Hm : (0 < m)%nat) by (destruct m; lia).
  assert (Hlen : forall i : nat, length (map (fun _ : nat => i) (seq 0 m)) = m)
    by (intros; rewrite length_map, length_seq; reflexivity).
  assert (Hdiv : (j / m < p)%nat) by (apply Nat.Div0.div_lt_upper_bound; lia).
  assert (Hmod : (j mod m < m)%nat) by (apply Nat.mod_upper_bound; lia).
  assert (Hj' : j = (j / m * m + j mod m)%nat)
    by (rewrite Nat.mul_comm; apply Nat.div_mod_eq).
  assert (Hg : nth j (group p m) O = (j / m)%nat).
  { unfold group. rewrite Hj' at 1.
    rewrite (nth_flat_map_block _ m _ _ _ O O Hlen) by (rewrite ?length_seq; lia).
    rewrite (nth_map_in _ _ _ O) by (rewrite length_seq; lia).
    apply nth_seq_in. exact Hdiv. }
  split; [|split].
  - unfold group. rewrite (length_flat_map_block _ m _ Hlen), length_seq. reflexivity.
  - exact Hg.
  - rewrite Hg, at2_reshape by assumption. rewrite <- Hj'. reflexivity.
Qed.

Lemma group_is_row_of_reshape_witness :
  length (group 2 3) = (2 * 3)%nat /\
  nth 4 (group 2 3) O = (4 / 3)%nat /\
  at2 (reshape 2 3 [1; 2; 3; 4; 5; 6]) (nth 4 (group 2 3) O) (4 mod 3)
  = at1 [1; 2; 3; 4; 5; 6] 4.
Proof. apply (group_is_row_of_reshape 2 3 [1; 2; 3; 4; 5; 6] 4). lia. Defined.

(** ** The censoring rate that the simulators print *)

Lemma zsum_from a d : foldl Z.add a d = (a + zsum d)%Z.
Proof.
  unfold zsum. revert a. induction d as [|z d IH]; intros a; simpl; [lia|].
  rewrite (IH (a + z)%Z), (IH (0 + z)%Z). lia.
Qed.

Lemma zsum_cons z d : zsum (z :: d) = (z + zsum d)%Z.
Proof. unfold zsum at 1. simpl. apply zsum_from. Qed.

Lemma zsum_times_one mask :
  (0 <= zsum (times_one mask) <= Z.of_nat (length mask))%Z /\
  (zsum (times_one mask) = Z.of_nat (length mask) <-> Forall (fun c => c = true) mask) /\
  (zsum (times_one mask) = 0%Z <-> Forall (fun c => c = false) mask).
Proof.
  induction mask as [|c mask (IH1 & IH2 & IH3)].
  - cbn. repeat split; intros; try constructor; lia.
  - change (times_one (c :: mask))
      with ((if c then 1%Z else 0%Z) :: times_one mask).
    rewrite zsum_cons. cbn [length]. rewrite Nat2Z.inj_succ.
    destruct c; (split; [lia|split; split; intros H]).
    + constructor; [reflexivity|]. apply IH2. lia.
    + inversion H; subst. apply IH2 in H3. lia.
    + lia.
    + inversion H; subst. discriminate.
    + lia.
    + inversion H; subst. discriminate.
    + constructor; [reflexivity|]. apply IH3. lia.
    + inversion H; subst. apply IH3 in H3. lia.
Qed.

Lemma lt_elem_all (b : bool) (time ctime : vec) n :
  length time = n -> length ctime = n ->
  Forall (fun c => c = b) (lt_elem time ctime) <->
  forall i, (i < n)%nat -> Rltb (at1 time i) (at1 ctime i) = b.
Proof.
  intros Ht Hc. unfold lt_elem, at1. split.
  - intros H i Hi. rewrite Forall_forall in H.
    rewrite <- (nth_zip_with_in Rltb time ctime i 0 0 false) by lia.
    apply H, list_elem_of_In, nth_In. rewrite length_zip_with. lia.
  - intros H. apply Forall_forall. intros c Hin.
    apply list_elem_of_In, (In_nth _ _ false) in Hin.
    destruct Hin as (i & Hi & <-). rewrite length_zip_with in Hi.
    rewrite (nth_zip_with_in Rltb time ctime i 0 0 false) by lia.
    apply H. lia.
Qed.

(** X15: the censoring rate [1 - sum(delta) / n] computed by [make_data]
    and [make_Clayton2_data] from n >= 1 failure and censoring times lies
    in [0, 1]; it is 0 exactly when every failure time is below its
    censoring time, and 1 exactly when none is. *)
Theorem censoringrate_bounds (n : nat) (time ctime : vec) :
  (1 <= n)%nat -> length time = n -> length ctime = n ->
  0 <= censoringrate n time ctime <= 1 /\
  (censoringrate n time ctime = 0 <->
   forall i, (i < n)%nat -> at1 time i < at1 ctime i) /\
  (censoringrate n time ctime = 1 <->
   forall i, (i < n)%nat -> ~ at1 time i < at1 ctime i).
Proof.
  intros Hn Ht Hc. unfold censoringrate. cbv zeta.
  destruct (zsum_times_one (lt_elem time ctime)) as (Hb & Hall & Hnone).
  assert (Hlen : length (lt_elem time ctime) = n)
    by (unfold lt_elem; rewrite length_zip_with; lia).
  rewrite Hlen in Hb, Hall.
  set (k := zsum (times_one (lt_elem time ctime))) in *.
  assert (Hpos : 0 < INR n) by (apply lt_0_INR; lia).
  assert (Hk : 0 <= IZR k <= INR n).
  { rewrite INR_IZR_INZ. split; [apply (IZR_le 0) | apply IZR_le]; lia. }
  assert (Hq : 0 <= IZR k / INR n <= 1).
  { split.
    - apply Rmult_le_pos; [lra | left; apply Rinv_0_lt_compat; exact Hpos].
    - apply (Rmult_le_reg_r (INR n)); [exact Hpos|].
      replace (IZR k / INR n * INR n) with (IZR k) by (field; lra). lra. }
  split; [lra|split].
  - assert (E : (forall i, (i < n)%nat -> at1 time i < at1 ctime i) <->
                (forall i, (i < n)%nat -> Rltb (at1 time i) (at1 ctime i) = true)).
    { split; intros H i Hi; specialize (H i Hi);
        rewrite Rltb_decide in *; [apply bool_decide_eq_true_2 |
                                   apply bool_decide_eq_true_1 in H]; assumption. }
    rewrite E, <- (lt_elem_all true time ctime n Ht Hc), <- Hall.
    split; intros H.
    + assert (IZR k = INR n).
      { replace (IZR k) with (IZR k / INR n * INR n) by (field; lra).
        replace (IZR k / INR n) with 1 by lra. lra. }
      rewrite INR_IZR_INZ in H0. apply eq_IZR. exact H0.
    + rewrite H, <- INR_IZR_INZ. field. lra.
  - assert (E : (forall i, (i < n)%nat -> ~ at1 time i < at1 ctime i) <->
                (forall i, (i < n)%nat -> Rltb (at1 time i) (at1 ctime i) = false)).
    { split; intros H i Hi; specialize (H i Hi);
        rewrite Rltb_decide in *; [apply bool_decide_eq_false_2 |
                                   apply bool_decide_eq_false_1 in H]; assumption. }
    rewrite E, <- (lt_elem_all false time ctime n Ht Hc), <- Hnone.
    split; intros H.
    + assert (IZR k = 0).
      { replace (IZR k) with (IZR k / INR n * INR n) by (field; lra).
        replace (IZR k / INR n) with 0 by lra. lra. }
      apply eq_IZR. exact H0.
    + rewrite H. unfold Rdiv. lra.
Qed.

Lemma censoringrate_bounds_witness :
  0 <= censoringrate 2 [1; 3] [2; 1] <= 1 /\
  (censoringrate 2 [1; 3] [2; 1] = 0 <->
   forall i, (i < 2)%nat -> at1 [1; 3] i < at1 [2; 1] i) /\
  (censoringrate 2 [1; 3] [2; 1] = 1 <->
   forall i, (i < 2)%nat -> ~ at1 [1; 3] i < at1 [2; 1] i).
Proof.
  apply (censoringrate_bounds 2 [1; 3] [2; 1]); [lia | reflexivity | reflexivity].
Defined.

(** ** The outcome of a call of [test_time] *)

Lemma test_time_empty_support_run w n p random_state r st :
  exists st',
    test_time w n p 0 random_state (S r) st = (Raise ZeroDivisionError, st') /\
    res st' = [] /\ glm_calls st' = S (glm_calls st) /\ ticks st' = S (S (ticks st)) /\
    log st' = log st ++ [Report Other; Simulate Sim.make_glm_data;
                         DefineLoss (Loss.objective Linear);
                         Construct p (Level 0) []].
Proof.
  eexists. split.
  - unfold test_time. cbn [seq for_each].
    lazy beta iota zeta delta
      [bind emit new_frame rep_pass default_rng choice_distinct rng_advance
       for_each task_pass choice make_glm_data time true_divide raise ret
       Nat.leb Nat.eqb fst snd res rng glm_calls ticks log].
    reflexivity.
  - cbn [res glm_calls ticks log]. rewrite <- !app_assoc. repeat split.
Qed.

Lemma test_time_large_support_run w n p s random_state r st :
  (p < s)%nat ->
  exists st',
    test_time w n p s random_state (S r) st = (Raise ValueError, st') /\
    res st' = [] /\ glm_calls st' = glm_calls st /\ ticks st' = ticks st /\
    log st' = log st ++ [Report Other].
Proof.
  intros Hs. apply Nat.leb_gt in Hs. eexists. split.
  - unfold test_time. cbn [seq for_each].
    unfold rep_pass, choice_distinct. rewrite Hs.
    lazy beta iota zeta delta
      [bind emit new_frame default_rng rng_advance raise ret
       fst snd res rng glm_calls ticks log].
    reflexivity.
  - cbn [res glm_calls ticks log]. repeat split.
Qed.

(** X16: the outcome of a call [test_time(n, p, s, random_state, rep)]
    with rep >= 1, when the calls of the libraries return: it raises
    ZeroDivisionError when s = 0, returns when 1 <= s <= p, and raises
    ValueError when s > p.  When it raises, [res] holds no row, the call
    has not run the solver, and for s > p it has not generated a
    dataset. *)
Theorem test_time_outcome
    (w : world) (n p s : nat) (random_state : option nat) (rep : nat)
    (st : bench_state) :
  (1 <= rep)%nat ->
  fst (test_time w n p s random_state rep st) =
    (if (s =? 0)%nat then Raise ZeroDivisionError
     else if (s <=? p)%nat then Ok tt
     else Raise ValueError) /\
  (forall e, fst (test_time w n p s random_state rep st) = Raise e ->
     res (snd (test_time w n p s random_state rep st)) = [] /\
     (forall l q j,
        Solve l q j ∈ log (snd (test_time w n p s random_state rep st)) ->
        Solve l q j ∈ log st) /\
     (e = ValueError ->
      glm_calls (snd (test_time w n p s random_state rep st)) = glm_calls st)).
Proof.
  intros Hrep. destruct rep as [|r]; [lia|]. destruct s as [|s'].
  - cbn [Nat.eqb].
    destruct (test_time_empty_support_run w n p random_state r st)
      as (st' & -> & Hres & Hg & _ & Hlog).
    cbn [fst snd]. split; [reflexivity|].
    intros e He. split; [exact Hres|split].
    + intros l q j H. rewrite Hlog in H.
      apply elem_of_app in H. destruct H as [H|H]; [exact H|].
      repeat (apply elem_of_cons in H; destruct H as [H|H]; [discriminate|]).
      inversion H.
    + intros ->. discriminate.
  - cbn [Nat.eqb]. destruct (Nat.leb_spec (S s') p) as [Hle|Hgt].
    + destruct (test_time_run w n p (S s') random_state (S r) st)
        as (st' & -> & _); [lia | exact Hle |].
      cbn [fst]. split; [reflexivity|]. intros e He. discriminate.
    + destruct (test_time_large_support_run w n p (S s') random_state r st Hgt)
        as (st' & -> & Hres & Hg & _ & Hlog).
      cbn [fst snd]. split; [reflexivity|].
      intros e He. split; [exact Hres|split].
      * intros l q j H. rewrite Hlog in H.
        apply elem_of_app in H. destruct H as [H|H]; [exact H|].
        apply elem_of_cons in H; destruct H as [H|H]; [discriminate|].
        inversion H.
      * intros _. exact Hg.
Qed.

Lemma test_time_outcome_witness :
  fst (test_time quiet_world 4 3 5 None 1 fresh_state) =
    (if (5 =? 0)%nat then Raise ZeroDivisionError
     else if (5 <=? 3)%nat then Ok tt
     else Raise ValueError) /\
  (forall e, fst (test_time quiet_world 4 3 5 None 1 fresh_state) = Raise e ->
     res (snd (test_time quiet_world 4 3 5 None 1 fresh_state)) = [] /\
     (forall l q j,
        Solve l q j ∈ log (snd (test_time quiet_world 4 3 5 None 1 fresh_state)) ->
        Solve l q j ∈ log fresh_state) /\
     (e = ValueError ->
      glm_calls (snd (test_time quiet_world 4 3 5 None 1 fresh_state))
        = glm_calls fresh_state)).
Proof.
  apply (test_time_outcome quiet_world 4 3 5 None 1 fresh_state). lia.
Defined.

(** ** What the accuracy of a row measures *)

Lemma ratio_one_iff (k s : nat) : (1 <= s)%nat -> INR k / INR s = 1 <-> k = s.
Proof.
  intros Hs. assert (0 < INR s) by (apply lt_0_INR; lia). split.
  - intros H1. apply INR_eq.
    replace (INR k) with (INR k / INR s * INR s) by (field; lra). rewrite H1. lra.
  - intros ->. field. lra.
Qed.

Lemma ratio_zero_iff (k s : nat) : (1 <= s)%nat -> INR k / INR s = 0 <-> k = O.
Proof.
  intros Hs. assert (0 < INR s) by (apply lt_0_INR; lia). split.
  - intros H0. apply INR_eq.
    replace (INR k) with (INR k / INR s * INR s) by (field; lra). rewrite H0.
    simpl. lra.
  - intros ->. simpl. unfold Rdiv. lra.
Qed.

(** X17: the accuracy recorded in a row, for a support of s >= 1 distinct
    indices, is 1 exactly when the estimate is non-zero at every index of
    the support, however many other entries are non-zero, and 0 exactly
    when it is non-zero at none of them. *)
Theorem accuracy_extremes (estimate : vec) (T : list nat) (s : nat) :
  (1 <= s)%nat -> NoDup T -> length T = s ->
  (accuracy estimate T s = 1 <->
   forall j, j ∈ T -> (j < length estimate)%nat /\ at1 estimate j <> 0) /\
  (accuracy estimate T s = 0 <->
   forall j, j ∈ T -> (j < length estimate)%nat -> at1 estimate j = 0).
Proof.
  intros Hs Hnd Hlen. unfold accuracy, common.
  assert (HT : size (list_to_set T : gset nat) = s)
    by (rewrite size_list_to_set by exact Hnd; exact Hlen).
  set (N := list_to_set (nonzero estimate) : gset nat).
  set (T' := list_to_set T : gset nat) in *.
  assert (Hin : forall j, j ∈ N <-> (j < length estimate)%nat /\ at1 estimate j <> 0).
  { intros j. unfold N. rewrite elem_of_list_to_set. apply nonzero_spec. }
  assert (HinT : forall j, j ∈ T' <-> j ∈ T).
  { intros j. unfold T'. apply elem_of_list_to_set. }
  clearbody N T'. split.
  - rewrite ratio_one_iff by exact Hs. split.
    + intros Hsize j Hj. apply Hin.
      assert (E : N ∩ T' = T').
      { apply set_subseteq_size_eq; [apply intersection_subseteq_r | lia]. }
      apply HinT in Hj. rewrite <- E in Hj.
      apply elem_of_intersection in Hj. apply Hj.
    + intros Hall. rewrite <- HT. f_equal. apply leibniz_equiv.
      intros j. split.
      * intros H. apply elem_of_intersection in H. apply H.
      * intros Hj. apply elem_of_intersection. split; [|exact Hj].
        apply Hin, Hall, HinT, Hj.
  - rewrite ratio_zero_iff by exact Hs. rewrite size_empty_iff. split.
    + intros Hempty j Hj Hlt.
      destruct (decide (at1 estimate j = 0)) as [E|E]; [exact E|].
      exfalso. assert (j ∈ N ∩ T') as Hboth.
      { apply elem_of_intersection. split; [apply Hin; split; assumption|].
        apply HinT, Hj. }
      exact (not_elem_of_empty j (proj1 (Hempty j) Hboth)).
    + intros Hnone j. split.
      * intros Hj.
        apply elem_of_intersection in Hj. destruct Hj as [HN HT'].
        apply Hin in HN. destruct HN as [Hlt Hne].
        exfalso. apply Hne, Hnone; [apply HinT, HT' | exact Hlt].
      * intros H. exfalso. exact (not_elem_of_empty j H).
Qed.

Lemma accuracy_extremes_witness :
  (accuracy [0; 2; 0; 5] [1; 3]%nat 2 = 1 <->
   forall j, j ∈ [1; 3]%nat ->
     (j < length [0; 2; 0; 5])%nat /\ at1 [0; 2; 0; 5] j <> 0) /\
  (accuracy [0; 2; 0; 5] [1; 3]%nat 2 = 0 <->
   forall j, j ∈ [1; 3]%nat ->
     (j < length [0; 2; 0; 5])%nat -> at1 [0; 2; 0; 5] j = 0).
Proof.
  apply (accuracy_extremes [0; 2; 0; 5] [1; 3]%nat 2);
    [lia | | reflexivity].
  constructor; [|constructor; [|constructor]]; intros H.
  - apply elem_of_cons in H. destruct H as [H|H]; [discriminate | inversion H].
  - inversion H.
Defined.

(** ** The coefficients that generate the benchmark's data *)

Lemma assign_at_all (P : R -> Prop) idx values a i :
  length idx = length values -> Forall P values ->
  (i < length a)%nat -> (i ∈ idx \/ P (at1 a i)) ->
  P (at1 (assign_at idx values a) i).
Proof.
  revert values a. induction idx as [|j idx IH]; intros [|v values] a Hl Hv Hi Hor;
    simpl in Hl; try lia.
  - destruct Hor as [Hin|Hp]; [inversion Hin | exact Hp].
  - rewrite assign_at_cons. inversion Hv as [|? ? Hv0 Hvs]; subst.
    apply IH; [lia | exact Hvs | rewrite length_insert; exact Hi |].
    rewrite at1_insert. destruct (decide (i = j /\ (j < length a)%nat)) as [_|Hn].
    + right. exact Hv0.
    + destruct Hor as [Hin|Hp]; [|right; exact Hp].
      apply elem_of_cons in Hin. destruct Hin as [->|Hin]; [|left; exact Hin].
      exfalso. apply Hn. split; [reflexivity | exact Hi].
Qed.

Lemma drawn_values_in w i k k' t s :
  world_ok w ->
  Forall (fun v => exists m sg : Z,
            m ∈ [1; 2; 3]%Z /\ sg ∈ signs_of t /\ v = IZR (m * sg))
    (of_ints (zmul (rng_choice w i k [1; 2; 3]%Z s)
                   (rng_choice w i k' (signs_of t) s))).
Proof.
  intros Hw. unfold of_ints, zmul.
  apply Forall_forall. intros v Hv.
  apply list_elem_of_In, in_map_iff in Hv. destruct Hv as (z & <- & Hz).
  apply list_elem_of_In, list_elem_of_lookup in Hz. destruct Hz as [j Hj].
  apply lookup_zip_with_Some in Hj. destruct Hj as (m & sg & -> & Hm & Hsg).
  apply list_elem_of_lookup_2, (rng_choice_in w Hw) in Hm; [|discriminate].
  apply list_elem_of_lookup_2, (rng_choice_in w Hw) in Hsg;
    [|destruct t; discriminate].
  exists m, sg. repeat split; assumption.
Qed.

Lemma drawn_coef_value w p s i k t prev j :
  world_ok w -> (s <= p)%nat -> length prev = p ->
  j ∈ true_support w p s i ->
  exists m sg : Z,
    m ∈ [1; 2; 3]%Z /\ sg ∈ signs_of t /\
    at1 (drawn_coef w p s i k t prev) j = IZR (m * sg).
Proof.
  intros Hw Hsp Hlen Hin. unfold drawn_coef.
  destruct (drawn_values w i k (S k) t s Hw) as [Hvl _].
  assert (HT : length (true_support w p s i) = s)
    by (apply (rng_choice_distinct_length w Hw); exact Hsp).
  assert (Hj : (j < p)%nat)
    by (eapply (rng_choice_distinct_in w Hw); [exact Hsp | exact Hin]).
  apply (assign_at_all
           (fun v => exists m sg : Z,
              m ∈ [1; 2; 3]%Z /\ sg ∈ signs_of t /\ v = IZR (m * sg)));
    [congruence | apply drawn_values_in; exact Hw | lia | left; exact Hin].
Qed.

(** X18: for libraries that honour their contracts and s <= p, the
    coefficient array that [test_time] passes to [make_glm_data] in any
    repetition and task has length p, is 0 outside [true_support_set], and
    on it holds a magnitude drawn from {1, 2, 3} times a sign drawn from
    the task's signs; so every entry lies in [-3, 3], and for the task
    'Non-Neg' no entry is negative, although the array is the one the task
    'Linear' wrote to. *)
Theorem true_coefficients (w : world) (p s i : nat) (t : task) (j : nat) :
  world_ok w -> (s <= p)%nat -> (j < p)%nat ->
  length (coef_for w p s i t) = p /\
  (j ∉ true_support w p s i -> at1 (coef_for w p s i t) j = 0) /\
  (j ∈ true_support w p s i ->
   exists m sg : Z,
     m ∈ [1; 2; 3]%Z /\ sg ∈ signs_of t /\
     at1 (coef_for w p s i t) j = IZR (m * sg)) /\
  -3 <= at1 (coef_for w p s i t) j <= 3 /\
  (t = NonNeg -> 0 <= at1 (coef_for w p s i t) j).
Proof.
  intros Hw Hsp Hj.
  destruct (zeros_supported (true_support w p s i) p) as [L0 S0].
  destruct (drawn_coef_support w p s i 1 Linear _ Hw Hsp L0 S0) as (L1 & S1 & _).
  destruct (drawn_coef_support w p s i 3 NonNeg _ Hw Hsp L1 S1) as (L2 & S2 & _).
  destruct (drawn_coef_support w p s i 5 Logistic _ Hw Hsp L2 S2) as (L3 & S3 & _).
  assert (Hlen : length (coef_for w p s i t) = p) by (destruct t; assumption).
  assert (Hout : j ∉ true_support w p s i -> at1 (coef_for w p s i t) j = 0).
  { intros Hn. destruct t; [apply S1 | apply S2 | apply S3]; exact Hn. }
  assert (Hval : j ∈ true_support w p s i ->
                 exists m sg : Z,
                   m ∈ [1; 2; 3]%Z /\ sg ∈ signs_of t /\
                   at1 (coef_for w p s i t) j = IZR (m * sg)).
  { intros Hin. destruct t; unfold coef_for; cbv zeta;
      apply drawn_coef_value; assumption. }
  split; [exact Hlen|]. split; [exact Hout|]. split; [exact Hval|].
  destruct (decide (j ∈ true_support w p s i)) as [Hin|Hn].
  - destruct (Hval Hin) as (m & sg & Hm & Hsg & ->).
    assert (1 <= m <= 3)%Z by (set_unfold; lia).
    split.
    + assert (sg = 1 \/ sg = -1)%Z as Hs' by (destruct t; set_unfold; lia).
      split; [apply (IZR_le (-3)) | apply (IZR_le _ 3)]; nia.
    + intros ->. assert (sg = 1)%Z as -> by (set_unfold; lia).
      apply (IZR_le 0). lia.
  - rewrite (Hout Hn). split; [lra | intros _; lra].
Qed.

Lemma true_coefficients_witness :
  length (coef_for quiet_world 3 2 0 NonNeg) = 3%nat /\
  (1%nat ∉ true_support quiet_world 3 2 0 ->
   at1 (coef_for quiet_world 3 2 0 NonNeg) 1 = 0) /\
  (1%nat ∈ true_support quiet_world 3 2 0 ->
   exists m sg : Z,
     m ∈ [1; 2; 3]%Z /\ sg ∈ signs_of NonNeg /\
     at1 (coef_for quiet_world 3 2 0 NonNeg) 1 = IZR (m * sg)) /\
  -3 <= at1 (coef_for quiet_world 3 2 0 NonNeg) 1 <= 3 /\
  (NonNeg = NonNeg -> 0 <= at1 (coef_for quiet_world 3 2 0 NonNeg) 1).
Proof.
  apply (true_coefficients quiet_world 3 2 0 NonNeg 1 quiet_world_ok); lia.
Defined.

(** ** Clock readings and datasets of a run *)

Lemma test_time_run_counts w n p s random_state rep st :
  s <> O -> (s <= p)%nat ->
  exists st',
    test_time w n p s random_state rep st = (Ok tt, st') /\
    res st' = concat (map (rep_rows w n p s (glm_calls st) (ticks st)) (seq 0 rep)) /\
    glm_calls st' = (glm_calls st + 3 * rep)%nat /\
    ticks st' = (ticks st + 12 * rep)%nat.
Proof.
  intros Hs Hp. unfold test_time, new_frame, emit.
  unfold bind at 1. unfold bind at 1.
  destruct (rep_loop_run w n p s rep
              {| res := []; rng := rng st; glm_calls := glm_calls st;
                 ticks := ticks st; log := log st ++ [Report Other] |} Hs Hp)
    as (st1 & Hrun & Hres & Hg & Hc & _).
  cbn [res rng glm_calls ticks log] in *.
  unfold bind at 1. rewrite Hrun.
  eexists. split; [reflexivity|]. cbn [res glm_calls ticks].
  rewrite Hres, Hg, Hc. repeat split.
Qed.

Lemma rep_rows_times w n p s g c i :
  (forall a b, (a <= b)%nat -> clock w a <= clock w b) ->
  Forall (fun r => 0 <= row_time r) (rep_rows w n p s g c i).
Proof.
  intros Hmono. unfold rep_rows, task_rows, scored. cbv zeta.
  repeat (apply Forall_app; split);
    (constructor; [|constructor; [|constructor]]); cbn [row_time];
    match goal with
    | |- 0 <= clock w (S ?a) - clock w ?a =>
        specialize (Hmono a (S a) ltac:(lia)); lra
    end.
Qed.

(** X19: when the calls of the libraries return, a call of [test_time]
    with 1 <= s <= p reads the clock 12 * rep times and generates 3 * rep
    datasets, one per task and repetition, which both methods share; each
    recorded time is the difference of two successive readings, so with a
    clock that never goes back no recorded time is negative. *)
Theorem test_time_clock_and_datasets
    (w : world) (n p s : nat) (random_state : option nat) (rep : nat)
    (st : bench_state) :
  (1 <= s)%nat -> (s <= p)%nat ->
  ticks (snd (test_time w n p s random_state rep st)) = (ticks st + 12 * rep)%nat /\
  glm_calls (snd (test_time w n p s random_state rep st))
    = (glm_calls st + 3 * rep)%nat /\
  Forall (fun r => exists c, (ticks st <= c < ticks st + 12 * rep)%nat /\
                             row_time r = clock w (S c) - clock w c)
    (res (snd (test_time w n p s random_state rep st))) /\
  ((forall a b, (a <= b)%nat -> clock w a <= clock w b) ->
   Forall (fun r => 0 <= row_time r)
     (res (snd (test_time w n p s random_state rep st)))).
Proof.
  intros Hs Hp.
  destruct (test_time_run_counts w n p s random_state rep st)
    as (st' & -> & Hres & Hg & Hc); [lia | exact Hp |].
  cbn [snd]. rewrite Hres. split; [exact Hc|]. split; [exact Hg|]. split.
  - apply Forall_concat, Forall_forall. intros rows Hrows.
    apply list_elem_of_In, in_map_iff in Hrows. destruct Hrows as (i & <- & Hi).
    apply in_seq in Hi.
    unfold rep_rows, task_rows, scored. cbv zeta.
    repeat (apply Forall_app; split);
      (constructor; [|constructor; [|constructor]]); cbn [row_time task_number];
      eexists; (split; [|reflexivity]); lia.
  - intros Hmono. apply Forall_concat, Forall_forall. intros rows Hrows.
    apply list_elem_of_In, in_map_iff in Hrows. destruct Hrows as (i & <- & _).
    apply rep_rows_times. exact Hmono.
Qed.

Lemma test_time_clock_and_datasets_witness :
  ticks (snd (test_time quiet_world 4 3 2 None 1 fresh_state))
    = (ticks fresh_state + 12 * 1)%nat /\
  glm_calls (snd (test_time quiet_world 4 3 2 None 1 fresh_state))
    = (glm_calls fresh_state + 3 * 1)%nat /\
  Forall (fun r => exists c, (ticks fresh_state <= c < ticks fresh_state + 12 * 1)%nat /\
                             row_time r = clock quiet_world (S c) - clock quiet_world c)
    (res (snd (test_time quiet_world 4 3 2 None 1 fresh_state))) /\
  ((forall a b, (a <= b)%nat -> clock quiet_world a <= clock quiet_world b) ->
   Forall (fun r => 0 <= row_time r)
     (res (snd (test_time quiet_world 4 3 2 None 1 fresh_state)))).
Proof.
  apply (test_time_clock_and_datasets quiet_world 4 3 2 None 1 fresh_state); lia.
Defined.

(** ** The variables that the multinomial notebook reports as selected *)

Lemma group_entry p m j :
  (j < p * m)%nat -> nth j (group p m) O = (j / m)%nat.
Proof.
  intros Hj.
  assert (Hm : (0 < m)%nat) by (destruct m; lia).
  assert (Hlen : forall i : nat, length (map (fun _ : nat => i) (seq 0 m)) = m)
    by (intros; rewrite length_map, length_seq; reflexivity).
  assert (Hdiv : (j / m < p)%nat) by (apply Nat.Div0.div_lt_upper_bound; lia).
  assert (Hmod : (j mod m < m)%nat) by (apply Nat.mod_upper_bound; lia).
  assert (Hj' : j = (j / m * m + j mod m)%nat)
    by (rewrite Nat.mul_comm; apply Nat.div_mod_eq).
  unfold group. rewrite Hj' at 1.
  rewrite (nth_flat_map_block _ m _ _ _ O O Hlen) by (rewrite ?length_seq; lia).
  rewrite (nth_map_in _ _ _ O) by (rewrite length_seq; lia).
  apply nth_seq_in. exact Hdiv.
Qed.

Lemma nonzero_rows_from_spec k M a :
  a ∈ nonzero_rows_from k M <->
  exists i, a = (k + i)%nat /\ (i < length M)%nat /\
            exists c, (c < length (nth i M []))%nat /\ at2 M i c <> 0.
Proof.
  revert k. induction M as [|row M IH]; intros k; cbn [nonzero_rows_from].
  - split; [intros H; inversion H | intros (i & _ & Hi & _); simpl in Hi; lia].
  - rewrite elem_of_app, IH. split.
    + intros [H|(i & -> & Hi & c & Hc & Hne)].
      * apply list_elem_of_In, in_map_iff in H. destruct H as (c & <- & Hc).
        apply list_elem_of_In, nonzero_spec in Hc.
        exists O. split; [lia|]. split; [simpl; lia|].
        exists c. exact Hc.
      * exists (S i). split; [lia|]. split; [simpl; lia|].
        exists c. split; assumption.
    + intros ([|i] & -> & Hi & c & Hc & Hne).
      * left. apply list_elem_of_In, in_map_iff. exists c.
        split; [lia|]. apply list_elem_of_In, nonzero_spec. split; assumption.
      * right. exists i. split; [lia|]. split; [simpl in Hi; lia|].
        exists c. split; assumption.
Qed.

Lemma reshape_row_length p m params a :
  length params = (p * m)%nat -> (a < p)%nat ->
  length (nth a (reshape p m params) []) = m.
Proof.
  intros Hlen Ha. unfold reshape.
  rewrite (nth_map_in _ _ _ O) by (rewrite length_seq; exact Ha).
  rewrite nth_seq_in by exact Ha. cbn [Nat.add].
  rewrite length_take, length_drop. nia.
Qed.

(** X20: the set of estimated variables that the multinomial notebook
    prints, [set(np.nonzero(solver.params.reshape((p, m)))[0])], holds the
    predictor a exactly when one of its m parameters is non-zero; it is the
    set of the groups, as given to the solver, of the non-zero
    parameters. *)
Theorem estimated_variables_are_selected_groups
    (p m : nat) (params : vec) (a : nat) :
  length params = (p * m)%nat ->
  (a ∈ nonzero_rows (reshape p m params) <->
   (a < p)%nat /\ exists k, (k < m)%nat /\ at1 params (a * m + k) <> 0) /\
  (a ∈ nonzero_rows (reshape p m params) <->
   exists j, j ∈ nonzero params /\ nth j (group p m) O = a).
Proof.
  intros Hlen.
  assert (H1 : a ∈ nonzero_rows (reshape p m params) <->
               (a < p)%nat /\ exists k, (k < m)%nat /\ at1 params (a * m + k) <> 0).
  { unfold nonzero_rows. rewrite nonzero_rows_from_spec, reshape_length. split.
    - intros (i & -> & Hi & c & Hc & Hne). cbn [Nat.add].
      rewrite reshape_row_length in Hc by assumption.
      rewrite at2_reshape in Hne by assumption.
      split; [exact Hi|]. exists c. split; assumption.
    - intros (Ha & k & Hk & Hne). exists a. split; [reflexivity|].
      split; [exact Ha|]. exists k.
      rewrite reshape_row_length, at2_reshape by assumption.
      split; assumption. }
  split; [exact H1|]. rewrite H1. split.
  - intros (Ha & k & Hk & Hne). exists (a * m + k)%nat.
    assert (Hj : (a * m + k < p * m)%nat) by nia.
    split; [apply nonzero_spec; split; [lia | exact Hne]|].
    rewrite group_entry by exact Hj.
    rewrite Nat.div_add_l by lia. rewrite Nat.div_small by exact Hk. lia.
  - intros (j & Hj & <-). apply nonzero_spec in Hj. destruct Hj as [Hj Hne].
    rewrite Hlen in Hj. rewrite group_entry by exact Hj.
    assert (Hm : (0 < m)%nat) by (destruct m; lia).
    split; [apply Nat.Div0.div_lt_upper_bound; lia|].
    exists (j mod m)%nat. split; [apply Nat.mod_upper_bound; lia|].
    replace (j / m * m + j mod m)%nat with j
      by (rewrite (Nat.div_mod_eq j m) at 1; lia).
    exact Hne.
Qed.

Lemma estimated_variables_are_selected_groups_witness :
  (1%nat ∈ nonzero_rows (reshape 2 3 [0; 0; 0; 0; 5; 0]) <->
   (1 < 2)%nat /\ exists k, (k < 3)%nat /\ at1 [0; 0; 0; 0; 5; 0] (1 * 3 + k) <> 0) /\
  (1%nat ∈ nonzero_rows (reshape 2 3 [0; 0; 0; 0; 5; 0]) <->
   exists j, j ∈ nonzero [0; 0; 0; 0; 5; 0] /\ nth j (group 2 3) O = 1%nat).
Proof.
  apply (estimated_variables_are_selected_groups 2 3 [0; 0; 0; 0; 5; 0] 1).
  reflexivity.
Defined.

(** ** The survival objectives read the times through their order *)

Lemma Rsum_where_ext n (P Q : nat -> Prop)
    `{!forall i, Decision (P i)} `{!forall i, Decision (Q i)} f g :
  (forall i, (i < n)%nat -> P i <-> Q i) ->
  (forall i, (i < n)%nat -> P i -> f i = g i) ->
  Rsum_where n P f = Rsum_where n Q g.
Proof.
  intros HPQ Hfg. unfold Rsum_where. apply Rsum_ext. intros i Hi.
  destruct (decide (P i)) as [HP|HP], (decide (Q i)) as [HQ|HQ].
  - apply Hfg; assumption.
  - exfalso. apply HQ, (HPQ i Hi), HP.
  - exfalso. apply HP, (HPQ i Hi), HQ.
  - reflexivity.
Qed.

Lemma at2_map_entries (phi : R -> R) (y : matrix) n c i k :
  shape y n c -> (i < n)%nat -> (k < c)%nat ->
  at2 (map (map phi) y) i k = phi (at2 y i k).
Proof.
  intros [Hn Hrows] Hi Hk. unfold at2.
  rewrite (nth_map_in _ _ _ []) by lia.
  apply nth_map_in.
  rewrite Forall_forall in Hrows. rewrite Hrows; [exact Hk|].
  apply list_elem_of_In, nth_In. lia.
Qed.

Lemma map_entries_shape (phi : R -> R) (y : matrix) n c :
  shape y n c -> shape (map (map phi) y) n c.
Proof.
  intros [Hn Hrows]. split; [rewrite length_map; exact Hn|].
  apply Forall_forall. intros row Hrow.
  apply list_elem_of_In, in_map_iff in Hrow. destruct Hrow as (r & <- & Hr).
  rewrite length_map. rewrite Forall_forall in Hrows.
  apply Hrows, list_elem_of_In, Hr.
Qed.

(** X21: both survival objectives read the times [y] only through their
    order: replacing every entry of [y] by its image under a strictly
    increasing map (a change of the unit of time, a logarithm) changes
    neither objective. *)
Theorem survival_objectives_depend_on_order
    (n p : nat) (x y : matrix) (delta : zmatrix) (params : vec) (phi : R -> R) :
  shape x n p -> shape y n 2 -> shape delta n 2 -> binary delta ->
  length params = p ->
  (forall a b, phi a <= phi b <-> a <= b) ->
  competing_risk_objective n x (map (map phi) y) delta params =
    competing_risk_objective n x y delta params /\
  multivariate_failure_objective n x (map (map phi) y) delta params =
    multivariate_failure_objective n x y delta params.
Proof.
  intros Hx Hy Hd Hb Hp Hphi.
  pose proof (map_entries_shape phi y n 2 Hy) as Hy'.
  assert (Hge : forall a b, phi a >= phi b <-> a >= b).
  { intros a b. split; intros H; apply Rle_ge; apply Rge_le in H;
      apply (Hphi b a); exact H. }
  assert (Hat : forall i k, (i < n)%nat -> (k < 2)%nat ->
                  at2 (map (map phi) y) i k = phi (at2 y i k)).
  { intros i k Hi Hk. apply (at2_map_entries phi y n 2); assumption. }
  split.
  - rewrite !(competing_risk_objective_eq n p) by assumption.
    unfold competing_risk_nlpl. f_equal.
    apply Rsum_where_ext; [tauto|]. intros i Hi _. f_equal. f_equal.
    apply Rsum_where_ext; [|reflexivity]. intros j Hj.
    unfold in_risk_set. rewrite !Hat by lia. rewrite !Hge, !Hphi. tauto.
  - rewrite !(multivariate_failure_objective_eq n p) by assumption.
    unfold multivariate_failure_nlpl. f_equal.
    apply Rsum_ext. intros k Hk.
    apply Rsum_where_ext; [tauto|]. intros i Hi _. f_equal. f_equal.
    apply Rsum_where_ext; [|reflexivity]. intros j Hj.
    rewrite !Hat by lia. apply Hge.
Qed.

Lemma survival_objectives_depend_on_order_witness :
  competing_risk_objective 2 [[1]; [2]]
      (map (map (fun t => 60 * t)) [[1; 3]; [2; 4]]) [[1; 1]; [0; 1]]%Z [1] =
    competing_risk_objective 2 [[1]; [2]] [[1; 3]; [2; 4]] [[1; 1]; [0; 1]]%Z [1] /\
  multivariate_failure_objective 2 [[1]; [2]]
      (map (map (fun t => 60 * t)) [[1; 3]; [2; 4]]) [[1; 1]; [0; 1]]%Z [1] =
    multivariate_failure_objective 2 [[1]; [2]] [[1; 3]; [2; 4]] [[1; 1]; [0; 1]]%Z [1].
Proof.
  apply (survival_objectives_depend_on_order 2 1 [[1]; [2]] [[1; 3]; [2; 4]]
           [[1; 1]; [0; 1]]%Z [1] (fun t => 60 * t));
    [solve_shape | solve_shape | solve_shape | solve_shape | solve_shape |].
  intros a b. lra.
Defined.

(** * The simulators and the objectives in floats *)

(** ** A power that overflows *)

Lemma Rpower_2_nat (n : nat) : Rpower 2 (INR n) = IZR (2 ^ Z.of_nat n).
Proof. rewrite Rpower_pow by lra. rewrite <- pow_IZR. reflexivity. Qed.

Lemma Rpower_2_le a b : a <= b -> Rpower 2 a <= Rpower 2 b.
Proof. intros H. apply Rle_Rpower; lra. Qed.

(** 1 - u2 for u2 = 1 - 2^-30, and -theta for theta = 50 *)
Lemma overflow_base :
  F64.sub F64.one (F64.sub F64.one (F64.scaled 1 (-30)))
  = S754_finite false 4503599627370496 (-82).
Proof. vm_compute. reflexivity. Qed.

Lemma overflow_exponent :
  fneg (F64.of_Z 50) = S754_finite true 7036874417766400 (-47).
Proof. vm_compute. reflexivity. Qed.

Lemma overflow_base_value :
  F2R (S754_finite false 4503599627370496 (-82)) = Rpower 2 (-30).
Proof.
  unfold F2R, cond_Zopp.
  change 4503599627370496%Z with (2 ^ Z.of_nat 52)%Z.
  rewrite <- Rpower_2_nat, <- Rpower_plus. f_equal.
  rewrite INR_IZR_INZ, <- plus_IZR. reflexivity.
Qed.

Lemma overflow_exponent_value :
  F2R (S754_finite true 7036874417766400 (-47)) = -50.
Proof.
  unfold F2R, cond_Zopp.
  change (Z.opp (Zpos 7036874417766400)) with (-50 * 2 ^ Z.of_nat 47)%Z.
  rewrite mult_IZR, <- Rpower_2_nat, Rmult_assoc, <- Rpower_plus.
  replace (INR 47 + IZR (-47)) with 0
    by (rewrite INR_IZR_INZ, <- plus_IZR; reflexivity).
  rewrite Rpower_O by lra. lra.
Qed.

Lemma power_overflows N :
  numpy_ok N ->
  np_power N (F64.sub F64.one (F64.sub F64.one (F64.scaled 1 (-30))))
             (fneg (F64.of_Z 50)) = pinf.
Proof.
  intros HN. rewrite overflow_base, overflow_exponent.
  apply (np_power_overflow N HN); [reflexivity | reflexivity | |].
  - rewrite overflow_base_value. apply exp_pos.
  - rewrite overflow_base_value, overflow_exponent_value, Rpower_mult.
    apply Rpower_2_le. lra.
Qed.

(** Once (1 - u2) ** -theta is infinite, the argument of the logarithm of
    [time1] is 1 - inf + b * inf, which is nan or -inf whatever b is, and
    the logarithm is nan. *)
Lemma clayton_log_nan_on_overflow N theta u1 u2 :
  numpy_ok N ->
  np_power N (F64.sub F64.one u2) (fneg theta) = pinf ->
  np_log N (clayton_log_argument N theta u1 u2) = nan.
Proof.
  intros HN Hp. unfold clayton_log_argument. rewrite Hp.
  change (F64.sub F64.one pinf) with ninf.
  destruct (np_power N (F64.sub F64.one u1) _) as [s|s| |s m e];
    try destruct s;
    first [ apply (np_log_nan N HN)
          | apply (np_log_negative N HN); reflexivity ].
Qed.

Lemma overflow_draws_ok : clayton_draws_ok 1 overflow_draws.
Proof.
  split; cbn [overflow_draws draw_u1 draw_u2 draw_ctime1 draw_ctime2];
    solve_draws.
Qed.

(** C9 as stated fails.  With theta = 50 and the uniform draws u1 = 1/2,
    u2 = 1 - 2^-30, the power (1 - u2) ** -theta is 2^1500 and overflows,
    [time1] is nan, and y[0,0] = np.minimum(nan, ctime1) is nan: it is not
    the minimum of the failure time and the censoring time. *)
Lemma simulators_invariant_fails_on_overflow :
  ~ (forall N n theta lambda1 lambda2 c1 c2 w,
       numpy_ok N -> clayton_draws_ok n w ->
       length lambda1 = n -> length lambda2 = n ->
       let '(y, delta) := make_Clayton2_data N n theta lambda1 lambda2 c1 c2 w in
       forall i k, (i < n)%nat -> (k < 2)%nat ->
         is_minimum (fat2 y i k)
           (fat1 (clayton_time N theta lambda1 lambda2 w k) i)
           (fat1 (clayton_ctime w k) i)).
Proof.
  intros H.
  specialize (H sample_numpy 1%nat (F64.of_Z 50) [F64.of_Z 1] [F64.of_Z 10]
                (F64.of_Z 5) (F64.of_Z 5) overflow_draws
                sample_numpy_ok overflow_draws_ok eq_refl eq_refl).
  unfold make_Clayton2_data in H. cbv zeta in H.
  specialize (H 0%nat 0%nat ltac:(lia) ltac:(lia)).
  destruct H as (_ & Hle & _). revert Hle.
  cbn [clayton_time clayton_ctime].
  assert (Ht : clayton_time1 sample_numpy (F64.of_Z 50) [F64.of_Z 1] overflow_draws
               = [nan]).
  { unfold clayton_time1. cbn [overflow_draws draw_u1 draw_u2 zip_with].
    rewrite (clayton_log_nan_on_overflow sample_numpy _ _ _ sample_numpy_ok
               (power_overflows sample_numpy sample_numpy_ok)).
    reflexivity. }
  rewrite Ht. cbn [overflow_draws draw_ctime1 draw_ctime2].
  unfold fat2, hstack2, np_minimum. cbn [zip_with nth fat1].
  discriminate.
Qed.

(** ** An exponential that underflows *)

Lemma sample_jax_ok : jax_ok sample_jax.
Proof.
  split. intros a _ H. cbn [jnp_exp sample_jax].
  destruct (Rlt_dec _ _); [reflexivity | contradiction].
Qed.

Lemma ln_2_lt_1 : ln 2 < 1.
Proof.
  rewrite <- (ln_exp 1) at 1. apply ln_increasing; [lra|].
  pose proof (exp_ineq1 1 ltac:(lra)). lra.
Qed.

(** x @ params for x = [[1]] and params = [-200], and its exponential *)
Lemma underflow_predictor :
  f32_matvec [[F32.of_Z 1]] [F32.of_Z (-200)] = [S754_finite true 13107200 (-16)].
Proof. vm_compute. reflexivity. Qed.

Lemma underflow_predictor_value : F2R (S754_finite true 13107200 (-16)) = -200.
Proof.
  unfold F2R, cond_Zopp.
  change (Z.opp (Zpos 13107200)) with (-200 * 2 ^ Z.of_nat 16)%Z.
  rewrite mult_IZR, <- Rpower_2_nat, Rmult_assoc, <- Rpower_plus.
  replace (INR 16 + IZR (-16)) with 0
    by (rewrite INR_IZR_INZ, <- plus_IZR; reflexivity).
  rewrite Rpower_O by lra. lra.
Qed.

Lemma exponential_underflows J :
  jax_ok J -> jnp_exp J (S754_finite true 13107200 (-16)) = fzero.
Proof.
  intros HJ. apply (jnp_exp_underflow J HJ); [reflexivity|].
  rewrite underflow_predictor_value. unfold Rpower.
  apply exp_increasing. pose proof ln_2_lt_1. lra.
Qed.


(** * The benchmark scores both methods on one dataset *)

Lemma common_support_hits estimate T :
  common (nonzero estimate) T = support_hits estimate T.
Proof.
  unfold common, support_hits.
  set (P := fun j : nat => at1 estimate j <> 0 /\ j ∈ T).
  set (L := filter P (seq 0 (length estimate))).
  assert (Hnd : NoDup L) by (apply NoDup_filter, NoDup_seq).
  rewrite <- (size_list_to_set (C := gset nat) L Hnd). f_equal.
  apply set_eq. intros j.
  rewrite elem_of_intersection, !elem_of_list_to_set, nonzero_spec.
  unfold L. rewrite list_elem_of_filter, elem_of_seq. unfold P.
  split.
  - intros [[H1 H2] H3]. split; [split; assumption | lia].
  - intros [[H1 H2] H3]. split; [split; [lia | assumption] | assumption].
Qed.

Lemma lookup_concat_blocks {A B} (f : A -> list B) (m : nat) (l : list A) a k dA :
  (forall x, length (f x) = m) -> (a < length l)%nat -> (k < m)%nat ->
  concat (map f l) !! (a * m + k)%nat = f (nth a l dA) !! k.
Proof.
  intros Hf. revert a. induction l as [|x l IH]; intros a Ha Hk; simpl in Ha; [lia|].
  cbn [map concat]. destruct a as [|a].
  - cbn [nth]. rewrite lookup_app_l by (rewrite Hf; simpl; lia). reflexivity.
  - rewrite lookup_app_r by (rewrite Hf; simpl; lia).
    rewrite Hf. replace (S a * m + k - m)%nat with (a * m + k)%nat by (simpl; lia).
    apply IH; lia.
Qed.

Lemma rep_rows_length w n p s g c i : length (rep_rows w n p s g c i) = 6%nat.
Proof. reflexivity. Qed.

(** The two rows of task [t] among the six of a repetition. *)
Lemma rep_rows_of_task w n p s g c i t :
  let data := generated w n p s g i t in
  exists row_abess row_skscope,
    rep_rows w n p s g c i !! (2 * task_number t)%nat = Some row_abess /\
    rep_rows w n p s g c i !! (2 * task_number t + 1)%nat = Some row_skscope /\
    label row_abess = (t, abess) /\
    label row_skscope = (t, skscope) /\
    row_accuracy row_abess =
      accuracy (abess_fit w (model_of t) s (data_x data) (data_y data))
               (true_support w p s i) s /\
    row_accuracy row_skscope =
      accuracy (scope_solve w p s (objective t (data_x data) (data_y data)) true)
               (nonzero (data_coef_ data)) s.
Proof.
  cbv zeta. unfold rep_rows, task_rows, scored.
  destruct t; cbn [task_number Nat.mul Nat.add app lookup list_lookup];
    eexists; eexists; repeat split; reflexivity.
Qed.

(** C6: for 1 <= s <= p and libraries that honour their contracts, a call
    of [test_time] returns with two rows per task and repetition; in every
    repetition and for every task abess is fitted on the generated dataset
    and skscope solves the objective over the same dataset, and the
    accuracy recorded for each is the number of indices that are both in
    its estimated support and in [true_support_set], divided by s;
    [true_support_set] holds s distinct indices, which are the non-zero
    indices of data.coef_, against which the code scores skscope. *)
Theorem test_time_scores_both_methods
    (w : world) (n p s : nat) (random_state : option nat) (rep : nat)
    (st : bench_state) :
  world_ok w -> (1 <= s)%nat -> (s <= p)%nat ->
  scored_as_claimed w n p s random_state rep st.
Proof.
  intros Hw Hs Hsp. unfold scored_as_claimed.
  destruct (test_time_run w n p s random_state rep st) as (st' & Hrun & Hres & _);
    [lia | exact Hsp |].
  exists st'. split; [exact Hrun|]. rewrite Hres. split.
  - destruct (concat_rows_facts
                (rep_rows w n p s (glm_calls st) (ticks st)) (seq 0 rep))
      as (H1 & _).
    + intros i. apply rep_rows_facts; assumption.
    + rewrite length_seq in H1. exact H1.
  - intros i t Hi. cbv zeta.
    destruct (rep_rows_of_task w n p s (glm_calls st) (ticks st) i t)
      as (ra & rs & Ea & Es & La & Ls & Aa & As).
    exists ra, rs.
    replace (6 * i + 2 * task_number t)%nat with (i * 6 + 2 * task_number t)%nat by lia.
    replace (i * 6 + 2 * task_number t + 1)%nat
      with (i * 6 + (2 * task_number t + 1))%nat by lia.
    rewrite !(lookup_concat_blocks _ 6 _ _ _ O)
      by (try apply rep_rows_length; rewrite ?length_seq; destruct t; simpl; lia).
    rewrite nth_seq_in by exact Hi. cbn [Nat.add].
    pose proof (generated_support w n p s (glm_calls st) i t Hw Hsp) as E.
    split; [exact Ea|]. split; [exact Es|]. split; [exact La|]. split; [exact Ls|].
    split; [rewrite Aa; unfold accuracy; rewrite common_support_hits; reflexivity|].
    split.
    { rewrite As, (accuracy_same_support _ _ _ s E). unfold accuracy.
      rewrite common_support_hits. reflexivity. }
    split; [apply (rng_choice_distinct_NoDup w Hw); exact Hsp|].
    split; [apply (rng_choice_distinct_length w Hw); exact Hsp|].
    intros j. rewrite <- !(elem_of_list_to_set (C := gset nat)), E. reflexivity.
Qed.

Lemma test_time_scores_both_methods_witness :
  scored_as_claimed quiet_world 4 3 2 None 2 fresh_state.
Proof.
  apply (test_time_scores_both_methods quiet_world 4 3 2 None 2 fresh_state
           quiet_world_ok); lia.
Defined.

(** C6 as stated fails: it holds of no call with s = 0.  The call
    [test_time(4, 3, 0, None, 1)] raises ZeroDivisionError when it divides
    the first count by s, so it does not return and records no accuracy. *)
Lemma scoring_fails_for_empty_support :
  ~ scored_as_claimed quiet_world 4 3 0 None 1 fresh_state.
Proof.
  intros (st' & Hrun & _).
  destruct (test_time_empty_support_run quiet_world 4 3 None 0 fresh_state)
    as (st1 & Hraise & _).
  rewrite Hraise in Hrun. discriminate Hrun.
Qed.
